(** * civmc-agribot: farm lifecycle tracker (main.py)

    A shallow embedding of the bot's persistence layer, name resolution,
    Kira message handling and asyncio timer bookkeeping, followed by the
    properties of the lifecycle state machine.

    The file has four parts: Python values and the program, function by
    function, as computations on an explicit world; the vocabulary of
    the properties and the sample inputs; the properties, proved for
    every world and every run; the properties on the sample inputs.

    Conventions:
    - Python values are the constructors of [pyval]; a [dict] is an
      association list in insertion order with unique keys.
    - A [timedelta] is a number of microseconds, a [datetime] is a wall
      clock reading in microseconds since the epoch with an optional UTC
      offset ([None] is a naive datetime).
    - JSON floats are idealised as rationals.
    - [str.lower], [str.strip] and the regex class [\s] are modelled on
      the ASCII range. *)

From Stdlib Require Import ZArith List String Ascii Bool Lia QArith Qround.
Import ListNotations.
Open Scope string_scope.
Open Scope list_scope.
Open Scope Z_scope.
Set Warnings "-register-all".

(** ** Python values *)

Record datetime := mk_datetime {
  dt_local : Z;          (* wall clock, microseconds since the epoch *)
  dt_tz : option Z       (* tzinfo as a UTC offset in microseconds *)
}.

Inductive pyval :=
| PNone
| PBool (b : bool)
| PInt (z : Z)
| PFloat (q : Q)
| PStr (s : string)
| PDatetime (d : datetime)
| PTimedelta (us : Z)
| PList (l : list pyval)
| PDict (d : list (string * pyval)).

Definition dict := list (string * pyval).

(** [bool(x)] *)
Definition truthy (v : pyval) : bool :=
  match v with
  | PNone => false
  | PBool b => b
  | PInt z => negb (Z.eqb z 0)
  | PFloat q => negb (Qeq_bool q 0)
  | PStr s => negb (String.eqb s "")
  | PDatetime _ => true
  | PTimedelta us => negb (Z.eqb us 0)
  | PList l => match l with [] => false | _ => true end
  | PDict d => match d with [] => false | _ => true end
  end.

(** [d.get(k)] as an option: [None] when the key is absent. *)
Fixpoint dict_get (k : string) (d : dict) : option pyval :=
  match d with
  | [] => None
  | (k', v) :: r => if String.eqb k k' then Some v else dict_get k r
  end.

(** [d.get(k)] with Python's default [None]. *)
Definition dict_get_none (k : string) (d : dict) : pyval :=
  match dict_get k d with Some v => v | None => PNone end.

(** [k in d] *)
Definition dict_mem (k : string) (d : dict) : bool :=
  match dict_get k d with Some _ => true | None => false end.

(** [d[k] = v]: overwrite in place, or append a new key at the end. *)
Fixpoint dict_set (k : string) (v : pyval) (d : dict) : dict :=
  match d with
  | [] => [(k, v)]
  | (k', v') :: r =>
      if String.eqb k k' then (k', v) :: r else (k', v') :: dict_set k v r
  end.

(** [d.pop(k, None)] *)
Fixpoint dict_pop (k : string) (d : dict) : dict :=
  match d with
  | [] => []
  | (k', v') :: r =>
      if String.eqb k k' then r else (k', v') :: dict_pop k r
  end.

(** ** datetime and timedelta arithmetic *)

Definition US_PER_SECOND : Z := 1000000.

(** The UTC instant of an aware datetime (a naive one is read as UTC,
    which is what every call site does through [replace(tzinfo=utc)]). *)
Definition dt_instant (d : datetime) : Z :=
  match dt_tz d with
  | Some off => dt_local d - off
  | None => dt_local d
  end.

(** [d.replace(tzinfo=timezone.utc)] *)
Definition replace_utc (d : datetime) : datetime :=
  mk_datetime (dt_local d) (Some 0).

(** [d.astimezone(timezone.utc)] on an aware datetime *)
Definition astimezone_utc (d : datetime) : datetime :=
  mk_datetime (dt_instant d) (Some 0).

(** [d + td] *)
Definition dt_add (d : datetime) (td : Z) : datetime :=
  mk_datetime (dt_local d + td) (dt_tz d).

(** [datetime.now(timezone.utc)] for a clock reading in microseconds *)
Definition utc_now (clock : Z) : datetime := mk_datetime clock (Some 0).

(** [int(td.total_seconds())]: truncation toward zero *)
Definition td_int_seconds (us : Z) : Z := Z.quot us US_PER_SECOND.

(** Largest magnitude of [timedelta.days] *)
Definition TD_MAX_DAYS : Z := 999999999.
Definition US_PER_DAY : Z := 86400 * US_PER_SECOND.

Definition td_in_range (us : Z) : bool :=
  let days := us / US_PER_DAY in
  (- TD_MAX_DAYS <=? days) && (days <=? TD_MAX_DAYS).

(** [round(q)] with ties to even *)
Definition round_half_even (q : Q) : Z :=
  let f := Qfloor q in
  let r := (q - inject_Z f)%Q in
  match Qcompare r (1 # 2) with
  | Lt => f
  | Gt => f + 1
  | Eq => if Z.even f then f else f + 1
  end.

(** [isinstance(v, (int, float))]; [bool] is a subclass of [int]. *)
Definition is_number (v : pyval) : bool :=
  match v with PBool _ | PInt _ | PFloat _ => true | _ => false end.

(** [timedelta(seconds=v)] for a number [v]; [None] is [OverflowError]. *)
Definition timedelta_seconds (v : pyval) : option Z :=
  let us :=
    match v with
    | PBool b => Some (if b then US_PER_SECOND else 0)
    | PInt z => Some (z * US_PER_SECOND)
    | PFloat q => Some (round_half_even (q * inject_Z US_PER_SECOND)%Q)
    | _ => None
    end in
  match us with
  | Some u => if td_in_range u then Some u else None
  | None => None
  end.

(** ** String helpers ([str.strip], [str.lower], [re.sub], [in]) *)

(** Whitespace as [str.isspace] and the regex class [\s] see it. *)
Definition is_space (c : ascii) : bool :=
  let n := nat_of_ascii c in
  ((9 <=? n) && (n <=? 13) || (28 <=? n) && (n <=? 32))%nat.

Definition lower_ascii (c : ascii) : ascii :=
  let n := nat_of_ascii c in
  if ((65 <=? n) && (n <=? 90))%nat then ascii_of_nat (n + 32) else c.

(** [s.lower()] *)
Fixpoint lower (s : string) : string :=
  match s with
  | EmptyString => EmptyString
  | String c r => String (lower_ascii c) (lower r)
  end.

Fixpoint lstrip (s : string) : string :=
  match s with
  | EmptyString => EmptyString
  | String c r => if is_space c then lstrip r else s
  end.

Fixpoint rev_string_onto (s acc : string) : string :=
  match s with
  | EmptyString => acc
  | String c r => rev_string_onto r (String c acc)
  end.

Definition rev_string (s : string) : string := rev_string_onto s EmptyString.

(** [s.strip()] *)
Definition strip (s : string) : string :=
  rev_string (lstrip (rev_string (lstrip s))).

(** [re.sub(r"\s+", " ", s)]: every maximal run of whitespace becomes one
    space.  [in_run] tells whether the previous character was whitespace. *)
Fixpoint collapse_ws_from (in_run : bool) (s : string) : string :=
  match s with
  | EmptyString => EmptyString
  | String c r =>
      if is_space c
      then (if in_run then collapse_ws_from true r
            else String " " (collapse_ws_from true r))
      else String c (collapse_ws_from false r)
  end.

Definition collapse_ws (s : string) : string := collapse_ws_from false s.

(** [needle in hay] *)
Fixpoint contains (needle hay : string) : bool :=
  if String.prefix needle hay then true
  else match hay with
       | EmptyString => false
       | String _ r => contains needle r
       end.

(** [msg.split("|", 1)]: the text before the first bar and the text after
    it, or [None] when [msg] has no bar (the source tests ["|" in msg]
    before it splits). *)
Fixpoint split_bar (msg : string) : option (string * string) :=
  match msg with
  | EmptyString => None
  | String c r =>
      if Ascii.eqb c "|"%char then Some (EmptyString, r)
      else match split_bar r with
           | Some (a, b) => Some (String c a, b)
           | None => None
           end
  end.

(** ** Status constants *)

Definition STATUS_UNKNOWN : string := "Unknown".
Definition STATUS_FARMING : string := "Currently being farmed".
Definition STATUS_READY : string := "Ready to be farmed".

(** ** Persistence: [load_farms] and [save_farms] *)

(** What [open] and [json.load] find at [FARMS_JSON_FILE]. *)
Inductive file :=
| NoFile                      (* [os.path.exists] is false *)
| Unreadable                  (* [json.JSONDecodeError] *)
| Content (doc : pyval).      (* the decoded document *)

Definition empty_snapshot : pyval :=
  PDict [("last_message_id", PNone); ("status_message_id", PNone);
         ("farms", PList [])].

(** [json.dump] accepts a value when it holds no datetime or timedelta. *)
Fixpoint json_serializable (v : pyval) : bool :=
  match v with
  | PDatetime _ | PTimedelta _ => false
  | PList l => forallb json_serializable l
  | PDict d =>
      (fix go (d : list (string * pyval)) : bool :=
         match d with
         | [] => true
         | (_, x) :: r => json_serializable x && go r
         end) d
  | _ => true
  end.

(** Sequencing of steps that may raise. *)
Definition obind {A B} (o : option A) (k : A -> option B) : option B :=
  match o with Some a => k a | None => None end.

Fixpoint omap {A B} (f : A -> option B) (l : list A) : option (list B) :=
  match l with
  | [] => Some []
  | a :: r => obind (f a) (fun b => obind (omap f r) (fun bs => Some (b :: bs)))
  end.

Section Persistence.

(** [datetime.fromisoformat] ([None] when it raises) and
    [datetime.isoformat], the two standard-library conversions the
    program relies on. *)
Variable fromisoformat : string -> option datetime.
Variable isoformat : datetime -> string.

(** Lines 88-92: a truthy [next_ready] is parsed; anything that does not
    parse (a malformed string, or a value that is not a string at all) is
    replaced by [None]. *)
Definition load_next_ready (f : dict) : dict :=
  match dict_get "next_ready" f with
  | Some v =>
      if truthy v then
        match v with
        | PStr s =>
            match fromisoformat s with
            | Some d => dict_set "next_ready" (PDatetime d) f
            | None => dict_set "next_ready" PNone f
            end
        | _ => dict_set "next_ready" PNone f
        end
      else f
  | None => f
  end.

(** Lines 94-98: a numeric duration becomes a timedelta; [None] is the
    [OverflowError] of an out-of-range number of seconds. *)
Definition load_duration (k : string) (f : dict) : option dict :=
  match dict_get k f with
  | Some v =>
      if is_number v then
        obind (timedelta_seconds v) (fun us => Some (dict_set k (PTimedelta us) f))
      else Some f
  | None => Some f
  end.

(** Lines 99-100 *)
Definition load_status (f : dict) : dict :=
  if dict_mem "status" f then f else dict_set "status" (PStr STATUS_UNKNOWN) f.

(** The body of the loop of [load_farms] on one list entry.  An entry
    that is not a JSON object makes the membership tests or the item
    assignment raise, which is [None] here. *)
Definition load_farm (farm : pyval) : option pyval :=
  match farm with
  | PDict f =>
      obind (load_duration "runtime" (load_next_ready f)) (fun f1 =>
      obind (load_duration "regrow_time" f1) (fun f2 =>
      Some (PDict (load_status f2))))
  | _ => None
  end.

(** [load_farms()]: the in-memory [data] dictionary, or [None] when an
    exception escapes. *)
Definition load_farms (fl : file) : option pyval :=
  match fl with
  | NoFile | Unreadable => Some empty_snapshot
  | Content doc =>
      let data :=
        match doc with
        | PList l =>
            Some [("last_message_id", PNone); ("status_message_id", PNone);
                  ("farms", doc)]
        | PDict d => Some d
        | _ => None                       (* no [get] attribute *)
        end in
      obind data (fun d =>
      match dict_get "farms" d with
      | None => Some (PDict d)            (* default [[]] *)
      | Some (PList l) =>
          obind (omap load_farm l) (fun l' => Some (PDict (dict_set "farms" (PList l') d)))
      | Some _ => None
      end)
  end.

(** The body of the loop of [save_farms] on one farm (lines 116-122). *)
Definition save_duration (k : string) (f : dict) : dict :=
  match dict_get k f with
  | Some (PTimedelta us) => dict_set k (PInt (td_int_seconds us)) f
  | _ => f
  end.

Definition save_next_ready (f : dict) : dict :=
  match dict_get "next_ready" f with
  | Some (PDatetime d) => dict_set "next_ready" (PStr (isoformat d)) f
  | _ => f
  end.

Definition save_farm (farm : pyval) : option pyval :=
  match farm with
  | PDict f =>
      Some (PDict (save_duration "regrow_time"
                     (save_duration "runtime" (save_next_ready f))))
  | _ => None                             (* no [copy] attribute *)
  end.

(** [save_farms(data)]: the document handed to [json.dump], or [None]
    when an exception escapes. *)
Definition save_farms (data : pyval) : option pyval :=
  match data with
  | PDict d =>
      let farms :=
        match dict_get "farms" d with
        | None => Some []
        | Some (PList l) => Some l
        | Some _ => None
        end in
      obind farms (fun l =>
      obind (omap save_farm l) (fun l' =>
      let out := PDict [("last_message_id", dict_get_none "last_message_id" d);
                        ("status_message_id", dict_get_none "status_message_id" d);
                        ("farms", PList l')] in
      if json_serializable out then Some out else None))
  | _ => None
  end.

End Persistence.

(** ** The running bot: world state *)

(** A Kira line as [process_kira_message] sees it: the groups of
    [KIRA_REGEX.fullmatch] ([None] when the line does not match), the
    creation time and the message id.  The messages are those of the
    Kira updates channel. *)
Record message := mk_message {
  m_author : string;                               (* [message.author.name] *)
  m_groups : option (string * string * string);   (* time, user, msg *)
  m_created_at : datetime;
  m_id : Z
}.

(** Locals of [process_kira_message] that survive an [await]. *)
Record kira_locals := mk_locals {
  kl_farm : nat;                 (* the farm object *)
  kl_user : string;
  kl_time_str : string;
  kl_created_at : datetime;      (* normalised to UTC *)
  kl_bot_channel : bool;         (* [bot_channel] is not [None] *)
  kl_message_id : Z
}.

(** What the bot sends to the updates channel. *)
Inductive notice :=
| NStarted (name user : string)
| NFinished (name user : string) (next_ready : datetime)
| NAutoSwitched (name : string) (next_ready : datetime)
| NReady (name : string).

(** Observable effects, in the order they happen. *)
Inductive event :=
| EvSave (written : file)            (* [save_farms] rewrote the file *)
| EvPrint (what : string)            (* a diagnostic on stdout *)
| EvSend (n : notice)                (* [channel.send] in the updates channel *)
| EvInterrupted (n : notice)         (* the same call, made by a task that has
                                        a cancellation pending: it raises
                                        [CancelledError] at its first
                                        suspension and never completes *)
| EvBoardEdit                        (* status board edited in place *)
| EvBoardNew                         (* a new status board message *)
| EvBoardWarning                     (* "embed was deleted" warning *)
| EvRespond (ok : bool) (name : string).  (* reply to a slash command *)

(** Where a coroutine is suspended, with the locals it needs afterwards.
    The line numbers are those of the [await] in main.py. *)
Inductive frame :=
| FEmbedFetch                        (* 309 *)
| FEmbedEdit                         (* 310 *)
| FEmbedSendNew                      (* 312 *)
| FEmbedSendRecreate                 (* 317 *)
| FEmbedWarn                         (* 320 *)
| FStartEmbed (l : kira_locals)      (* 373 *)
| FStartSend (l : kira_locals)       (* 416 *)
| FFinishEmbed (l : kira_locals) (nr : datetime)   (* 426 *)
| FFinishSend (l : kira_locals)      (* 438 *)
| FFailsafeNew (farm : nat) (bot_channel : bool)   (* created, not started *)
| FFailsafeSleep (farm : nat) (bot_channel : bool) (wake : Z)   (* 384 *)
| FFailsafeEmbed (farm : nat) (bot_channel : bool) (nr : datetime)  (* 391 *)
| FFailsafeSend                      (* 398 *)
| FNotifyNew (farm : nat)            (* created, not started *)
| FNotifySleep (farm : nat) (wake : Z)   (* 210 *)
| FNotifyEmbed (farm : nat)          (* 184 *)
| FNotifySend                        (* 185 *)
| FOnReadySync                       (* 659 / 662 *)
| FOnReadyHistory (now : datetime)   (* 673 *)
| FOnReadyCatchup (now : datetime) (rest : list message)   (* 675 *)
| FOnReadyEmbed                      (* 697 *)
| FCommandEmbed (name : string)      (* 530, 592, 641 *)
| FCommandRespond.                   (* 533, 594, 642 and the not-found replies *)

(** State of an asyncio task or of an event handler coroutine. *)
Inductive costate :=
| Live            (* suspended at the top frame of its stack, or running *)
| Cancelling      (* [cancel()] was called; [done()] is still false *)
| Finished.       (* returned, raised or was cancelled: [done()] is true *)

Record coro := mk_coro {
  co_stack : list frame;     (* innermost frame first *)
  co_state : costate
}.

Record world := mk_world {
  clock : Z;                          (* wall clock, microseconds *)
  objs : list dict;                   (* farm dictionaries by identity *)
  farms : list nat;                   (* the global list [farms] *)
  last_message_id : pyval;            (* [data["last_message_id"]] *)
  status_message_id : pyval;          (* [data["status_message_id"]] *)
  disk : file;                        (* farms.json *)
  scheduled : list (string * nat);    (* [_scheduled_tasks] *)
  coros : list coro;                  (* every coroutine, by identity *)
  bot_channel_up : bool;              (* [get_channel(BOTFARMUPDATES...)] *)
  status_channel_up : bool;           (* [get_channel(FARMS_STATUS...)] *)
  kira_channel_up : bool;             (* [get_channel(KIRA_FARMUPDATES...)] *)
  current : option nat;               (* the coroutine that is running *)
  log : list event                    (* newest last *)
}.

(** Field updates *)
Definition set_clock (c : Z) (w : world) : world :=
  mk_world c (objs w) (farms w) (last_message_id w) (status_message_id w)
    (disk w) (scheduled w) (coros w) (bot_channel_up w) (status_channel_up w)
    (kira_channel_up w) (current w) (log w).
Definition set_objs (o : list dict) (w : world) : world :=
  mk_world (clock w) o (farms w) (last_message_id w) (status_message_id w)
    (disk w) (scheduled w) (coros w) (bot_channel_up w) (status_channel_up w)
    (kira_channel_up w) (current w) (log w).
Definition set_farms (f : list nat) (w : world) : world :=
  mk_world (clock w) (objs w) f (last_message_id w) (status_message_id w)
    (disk w) (scheduled w) (coros w) (bot_channel_up w) (status_channel_up w)
    (kira_channel_up w) (current w) (log w).
Definition set_last_message_id (v : pyval) (w : world) : world :=
  mk_world (clock w) (objs w) (farms w) v (status_message_id w)
    (disk w) (scheduled w) (coros w) (bot_channel_up w) (status_channel_up w)
    (kira_channel_up w) (current w) (log w).
Definition set_status_message_id (v : pyval) (w : world) : world :=
  mk_world (clock w) (objs w) (farms w) (last_message_id w) v
    (disk w) (scheduled w) (coros w) (bot_channel_up w) (status_channel_up w)
    (kira_channel_up w) (current w) (log w).
Definition set_disk (d : file) (w : world) : world :=
  mk_world (clock w) (objs w) (farms w) (last_message_id w) (status_message_id w)
    d (scheduled w) (coros w) (bot_channel_up w) (status_channel_up w)
    (kira_channel_up w) (current w) (log w).
Definition set_scheduled (s : list (string * nat)) (w : world) : world :=
  mk_world (clock w) (objs w) (farms w) (last_message_id w) (status_message_id w)
    (disk w) s (coros w) (bot_channel_up w) (status_channel_up w)
    (kira_channel_up w) (current w) (log w).
Definition set_coros (c : list coro) (w : world) : world :=
  mk_world (clock w) (objs w) (farms w) (last_message_id w) (status_message_id w)
    (disk w) (scheduled w) c (bot_channel_up w) (status_channel_up w)
    (kira_channel_up w) (current w) (log w).
Definition set_channels (b s k : bool) (w : world) : world :=
  mk_world (clock w) (objs w) (farms w) (last_message_id w) (status_message_id w)
    (disk w) (scheduled w) (coros w) b s k (current w) (log w).
Definition set_current (c : option nat) (w : world) : world :=
  mk_world (clock w) (objs w) (farms w) (last_message_id w) (status_message_id w)
    (disk w) (scheduled w) (coros w) (bot_channel_up w) (status_channel_up w)
    (kira_channel_up w) c (log w).
Definition set_log (l : list event) (w : world) : world :=
  mk_world (clock w) (objs w) (farms w) (last_message_id w) (status_message_id w)
    (disk w) (scheduled w) (coros w) (bot_channel_up w) (status_channel_up w)
    (kira_channel_up w) (current w) l.

(** ** A state monad with exceptions

    A computation runs on the world and either returns a value or raises
    ([None]); what it did to the world before raising stays done. *)
Definition M (A : Type) : Type := world -> option A * world.

Definition ret {A} (a : A) : M A := fun w => (Some a, w).
Definition raise {A} : M A := fun w => (None, w).
Definition bind {A B} (m : M A) (k : A -> M B) : M B :=
  fun w => match m w with
           | (Some a, w') => k a w'
           | (None, w') => (None, w')
           end.
Definition gets {A} (f : world -> A) : M A := fun w => (Some (f w), w).
Definition modify (f : world -> world) : M unit := fun w => (Some tt, f w).
Definition lift_option {A} (o : option A) : M A :=
  match o with Some a => ret a | None => raise end.

Declare Scope bot_scope.
Delimit Scope bot_scope with bot.
Notation "x <- m ;; k" := (bind m (fun x => k))
  (at level 61, m at next level, right associativity) : bot_scope.
Notation "m ;;; k" := (bind m (fun _ => k))
  (at level 61, right associativity) : bot_scope.
Open Scope bot_scope.

(** [when c m]: [if c: m] *)
Definition when (c : bool) (m : M unit) : M unit := if c then m else ret tt.

(** List update by index; out of range leaves the list alone (farm and
    coroutine identities always come from the list they index). *)
Fixpoint list_set {A} (i : nat) (a : A) (l : list A) : list A :=
  match l, i with
  | [], _ => []
  | _ :: r, O => a :: r
  | x :: r, S j => x :: list_set j a r
  end.

(** *** Farm objects *)

Definition get_farm (i : nat) : M dict :=
  w <- gets objs ;; lift_option (nth_error w i).

(** [farm[k]]: raises [KeyError] when the key is absent. *)
Definition farm_item (i : nat) (k : string) : M pyval :=
  f <- get_farm i ;; lift_option (dict_get k f).

(** [farm.get(k)] *)
Definition farm_get (i : nat) (k : string) : M pyval :=
  f <- get_farm i ;; ret (dict_get_none k f).

(** [farm[k] = v] *)
Definition farm_set (i : nat) (k : string) (v : pyval) : M unit :=
  f <- get_farm i ;;
  modify (fun w => set_objs (list_set i (dict_set k v f) (objs w)) w).

(** [farm["name"]] where the program goes on to use it as a string. *)
Definition farm_name (i : nat) : M string :=
  v <- farm_item i "name" ;;
  match v with PStr s => ret s | _ => raise end.

Definition emit (e : event) : M unit :=
  modify (fun w => set_log (log w ++ [e]) w).

(** [datetime.now(timezone.utc)] *)
Definition now_utc : M datetime := c <- gets clock ;; ret (utc_now c).

(** *** [_scheduled_tasks] *)

Fixpoint sched_get (k : string) (d : list (string * nat)) : option nat :=
  match d with
  | [] => None
  | (k', v) :: r => if String.eqb k k' then Some v else sched_get k r
  end.

Fixpoint sched_set (k : string) (v : nat) (d : list (string * nat))
  : list (string * nat) :=
  match d with
  | [] => [(k, v)]
  | (k', v') :: r =>
      if String.eqb k k' then (k', v) :: r else (k', v') :: sched_set k v r
  end.

Fixpoint sched_pop (k : string) (d : list (string * nat))
  : list (string * nat) :=
  match d with
  | [] => []
  | (k', v') :: r =>
      if String.eqb k k' then r else (k', v') :: sched_pop k r
  end.

(** *** asyncio tasks *)

Definition get_coro (cid : nat) : M coro :=
  cs <- gets coros ;; lift_option (nth_error cs cid).

(** [task.done()] *)
Definition task_done (cid : nat) : M bool :=
  c <- get_coro cid ;;
  ret (match co_state c with Finished => true | _ => false end).

(** [task.cancel()]: no effect on a task that is done; otherwise the
    task is marked and [CancelledError] reaches it at its current or next
    suspension. *)
Definition task_cancel (cid : nat) : M unit :=
  c <- get_coro cid ;;
  match co_state c with
  | Finished => ret tt
  | _ => modify (fun w =>
           set_coros (list_set cid (mk_coro (co_stack c) Cancelling) (coros w)) w)
  end.

(** [asyncio.create_task(coro)]: the new task starts at a later turn of
    the event loop. *)
Definition create_task (f : frame) : M nat :=
  cs <- gets coros ;;
  modify (fun w => set_coros (coros w ++ [mk_coro [f] Live]) w) ;;;
  ret (List.length cs).

(** Has the running coroutine a cancellation pending? *)
Definition cancel_pending : M bool :=
  cur <- gets current ;;
  match cur with
  | None => ret false
  | Some cid =>
      c <- get_coro cid ;;
      ret (match co_state c with Cancelling => true | _ => false end)
  end.

(** [await channel.send(...)] in the updates channel, up to the point
    where the caller suspends. *)
Definition send_notice (n : notice) : M unit :=
  p <- cancel_pending ;;
  if p then emit (EvInterrupted n) ;;; raise else emit (EvSend n).

(** Result of running a coroutine up to its next suspension. *)
Inductive ctl :=
| Returned
| Suspended (fs : list frame).     (* frames to push, innermost first *)

Section Bot.

Variable fromisoformat : string -> option datetime.
Variable isoformat : datetime -> string.

(** The dictionary [data] as it stands in memory. *)
Definition in_memory_data (w : world) : option pyval :=
  obind (omap (fun i => option_map PDict (nth_error (objs w) i)) (farms w))
    (fun l => Some (PDict [("last_message_id", last_message_id w);
                           ("status_message_id", status_message_id w);
                           ("farms", PList l)])).

(** [save_farms(data)]: a value [json.dump] rejects leaves a truncated
    file behind. *)
Definition save : M unit :=
  d <- (fun w => (in_memory_data w, w)) ;;
  match save_farms isoformat d with
  | Some doc => modify (set_disk (Content doc)) ;;; emit (EvSave (Content doc))
  | None => modify (set_disk Unreadable) ;;; emit (EvSave Unreadable) ;;; raise
  end.

(** [schedule_task_for_farm(farm)] (lines 216-226) *)
Definition schedule_task_for_farm (farm : nat) : M unit :=
  name <- farm_name farm ;;
  old <- gets (fun w => sched_get name (scheduled w)) ;;
  match old with
  | Some t => d <- task_done t ;; when (negb d) (task_cancel t)
  | None => ret tt
  end ;;;
  nr <- farm_get farm "next_ready" ;;
  when (truthy nr)
    (t <- create_task (FNotifyNew farm) ;;
     modify (fun w => set_scheduled (sched_set name t (scheduled w)) w)).

(** [[f for f in farms if p(f["name"].strip().lower())]] *)
Fixpoint filter_farms (p : string -> bool) (l : list nat) : M (list nat) :=
  match l with
  | [] => ret []
  | i :: r =>
      n <- farm_name i ;;
      rest <- filter_farms p r ;;
      ret (if p (lower (strip n)) then i :: rest else rest)
  end.

(** [find_farms_by_name_partial(name_raw)] (lines 232-244) *)
Definition find_farms_by_name_partial (name_raw : string) : M (list nat) :=
  if String.eqb name_raw "" then ret []
  else
    let clean := collapse_ws (lower (strip name_raw)) in
    fs <- gets farms ;;
    exact <- filter_farms (String.eqb clean) fs ;;
    match exact with
    | _ :: _ => ret exact
    | [] => filter_farms (contains clean) fs
    end.

(** [get_farm_exact(name_raw)] (lines 247-249) *)
Definition get_farm_exact (name_raw : string) : M (option nat) :=
  matches <- find_farms_by_name_partial name_raw ;;
  ret (match matches with m :: _ => Some m | [] => None end).

(** ** The status board: [update_farms_embed] (lines 255-320) *)

(** Building the embed reads [farm["name"]] of every farm. *)
Fixpoint build_embed (l : list nat) : M unit :=
  match l with
  | [] => ret tt
  | i :: r => farm_item i "name" ;;; build_embed r
  end.

(** Up to the first [await]. *)
Definition update_farms_embed : M ctl :=
  up <- gets status_channel_up ;;
  if negb up then emit (EvPrint "Status channel not found") ;;; ret Returned
  else
    fs <- gets farms ;;
    build_embed fs ;;;
    msg_id <- gets status_message_id ;;
    if truthy msg_id then ret (Suspended [FEmbedFetch])
    else emit EvBoardNew ;;; ret (Suspended [FEmbedSendNew]).

(** What the chat platform answers to an awaited call. *)
Inductive response :=
| RespOk
| RespNotFound                        (* [discord.NotFound] *)
| RespMessage (id : Z)                (* the message that was sent *)
| RespHistory (msgs : list message).  (* [kira_channel.history(...)] *)

(** The [except discord.NotFound] branch up to its first [await]. *)
Definition embed_recreate : M ctl :=
  emit EvBoardNew ;;; ret (Suspended [FEmbedSendRecreate]).

(** [await update_farms_embed()] in a caller: when the callee returns
    without suspending the caller goes straight on with [k_code];
    otherwise the caller's frame [k_frame] waits below the callee's. *)
Definition call_embed (k_frame : frame) (k_code : M ctl) : M ctl :=
  r <- update_farms_embed ;;
  match r with
  | Returned => k_code
  | Suspended fs => ret (Suspended (fs ++ [k_frame]))
  end.

(** ** Readiness: [notify_farm_ready_plain] and
       [schedule_notification_for_farm] (lines 167-213) *)

(** Line 185 *)
Definition notify_after_embed (farm : nat) : M ctl :=
  name <- farm_name farm ;;
  send_notice (NReady name) ;;;
  ret (Suspended [FNotifySend]).

Definition notify_farm_ready_plain (farm : nat) : M ctl :=
  up <- gets bot_channel_up ;;
  if negb up then emit (EvPrint "Bot updates channel not found") ;;; ret Returned
  else
    farm_set farm "status" (PStr STATUS_READY) ;;;
    farm_set farm "next_ready" PNone ;;;
    save ;;;
    call_embed (FNotifyEmbed farm) (notify_after_embed farm).

(** The task body up to its first suspension. *)
Definition schedule_notification_for_farm (farm : nat) : M ctl :=
  f <- get_farm farm ;;
  match dict_get "next_ready" f with
  | None | Some PNone => ret Returned
  | Some v =>
      let parsed :=
        match v with
        | PStr s => option_map PDatetime (fromisoformat s)
        | _ => Some v
        end in
      match parsed with
      | None => farm_set farm "next_ready" PNone ;;; save ;;; ret Returned
      | Some (PDatetime d) =>
          let nr := match dt_tz d with None => replace_utc d | Some _ => d end in
          now <- now_utc ;;
          let delay := dt_instant nr - dt_instant now in
          if delay <=? 0 then notify_farm_ready_plain farm
          else ret (Suspended [FNotifySleep farm (dt_instant nr)])
      | Some _ => raise                     (* no [tzinfo] attribute *)
      end
  end.

(** ** [process_kira_message] (lines 326-442) *)

(** Lines 355-364 for one of the two duration keys *)
Definition normalize_duration (farm : nat) (k : string) : M unit :=
  v <- farm_get farm k ;;
  match v with
  | PTimedelta _ => ret tt
  | _ =>
      if is_number v then
        us <- lift_option (timedelta_seconds v) ;;
        farm_set farm k (PTimedelta us)
      else farm_set farm k (PTimedelta 0)
  end.

(** [farm[k]] used as a timedelta in arithmetic *)
Definition farm_timedelta (farm : nat) (k : string) : M Z :=
  v <- farm_item farm k ;;
  match v with PTimedelta us => ret us | _ => raise end.

(** Lines 441-442 *)
Definition checkpoint (id : Z) : M unit :=
  modify (set_last_message_id (PInt id)) ;;; save.

(** The failsafe task (lines 382-402).  [CancelledError] and every other
    exception end the task; the difference is not observable here. *)

(** Lines 394-400, after [await update_farms_embed()] *)
Definition failsafe_after_embed (farm : nat) (bot_channel : bool)
    (next_ready_dt : datetime) : M ctl :=
  schedule_task_for_farm farm ;;;
  if bot_channel then
    name <- farm_name farm ;;
    send_notice (NAutoSwitched name next_ready_dt) ;;;
    ret (Suspended [FFailsafeSend])
  else ret Returned.

(** Lines 386-391, after the sleep *)
Definition failsafe_after_sleep (farm : nat) (bot_channel : bool) : M ctl :=
  nr <- farm_get farm "next_ready" ;;
  match nr with
  | PNone =>
      now <- now_utc ;;
      regrow <- farm_timedelta farm "regrow_time" ;;
      let next_ready_dt := dt_add now regrow in
      farm_set farm "next_ready" (PDatetime next_ready_dt) ;;;
      farm_set farm "status" (PStr STATUS_FARMING) ;;;
      save ;;;
      call_embed (FFailsafeEmbed farm bot_channel next_ready_dt)
        (failsafe_after_embed farm bot_channel next_ready_dt)
  | _ => ret Returned
  end.

(** Line 384, when the task starts: [asyncio.sleep] always suspends. *)
Definition failsafe_start (farm : nat) (bot_channel : bool) : M ctl :=
  runtime <- farm_timedelta farm "runtime" ;;
  c <- gets clock ;;
  ret (Suspended [FFailsafeSleep farm bot_channel (c + runtime * 2)]).

(** Line 416 onwards *)
Definition start_after_send (l : kira_locals) : M ctl :=
  checkpoint (kl_message_id l) ;;; ret Returned.

(** Lines 375-416, after [await update_farms_embed()] *)
Definition start_after_embed (l : kira_locals) : M ctl :=
  name <- farm_name (kl_farm l) ;;
  task <- gets (fun w => sched_get name (scheduled w)) ;;
  match task with
  | Some t =>
      d <- task_done t ;;
      when (negb d)
        (task_cancel t ;;;
         modify (fun w => set_scheduled (sched_pop name (scheduled w)) w))
  | None => ret tt
  end ;;;
  t <- create_task (FFailsafeNew (kl_farm l) (kl_bot_channel l)) ;;
  modify (fun w => set_scheduled (sched_set name t (scheduled w)) w) ;;;
  if kl_bot_channel l then
    send_notice (NStarted name (kl_user l)) ;;;
    ret (Suspended [FStartSend l])
  else start_after_send l.

(** Lines 427-438, after [await update_farms_embed()] *)
Definition finish_after_embed (l : kira_locals) (next_ready_dt : datetime)
  : M ctl :=
  schedule_task_for_farm (kl_farm l) ;;;
  if kl_bot_channel l then
    name <- farm_name (kl_farm l) ;;
    send_notice (NFinished name (kl_user l) next_ready_dt) ;;;
    ret (Suspended [FFinishSend l])
  else start_after_send l.

(** [message.created_at] converted to UTC (lines 348-352) *)
Definition created_at_utc (m : message) : datetime :=
  match dt_tz (m_created_at m) with
  | None => replace_utc (m_created_at m)
  | Some _ => astimezone_utc (m_created_at m)
  end.

Definition process_kira_message (m : message) : M ctl :=
  match m_groups m with
  | None => ret Returned
  | Some (time_str, user, msg) =>
      match split_bar msg with
      | None => ret Returned
      | Some (a, b) =>
          let farm_name_part := strip a in
          let status_text := lower (strip b) in
          found <- get_farm_exact farm_name_part ;;
          match found with
          | None => emit (EvPrint "Unknown farm in Kira message") ;;; ret Returned
          | Some farm =>
              bot_channel <- gets bot_channel_up ;;
              let created_at := created_at_utc m in
              let l := mk_locals farm user time_str created_at bot_channel (m_id m) in
              normalize_duration farm "regrow_time" ;;;
              normalize_duration farm "runtime" ;;;
              if contains "being started" status_text then
                farm_set farm "status" (PStr STATUS_FARMING) ;;;
                farm_set farm "next_ready" PNone ;;;
                save ;;;
                call_embed (FStartEmbed l) (start_after_embed l)
              else if contains "has finished" status_text then
                regrow <- farm_timedelta farm "regrow_time" ;;
                let next_ready_dt := dt_add created_at regrow in
                farm_set farm "next_ready" (PDatetime next_ready_dt) ;;;
                farm_set farm "status" (PStr STATUS_FARMING) ;;;
                save ;;;
                call_embed (FFinishEmbed l next_ready_dt)
                  (finish_after_embed l next_ready_dt)
              else start_after_send l
          end
      end
  end.

(** ** Slash commands *)

(** [next((f for f in farms if p(f["name"].strip().lower())), None)] *)
Fixpoint first_farm (p : string -> bool) (l : list nat) : M (option nat) :=
  match l with
  | [] => ret None
  | i :: r =>
      n <- farm_name i ;;
      if p (lower (strip n)) then ret (Some i) else first_farm p r
  end.

(** The tail shared by the commands: refresh the board, then reply. *)
Definition command_after_embed (name : string) : M ctl :=
  emit (EvRespond true name) ;;; ret (Suspended [FCommandRespond]).

Definition command_refused (arg : string) : M ctl :=
  emit (EvRespond false arg) ;;; ret (Suspended [FCommandRespond]).

(** [/removefarm] (lines 505-533) *)
Definition removefarm (farm_name_arg : string) : M ctl :=
  let farm_name_str := lower (strip farm_name_arg) in
  fs <- gets farms ;;
  found <- first_farm (String.eqb farm_name_str) fs ;;
  match found with
  | None => command_refused farm_name_arg
  | Some farm =>
      name <- farm_name farm ;;
      task <- gets (fun w => sched_get name (scheduled w)) ;;
      match task with
      | Some t =>
          d <- task_done t ;;
          when (negb d)
            (task_cancel t ;;;
             modify (fun w => set_scheduled (sched_pop name (scheduled w)) w))
      | None => ret tt
      end ;;;
      kept <- filter_farms (fun n => negb (String.eqb n farm_name_str)) fs ;;
      modify (set_farms kept) ;;;
      save ;;;
      call_embed (FCommandEmbed name) (command_after_embed name)
  end.

(** [timedelta(minutes=int(m))] and [timedelta(hours=float(h))] *)
Definition timedelta_minutes (m : Z) : option Z :=
  let us := m * 60 * US_PER_SECOND in
  if td_in_range us then Some us else None.

Definition timedelta_hours (h : Q) : option Z :=
  let us := round_half_even (h * inject_Z (3600 * US_PER_SECOND))%Q in
  if td_in_range us then Some us else None.

(** [/addfarm] (lines 563-594) *)
Definition addfarm (name coords total_output : string)
    (runtime_minutes : Z) (regrow_hours : Q) : M ctl :=
  fs <- gets farms ;;
  dup <- first_farm (String.eqb (lower (strip name))) fs ;;
  match dup with
  | Some _ => command_refused name
  | None =>
      runtime <- lift_option (timedelta_minutes runtime_minutes) ;;
      regrow <- lift_option (timedelta_hours regrow_hours) ;;
      let new_farm : dict :=
        [("name", PStr (strip name)); ("coords", PStr (strip coords));
         ("total_output", PStr (strip total_output));
         ("runtime", PTimedelta runtime); ("regrow_time", PTimedelta regrow);
         ("next_ready", PNone); ("status", PStr STATUS_UNKNOWN)] in
      os <- gets objs ;;
      modify (set_objs (os ++ [new_farm])) ;;;
      modify (set_farms (fs ++ [List.length os])) ;;;
      save ;;;
      call_embed (FCommandEmbed name) (command_after_embed name)
  end.

(** [/editfarm] (lines 608-642) *)
Definition editfarm (farm_name_arg : string) (coords total_output : option string)
    (runtime_minutes : option Z) (regrow_hours : option Q) : M ctl :=
  found <- get_farm_exact farm_name_arg ;;
  match found with
  | None => command_refused farm_name_arg
  | Some farm =>
      match coords with
      | Some c => farm_set farm "coords" (PStr (strip c))
      | None => ret tt
      end ;;;
      match total_output with
      | Some t => farm_set farm "total_output" (PStr (strip t))
      | None => ret tt
      end ;;;
      match runtime_minutes with
      | Some m =>
          us <- lift_option (timedelta_minutes m) ;;
          farm_set farm "runtime" (PTimedelta us)
      | None => ret tt
      end ;;;
      match regrow_hours with
      | Some h =>
          us <- lift_option (timedelta_hours h) ;;
          farm_set farm "regrow_time" (PTimedelta us)
      | None => ret tt
      end ;;;
      save ;;;
      schedule_task_for_farm farm ;;;
      name <- farm_name farm ;;
      call_embed (FCommandEmbed name) (command_after_embed name)
  end.

(** ** Events: [on_ready] and [on_message] (lines 654-708) *)

(** The body of the loop "schedule existing farms" (lines 679-694) *)
Definition on_ready_farm (now : datetime) (farm : nat) : M unit :=
  nr <- farm_get farm "next_ready" ;;
  match nr with
  | PStr s =>
      farm_set farm "next_ready"
        (match fromisoformat s with Some d => PDatetime d | None => PNone end)
  | _ => ret tt
  end ;;;
  nr' <- farm_get farm "next_ready" ;;
  match nr' with
  | PDatetime d =>
      let d' := match dt_tz d with None => replace_utc d | Some _ => d end in
      match dt_tz d with
      | None => farm_set farm "next_ready" (PDatetime d')
      | Some _ => ret tt
      end ;;;
      if dt_instant d' <=? dt_instant now then
        farm_set farm "status" (PStr STATUS_READY) ;;;
        farm_set farm "next_ready" PNone ;;;
        save
      else schedule_task_for_farm farm
  | _ => ret tt
  end.

Fixpoint on_ready_schedule (now : datetime) (l : list nat) : M unit :=
  match l with
  | [] => ret tt
  | farm :: r => on_ready_farm now farm ;;; on_ready_schedule now r
  end.

(** Lines 678-698 *)
Definition on_ready_tail (now : datetime) : M ctl :=
  fs <- gets farms ;;
  on_ready_schedule now fs ;;;
  call_embed FOnReadyEmbed (ret Returned).

(** Lines 673-675: replay of the messages the platform returned *)
Fixpoint on_ready_catchup (now : datetime) (msgs : list message) : M ctl :=
  match msgs with
  | [] => on_ready_tail now
  | m :: rest =>
      if String.eqb (lower (m_author m)) "intentgames" then
        r <- process_kira_message m ;;
        match r with
        | Returned => on_ready_catchup now rest
        | Suspended fs => ret (Suspended (fs ++ [FOnReadyCatchup now rest]))
        end
      else on_ready_catchup now rest
  end.

(** Lines 669-673, after the command sync *)
Definition on_ready_after_sync : M ctl :=
  now <- now_utc ;;
  up <- gets kira_channel_up ;;
  if up then ret (Suspended [FOnReadyHistory now]) else on_ready_tail now.

Definition on_ready : M ctl := ret (Suspended [FOnReadySync]).

Definition on_message (m : message) : M ctl :=
  if String.eqb (lower (m_author m)) "intentgames"
  then process_kira_message m
  else ret Returned.

(** ** Resuming a suspended coroutine *)

(** Lines 313-314 and 318-319 *)
Definition embed_store_id (id : Z) : M unit :=
  modify (set_status_message_id (PInt id)) ;;; save.

(** Can the coroutine waiting at [f] go on with the answer [r] at time
    [c]?  A sleep ends when its wake time is reached; a new task starts at
    any turn of the loop. *)
Definition accepts (c : Z) (f : frame) (r : response) : bool :=
  match f, r with
  | FEmbedFetch, (RespOk | RespNotFound) => true
  | FEmbedEdit, (RespOk | RespNotFound) => true
  | FEmbedSendNew, (RespMessage _ | RespNotFound) => true
  | FEmbedSendRecreate, RespMessage _ => true
  | FEmbedWarn, RespOk => true
  | (FStartSend _ | FFinishSend _ | FFailsafeSend | FNotifySend), RespOk => true
  | (FFailsafeNew _ _ | FNotifyNew _), RespOk => true
  | FFailsafeSleep _ _ wake, RespOk => wake <=? c
  | FNotifySleep _ wake, RespOk => wake <=? c
  | FOnReadySync, RespOk => true
  | FOnReadyHistory _, RespHistory _ => true
  | FCommandRespond, RespOk => true
  | _, _ => false
  end.

(** The code that follows the [await] at frame [f]. *)
Definition after (f : frame) (r : response) : M ctl :=
  match f with
  | FEmbedFetch =>
      match r with
      | RespNotFound => embed_recreate
      | _ => emit EvBoardEdit ;;; ret (Suspended [FEmbedEdit])
      end
  | FEmbedEdit =>
      match r with RespNotFound => embed_recreate | _ => ret Returned end
  | FEmbedSendNew =>
      match r with
      | RespMessage id => embed_store_id id ;;; ret Returned
      | RespNotFound => embed_recreate
      | _ => raise
      end
  | FEmbedSendRecreate =>
      match r with
      | RespMessage id =>
          embed_store_id id ;;; emit EvBoardWarning ;;; ret (Suspended [FEmbedWarn])
      | _ => raise
      end
  | FEmbedWarn => ret Returned
  | FStartEmbed l => start_after_embed l
  | FStartSend l => start_after_send l
  | FFinishEmbed l nr => finish_after_embed l nr
  | FFinishSend l => start_after_send l
  | FFailsafeNew farm bc => failsafe_start farm bc
  | FFailsafeSleep farm bc _ => failsafe_after_sleep farm bc
  | FFailsafeEmbed farm bc nr => failsafe_after_embed farm bc nr
  | FFailsafeSend => ret Returned
  | FNotifyNew farm => schedule_notification_for_farm farm
  | FNotifySleep farm _ => notify_farm_ready_plain farm
  | FNotifyEmbed farm => notify_after_embed farm
  | FNotifySend => ret Returned
  | FOnReadySync => on_ready_after_sync
  | FOnReadyHistory now =>
      match r with RespHistory msgs => on_ready_catchup now msgs | _ => raise end
  | FOnReadyCatchup now rest => on_ready_catchup now rest
  | FOnReadyEmbed => emit (EvPrint "Bot is online!") ;;; ret Returned
  | FCommandEmbed name => command_after_embed name
  | FCommandRespond => ret Returned
  end.

(** Run the top frame; a coroutine that returns hands control to its
    caller, the frame below. *)
Fixpoint unwind (stack : list frame) (r : response) : M (list frame) :=
  match stack with
  | [] => ret []
  | f :: rest =>
      c <- after f r ;;
      match c with
      | Suspended fs => ret (fs ++ rest)
      | Returned => unwind rest RespOk
      end
  end.

(** ** The event loop *)

(** Run coroutine [cid] with [body] until it suspends, returns or raises,
    and record where it stands.  A coroutine that cancelled itself while
    running stays [Cancelling] at its suspension. *)
Definition run_coro (cid : nat) (body : M (list frame)) (w : world) : world :=
  let '(r, w1) := body (set_current (Some cid) w) in
  let st := match nth_error (coros w1) cid with
            | Some c => co_state c
            | None => Live
            end in
  let c' := match r with
            | Some (f :: fs) => mk_coro (f :: fs) st
            | Some [] | None => mk_coro [] Finished
            end in
  set_current None (set_coros (list_set cid c' (coros w1)) w1).

Definition frames_of (c : ctl) : list frame :=
  match c with Returned => [] | Suspended fs => fs end.

(** A handler the library starts for an event or a command. *)
Definition spawn (handler : M ctl) (w : world) : world :=
  let cid := List.length (coros w) in
  run_coro cid (c <- handler ;; ret (frames_of c))
    (set_coros (coros w ++ [mk_coro [] Live]) w).

(** What can happen next. *)
Inductive label :=
| LTick (dt : Z)                          (* time passes *)
| LChannels (bot status kira : bool)      (* channels appear or vanish *)
| LMessage (m : message)                  (* [on_message] *)
| LOnReady                                (* [on_ready] *)
| LAdd (name coords total_output : string) (runtime_minutes : Z)
       (regrow_hours : Q)                 (* [/addfarm] *)
| LEdit (name : string) (coords total_output : option string)
        (runtime_minutes : option Z) (regrow_hours : option Q)  (* [/editfarm] *)
| LRemove (name : string)                 (* [/removefarm] *)
| LResume (cid : nat) (r : response)      (* an awaited call completes, a
                                             sleep ends, a new task starts *)
| LReap (cid : nat).                      (* [CancelledError] is delivered *)

Definition step (l : label) (w : world) : world :=
  match l with
  | LTick dt => set_clock (clock w + Z.max 0 dt) w
  | LChannels b s k => set_channels b s k w
  | LMessage m => spawn (on_message m) w
  | LOnReady => spawn on_ready w
  | LAdd n c t rm rh => spawn (addfarm n c t rm rh) w
  | LEdit n c t rm rh => spawn (editfarm n c t rm rh) w
  | LRemove n => spawn (removefarm n) w
  | LResume cid r =>
      match nth_error (coros w) cid with
      | Some (mk_coro (f :: rest) Live) =>
          if accepts (clock w) f r then run_coro cid (unwind (f :: rest) r) w
          else w
      | _ => w
      end
  | LReap cid =>
      match nth_error (coros w) cid with
      | Some (mk_coro _ Cancelling) =>
          set_coros (list_set cid (mk_coro [] Finished) (coros w)) w
      | _ => w
      end
  end.

(** A run of the bot: the labels in the order they happen. *)
Fixpoint run (ls : list label) (w : world) : world :=
  match ls with
  | [] => w
  | l :: r => run r (step l w)
  end.

(** ** Armed timers *)

(** A timer task is armed while it can still fire: it is not done, no
    cancellation is pending, and it has not started its callback (it is
    new or asleep). *)
Definition timer_farm (f : frame) : option nat :=
  match f with
  | FFailsafeNew farm _ | FFailsafeSleep farm _ _ => Some farm
  | FNotifyNew farm | FNotifySleep farm _ => Some farm
  | _ => None
  end.

Definition armed_farm (c : coro) : option nat :=
  match co_state c, co_stack c with
  | Live, [f] => timer_farm f
  | _, _ => None
  end.

(** The name a farm object carries ([farm["name"]] is never reassigned). *)
Definition obj_name (w : world) (i : nat) : option string :=
  match nth_error (objs w) i with
  | Some f => match dict_get "name" f with Some (PStr s) => Some s | _ => None end
  | None => None
  end.

(** Is coroutine [c] an armed timer of a farm called [n]? *)
Definition armed_named (w : world) (n : string) (c : coro) : bool :=
  match armed_farm c with
  | Some i => match obj_name w i with
              | Some s => String.eqb s n
              | None => false
              end
  | None => false
  end.

(** The armed timers of name [n], by task identity. *)
Fixpoint armed_from (w : world) (n : string) (cid : nat) (cs : list coro)
  : list nat :=
  match cs with
  | [] => []
  | c :: r =>
      if armed_named w n c then cid :: armed_from w n (S cid) r
      else armed_from w n (S cid) r
  end.

Definition armed_for (w : world) (n : string) : list nat :=
  armed_from w n O (coros w).

(** The process right after the module body has run: the registry is
    loaded, nothing is scheduled and no coroutine exists yet. *)
Definition boot (c : Z) (os : list dict) (fs : list nat) (lm sm : pyval)
    (d : file) (b s k : bool) : world :=
  mk_world c os fs lm sm d [] [] b s k None [].

(** ** [KIRA_REGEX] (lines 47-49)

    The pattern is matched as [re.fullmatch] matches it: the backtracking
    matcher tries a greedy star with the longest run first and a lazy
    star with the shortest run first, and the first way to reach the end
    of the text gives the groups.  [\d], [\s] and [.] are read on the
    ASCII range; [.] is any character but the line feed. *)

(** A literal at the head of the text: what follows it. *)
Fixpoint lit (p s : string) : option string :=
  match p with
  | EmptyString => Some s
  | String c p' =>
      match s with
      | String d s' => if Ascii.eqb c d then lit p' s' else None
      | EmptyString => None
      end
  end.

Definition is_digit (c : ascii) : bool :=
  let n := nat_of_ascii c in ((48 <=? n) && (n <=? 57))%nat.

Definition not_newline (c : ascii) : bool := negb (Ascii.eqb c "010"%char).

(** [\d{2}] *)
Definition two_digits (s : string) : option (string * string) :=
  match s with
  | String a (String b r) =>
      if is_digit a && is_digit b then Some (String a (String b EmptyString), r)
      else None
  | _ => None
  end.

(** [\d{2}:\d{2}:\d{2}] *)
Definition clock_time (s : string) : option (string * string) :=
  obind (two_digits s) (fun '(h, s1) =>
  obind (lit ":" s1) (fun s2 =>
  obind (two_digits s2) (fun '(m, s3) =>
  obind (lit ":" s3) (fun s4 =>
  obind (two_digits s4) (fun '(sec, s5) =>
  Some (String.append h (String.append ":" (String.append m
          (String.append ":" sec))), s5)))))).

(** [p*] followed by [k]: the longest run of [p] first, then shorter
    ones; [k] gets the run and the rest of the text. *)
Fixpoint star_greedy {R} (p : ascii -> bool) (k : string -> string -> option R)
    (s : string) : option R :=
  match s with
  | String c r =>
      if p c then
        match star_greedy p (fun taken rest => k (String c taken) rest) r with
        | Some x => Some x
        | None => k EmptyString s
        end
      else k EmptyString s
  | EmptyString => k EmptyString s
  end.

(** [p*?] followed by [k]: the empty run first, then longer ones. *)
Fixpoint star_lazy {R} (p : ascii -> bool) (k : string -> string -> option R)
    (s : string) : option R :=
  match k EmptyString s with
  | Some x => Some x
  | None =>
      match s with
      | String c r =>
          if p c then star_lazy p (fun taken rest => k (String c taken) rest) r
          else None
      | EmptyString => None
      end
  end.

(** [KIRA_REGEX.fullmatch(text)]: the groups [time], [user] and [msg]. *)
Definition kira_match (text : string) : option (string * string * string) :=
  obind (lit "`[" text) (fun s1 =>
  obind (clock_time s1) (fun '(time, s2) =>
  obind (lit "]`" s2) (fun s3 =>
  star_greedy is_space (fun _ s4 =>
    obind (lit "`[" s4) (fun s5 =>
    star_lazy not_newline (fun _ s6 =>
      obind (lit "]`" s6) (fun s7 =>
      star_greedy is_space (fun _ s8 =>
        obind (lit "**[" s8) (fun s9 =>
        star_lazy not_newline (fun user s10 =>
          obind (lit "]**" s10) (fun s11 =>
          star_greedy is_space (fun _ s12 =>
            star_greedy not_newline (fun msg s13 =>
              match s13 with
              | EmptyString => Some (time, user, msg)
              | _ => None
              end) s12) s11)) s9)) s7)) s5)) s3))).

(** A message of the Kira channel with the given text. *)
Definition received (author text : string) (created_at : datetime) (id : Z)
  : message :=
  mk_message author (kira_match text) created_at id.

(** ** What the bot shows of a farm (lines 270-303 and 459-490) *)

(** [d.get(k, default)] *)
Definition dict_get_default (k : string) (dflt : pyval) (d : dict) : pyval :=
  match dict_get k d with Some v => v | None => dflt end.

(** The runtime line: whole minutes, or the text "?". *)
Inductive minutes :=
| Minutes (n : Z)
| NoMinutes.

(** The status line. *)
Inductive status_display :=
| WillBeReady (epoch_seconds : Z)     (* "Will be ready <t:...:R>" *)
| ShownReady
| ShownFarming
| ShownUnknown.

(** One field of an embed; name, coords and output are printed with
    [str]. *)
Record card := mk_card {
  card_name : pyval;
  card_coords : pyval;
  card_output : pyval;
  card_runtime : minutes;
  card_status : status_display
}.

(** Lines 273-276 and 462-465; [None] is the [OverflowError] of
    [timedelta(seconds=runtime)].  [int(x / 60)] truncates toward zero. *)
Definition runtime_minutes (f : dict) : option minutes :=
  let runtime := dict_get_default "runtime" (PTimedelta 0) f in
  let converted :=
    if is_number runtime then option_map PTimedelta (timedelta_seconds runtime)
    else Some runtime in
  obind converted (fun rt =>
  Some (match rt with
        | PTimedelta us => Minutes (Z.quot us (60 * US_PER_SECOND))
        | _ => NoMinutes
        end)).

(** [int(nr.timestamp())] after a naive [nr] is read as UTC *)
Definition epoch_seconds_of (d : datetime) : Z :=
  let nr := match dt_tz d with None => replace_utc d | Some _ => d end in
  Z.quot (dt_instant nr) US_PER_SECOND.

(** Lines 286-291 and 473-478 *)
Definition status_text (status : pyval) : status_display :=
  match status with
  | PStr s =>
      if String.eqb s STATUS_READY then ShownReady
      else if String.eqb s STATUS_FARMING then ShownFarming
      else ShownUnknown
  | _ => ShownUnknown
  end.

(** The field [update_farms_embed] adds for a farm (lines 271-303). *)
Definition embed_field (f : dict) : option card :=
  let coords := dict_get_default "coords" (PStr "unknown") f in
  let output := dict_get_default "total_output" (PStr "unknown") f in
  obind (runtime_minutes f) (fun rt =>
  let status := dict_get_default "status" (PStr STATUS_UNKNOWN) f in
  let status_display :=
    match dict_get_none "next_ready" f with
    | PDatetime d => WillBeReady (epoch_seconds_of d)
    | _ => status_text status
    end in
  obind (dict_get "name" f) (fun name =>
  Some (mk_card name coords output rt status_display))).

(** The fields of the status board, in the order of the registry. *)
Fixpoint board_fields (l : list nat) : M (list card) :=
  match l with
  | [] => ret []
  | i :: r =>
      f <- get_farm i ;;
      c <- lift_option (embed_field f) ;;
      rest <- board_fields r ;;
      ret (c :: rest)
  end.

(** ** [/farms] (lines 451-491) *)

(** What the command hands to [interaction.response.send_message]. *)
Inductive reply :=
| NotFound (arg : string)
| Shown (c : card).

(** The field of the reply (lines 459-490). *)
Definition farm_card (f : dict) : option card :=
  obind (dict_get "name" f) (fun title =>
  let coords := dict_get_default "coords" (PStr "unknown") f in
  let output := dict_get_default "total_output" (PStr "unknown") f in
  obind (runtime_minutes f) (fun rt =>
  let status_display :=
    match dict_get_none "next_ready" f with
    | PDatetime d => WillBeReady (epoch_seconds_of d)
    | _ => status_text (dict_get_default "status" (PStr STATUS_UNKNOWN) f)
    end in
  Some (mk_card title coords output rt status_display))).

Definition farms_command (farm_name_arg : string) : M reply :=
  found <- get_farm_exact farm_name_arg ;;
  match found with
  | None => ret (NotFound farm_name_arg)
  | Some farm =>
      f <- get_farm farm ;;
      c <- lift_option (farm_card f) ;;
      ret (Shown c)
  end.

(** ** Autocomplete (lines 494-499, 541-549 and 645-648) *)

(** [[f["name"] for f in farms if needle in f["name"].lower()]] *)
Fixpoint names_containing (needle : string) (l : list nat) : M (list string) :=
  match l with
  | [] => ret []
  | i :: r =>
      n <- farm_name i ;;
      rest <- names_containing needle r ;;
      ret (if contains needle (lower n) then n :: rest else rest)
  end.

(** The three autocomplete callbacks have the same body: the names that
    contain the typed text, at most 25 of them. *)
Definition farms_autocomplete (current_text : string) : M (list string) :=
  fs <- gets farms ;;
  l <- names_containing (lower current_text) fs ;;
  ret (firstn 25 l).

Definition removefarm_autocomplete : string -> M (list string) :=
  farms_autocomplete.

Definition editfarm_autocomplete : string -> M (list string) :=
  farms_autocomplete.

(** ** Start-up: the module body (lines 131-158) *)

(** The defaults of a first run; [timedelta(hours=0.01)] is 36 seconds. *)
Definition default_farms : list dict :=
  [[("name", PStr "Farm_1"); ("coords", PStr "(123, 64, -456)");
    ("total_output", PStr "50 ci wheat");
    ("runtime", PTimedelta (30 * 60 * US_PER_SECOND));
    ("regrow_time", PTimedelta (36 * US_PER_SECOND));
    ("next_ready", PNone); ("status", PStr STATUS_UNKNOWN)];
   [("name", PStr "Surmadri Wheat Farm"); ("coords", PStr "(123, 64, -456)");
    ("total_output", PStr "5 cs wheat");
    ("runtime", PTimedelta (15 * 60 * US_PER_SECOND));
    ("regrow_time", PTimedelta (2 * 3600 * US_PER_SECOND));
    ("next_ready", PNone); ("status", PStr STATUS_UNKNOWN)]].

Definition as_dict (v : pyval) : option dict :=
  match v with PDict d => Some d | _ => None end.

(** The world the bot starts in when farms.json holds [fl] and the
    clock reads [c]; [None] when the module body raises.  An empty
    registry is replaced by the defaults, which are saved at once. *)
Definition startup (c : Z) (fl : file) (b s k : bool) : option world :=
  obind (load_farms fromisoformat fl) (fun data =>
  obind (as_dict data) (fun d =>
  let lm := dict_get_none "last_message_id" d in
  let sm := dict_get_none "status_message_id" d in
  let loaded := dict_get_default "farms" (PList []) d in
  if truthy loaded then
    match loaded with
    | PList l =>
        obind (omap as_dict l) (fun os =>
        Some (boot c os (seq 0 (List.length os)) lm sm fl b s k))
    | _ => None
    end
  else
    match save (boot c default_farms [0%nat; 1%nat] lm sm fl b s k) with
    | (Some _, w) => Some w
    | (None, _) => None
    end)).

(** * Vocabulary of the properties

    Predicates on worlds and computations, and the closed forms of a few
    program fragments, used to state and prove the properties below. *)

(** A timestamp string in the layout [isoformat] prints. *)
Definition canonical_timestamp (s : string) : Prop :=
  exists d, fromisoformat s = Some d /\ isoformat d = s.

(** A duration stored as a whole number of seconds that a timedelta can
    hold. *)
Definition seconds_field (k : string) (f : dict) : Prop :=
  exists n, dict_get k f = Some (PInt n) /\ td_in_range (n * US_PER_SECOND) = true.

(** [next_ready] is an explicit null or a timestamp in the fixed layout. *)
Definition ready_field (f : dict) : Prop :=
  dict_get "next_ready" f = Some PNone \/
  exists s, dict_get "next_ready" f = Some (PStr s) /\ s <> "" /\
            canonical_timestamp s.

(** One entity object free of legacy forms, as the file layout lists
    them, the [status] field apart. *)
Definition legacy_free_farm (v : pyval) : Prop :=
  exists f, v = PDict f /\ seconds_field "runtime" f /\
            seconds_field "regrow_time" f /\ ready_field f.

(** The same with the [status] field present. *)
Definition snapshot_farm (v : pyval) : Prop :=
  legacy_free_farm v /\ exists f, v = PDict f /\ dict_mem "status" f = true.

(** The envelope [save_farms] writes. *)
Definition envelope (a b : pyval) (fs : list pyval) : pyval :=
  PDict [("last_message_id", a); ("status_message_id", b); ("farms", PList fs)].

(** [save_farms(load_farms())] on a file holding [doc]. *)
Definition save_load (doc : pyval) : option pyval :=
  obind (load_farms fromisoformat (Content doc)) (save_farms isoformat).

(** A snapshot free of legacy forms, as the claim lists them: the
    envelope is present, durations are whole seconds, timestamps are in
    the fixed layout and a missing [next_ready] is an explicit null. *)
Definition legacy_free (doc : pyval) : Prop :=
  exists a b fs, doc = envelope a b fs /\
                 json_serializable doc = true /\ Forall legacy_free_farm fs.

(** No stored name is the stripped, lowercased argument. *)
Definition no_exact_match (w : world) (arg : string) : Prop :=
  forall i, In i (farms w) ->
    exists n, obj_name w i = Some n /\ lower (strip n) <> lower (strip arg).

(** [respects R m]: whatever [m] does, returning or raising, the world
    it leaves is related by [R] to the one it found. *)
Definition respects {A} (R : world -> world -> Prop) (m : M A) : Prop :=
  forall w, R w (snd (m w)).

(** No farm object is touched. *)
Definition same_objs (w w' : world) : Prop := objs w' = objs w.

(** Tasks, [_scheduled_tasks] and the names of the farm objects are
    left alone. *)
Definition quiet (w w' : world) : Prop :=
  coros w' = coros w /\ scheduled w' = scheduled w /\ current w' = current w /\
  forall i n, obj_name w i = Some n -> obj_name w' i = Some n.

(** The length of a farm's cycle phase [k] as [process_kira_message]
    reads it (lines 355-364): a timedelta as it is, a number as seconds,
    anything else as zero; [None] when the number is out of range. *)
Definition duration_of (k : string) (f : dict) : option Z :=
  match dict_get_none k f with
  | PTimedelta us => Some us
  | v => if is_number v then timedelta_seconds v else Some 0
  end.

(** Lookups change nothing and read nothing but the farm objects and
    the registry. *)
Definition reader {A} (m : M A) : Prop :=
  (forall w, snd (m w) = w) /\
  (forall w w', objs w' = objs w -> farms w' = farms w ->
                fst (m w') = fst (m w)).

(** Lines 375-379: the world after the old task, if any, is cancelled
    and dropped from [_scheduled_tasks]. *)
Definition cancel_and_pop (name : string) (w : world) : world :=
  match sched_get name (scheduled w) with
  | Some t =>
      match nth_error (coros w) t with
      | Some c =>
          match co_state c with
          | Finished => w
          | _ => set_scheduled (sched_pop name (scheduled w))
                   (set_coros (list_set t (mk_coro (co_stack c) Cancelling)
                                 (coros w)) w)
          end
      | None => w
      end
  | None => w
  end.

(** Every task [_scheduled_tasks] mentions exists. *)
Definition sched_valid (w : world) : Prop :=
  Forall (fun kv => (snd kv < List.length (coros w))%nat) (scheduled w).

(** Lines 221-223: the world after the old task, if any, is cancelled. *)
Definition cancel_old (name : string) (w : world) : world :=
  match sched_get name (scheduled w) with
  | Some t =>
      match nth_error (coros w) t with
      | Some c =>
          match co_state c with
          | Finished => w
          | _ => set_coros (list_set t (mk_coro (co_stack c) Cancelling) (coros w)) w
          end
      | None => w
      end
  | None => w
  end.

(** The world [schedule_task_for_farm] leaves: the old task cancelled
    and, when [next_ready] is truthy, a new notification task recorded
    under the farm's name. *)
Definition rearmed (farm : nat) (name : string) (w : world) : world :=
  let w1 := cancel_old name w in
  match nth_error (objs w) farm with
  | Some f =>
      if truthy (dict_get_none "next_ready" f) then
        set_scheduled (sched_set name (List.length (coros w)) (scheduled w1))
          (set_coros (coros w1 ++ [mk_coro [FNotifyNew farm] Live]) w1)
      else w1
  | None => w1
  end.

(** [next_ready] as [on_ready] leaves it when it does not fire: a naive
    datetime is read as UTC. *)
Definition as_utc (d : datetime) : datetime :=
  match dt_tz d with None => replace_utc d | Some _ => d end.

(** The record with [next_ready] read as UTC. *)
Definition with_utc (d : datetime) (f : dict) : dict :=
  match dt_tz d with
  | None => dict_set "next_ready" (PDatetime (as_utc d)) f
  | Some _ => f
  end.

(** Frames of a timer task that has not started its callback. *)
Definition is_timer (f : frame) : bool :=
  match timer_farm f with Some _ => true | None => false end.

(** No frame of the stack is a timer frame. *)
Definition timer_free (st : list frame) : bool :=
  forallb (fun f => negb (is_timer f)) st.

(** A timer frame is the only frame of its task. *)
Definition stack_ok (st : list frame) : bool :=
  match st with
  | [_] => true
  | _ => timer_free st
  end.

(** Every armed timer, the running coroutine apart, is the task
    [_scheduled_tasks] holds under the name of its farm. *)
Record Inv (w : world) : Prop := mk_Inv {
  inv_sched : forall cid c i,
      nth_error (coros w) cid = Some c -> current w <> Some cid ->
      armed_farm c = Some i ->
      exists n, obj_name w i = Some n /\ sched_get n (scheduled w) = Some cid;
  inv_stack : forall cid c,
      nth_error (coros w) cid = Some c -> stack_ok (co_stack c) = true;
  inv_valid : sched_valid w
}.

(** No armed timer, the running coroutine apart, belongs to a farm
    called [n]. *)
Definition no_armed_named (n : string) (w : world) : Prop :=
  forall cid c i,
    nth_error (coros w) cid = Some c -> current w <> Some cid ->
    armed_farm c = Some i -> obj_name w i <> Some n.

(** The step from [w] to [w'] keeps the invariant and the identity of
    the running coroutine. *)
Definition keeps_inv (w w' : world) : Prop :=
  Inv w -> Inv w' /\ current w' = current w.

(** [cancel_and_pop] is [cancel_old] followed, when the old task was
    not done, by the removal of the entry. *)
Definition old_pending (n : string) (w : world) : bool :=
  match sched_get n (scheduled w) with
  | Some t =>
      match nth_error (coros w) t with
      | Some c => match co_state c with Finished => false | _ => true end
      | None => false
      end
  | None => false
  end.

(** Whenever [m] returns a value, the value satisfies [P]. *)
Definition yields {A} (P : A -> Prop) (m : M A) : Prop :=
  forall w a, fst (m w) = Some a -> P a.

(** A handler suspends on frames that are not timer frames. *)
Definition ctl_ok (c : ctl) : Prop :=
  match c with
  | Returned => True
  | Suspended fs => timer_free fs = true
  end.

(** What the body of a resumed or spawned coroutine may leave: frames
    that are not timer frames, or - when a new timer task starts to
    sleep - the sleep frame of the same farm, the world unchanged. *)
Definition result_ok (w : world) (cid : nat) (r : list frame) (w1 : world)
  : Prop :=
  timer_free r = true \/
  exists c f farm,
    nth_error (coros w) cid = Some c /\ co_state c = Live /\
    armed_farm c = Some farm /\ r = [f] /\ timer_farm f = Some farm /\
    w1 = set_current (Some cid) w.

(** The record a failsafe expiry at clock reading [c] writes. *)
Definition failsafe_record (c regrow : Z) (f : dict) : dict :=
  dict_set "status" (PStr STATUS_FARMING)
    (dict_set "next_ready" (PDatetime (dt_add (utc_now c) regrow)) f).

(** The log only grows. *)
Definition log_grows (w w' : world) : Prop := exists evs, log w' = log w ++ evs.

(** Every registered farm is an object. *)
Definition registry_ok (w : world) : Prop :=
  Forall (fun i => (i < List.length (objs w))%nat) (farms w).

(** What [save_farms(data)] writes in world [w]. *)
Definition dump (w : world) : file :=
  match in_memory_data w with
  | Some data =>
      match save_farms isoformat data with
      | Some doc => Content doc
      | None => Unreadable
      end
  | None => disk w
  end.

(** The transition's code in world [w] first saves a state in which
    the farm's record satisfies [P], and does not touch the records
    after that. *)
Definition persisted_first (m : M ctl) (w : world) (farm : nat)
    (P : dict -> Prop) : Prop :=
  exists w_s evs,
    log (snd (m w)) = log w ++ EvSave (dump w_s) :: evs
    /\ objs (snd (m w)) = objs w_s
    /\ exists f, nth_error (objs w_s) farm = Some f /\ P f.

(** Normalising the durations changes neither the log, nor the
    registry, nor the number of objects. *)
Definition shape (w w' : world) : Prop :=
  log w' = log w /\ farms w' = farms w /\
  List.length (objs w') = List.length (objs w).

(** ** The layout of a Kira line *)

(** Every character of [s] is in the class [p]. *)
Fixpoint all_chars (p : ascii -> bool) (s : string) : bool :=
  match s with
  | EmptyString => true
  | String c r => p c && all_chars p r
  end.

(** Two digits, a colon, two digits, a colon, two digits. *)
Definition time_shape (t : string) : bool :=
  match t with
  | String a (String b (String c1 (String c (String d (String c2
      (String e (String f EmptyString))))))) =>
      is_digit a && is_digit b && Ascii.eqb c1 ":" && is_digit c && is_digit d
      && Ascii.eqb c2 ":" && is_digit e && is_digit f
  | _ => false
  end.

(** A character that may stand inside a bracketed tag or user name. *)
Definition inside_brackets (c : ascii) : bool :=
  not_newline c && negb (Ascii.eqb c "]").

(** The text does not begin with whitespace. *)
Definition trimmed_left (s : string) : bool :=
  match s with
  | EmptyString => true
  | String c _ => negb (is_space c)
  end.

(** A line as Kira relays it: the time, a tag, the user and the message,
    with whitespace [ws1], [ws2], [ws3] between the parts. *)
Definition kira_line (time tag user msg ws1 ws2 ws3 : string) : string :=
  ("`[" ++ time ++ "]`" ++ ws1 ++ "`[" ++ tag ++ "]`" ++ ws2
   ++ "**[" ++ user ++ "]**" ++ ws3 ++ msg)%string.

(** ** Names and look-ups *)

(** A stored name as the look-ups compare it. *)
Definition normal (n : string) : string := lower (strip n).

(** The cleaned query of [find_farms_by_name_partial]. *)
Definition clean (q : string) : string := collapse_ws (lower (strip q)).

(** Every registered farm carries a name, and the name is a string. *)
Definition names_readable (w : world) : Prop :=
  forall i, In i (farms w) -> exists n, obj_name w i = Some n.

(** Does the normalised name of farm [i] satisfy [p]? *)
Definition name_is (w : world) (p : string -> bool) (i : nat) : bool :=
  match obj_name w i with
  | Some n => p (normal n)
  | None => false
  end.

(** The first registered farm whose name is the cleaned query or,
    when there is none, the first whose name contains it. *)
Definition first_match (w : world) (q : string) : option nat :=
  match find (name_is w (String.eqb (clean q))) (farms w) with
  | Some i => Some i
  | None => find (name_is w (contains (clean q))) (farms w)
  end.

(** ** What is in memory and what is on disk *)

(** The registry, the records, the two stored ids and the file are
    left alone. *)
Definition settled (w w' : world) : Prop :=
  objs w' = objs w /\ farms w' = farms w
  /\ last_message_id w' = last_message_id w
  /\ status_message_id w' = status_message_id w
  /\ disk w' = disk w.

(** farms.json holds what [save_farms(data)] would write now. *)
Definition synced (w : world) : Prop := disk w = dump w.

(** The registry after [/removefarm arg]: the farms whose normalised
    name is not the normalised argument, in their order. *)
Definition without (w : world) (arg : string) : list nat :=
  filter (name_is w (fun m => negb (String.eqb m (normal arg)))) (farms w).

(** ** The registry *)

(** The record [/addfarm] creates (lines 577-585). *)
Definition new_record (name coords total_output : string) (runtime regrow : Z)
  : dict :=
  [("name", PStr (strip name)); ("coords", PStr (strip coords));
   ("total_output", PStr (strip total_output));
   ("runtime", PTimedelta runtime); ("regrow_time", PTimedelta regrow);
   ("next_ready", PNone); ("status", PStr STATUS_UNKNOWN)].

(** The world once [/addfarm] has appended the record. *)
Definition with_farm (f : dict) (w : world) : world :=
  set_farms (farms w ++ [List.length (objs w)]) (set_objs (objs w ++ [f]) w).

(** No farm is registered twice and no two registered farms have the
    same normalised name. *)
Definition distinct_names (w : world) : Prop :=
  NoDup (farms w)
  /\ forall i j n, In i (farms w) -> In j (farms w) ->
       obj_name w i = Some n -> name_is w (String.eqb (normal n)) j = true ->
       i = j.

(** The registry, the number of objects and the name of every object
    are left alone. *)
Definition same_names (w w' : world) : Prop :=
  farms w' = farms w /\ List.length (objs w') = List.length (objs w)
  /\ forall i, obj_name w' i = obj_name w i.

(** Every object keeps its name. *)
Definition names_kept (w w' : world) : Prop :=
  forall i n, obj_name w i = Some n -> obj_name w' i = Some n.

(** A registry in good order: every registered farm is an object with
    a name, and no two registered farms share a normalised name. *)
Definition registry_wf (w : world) : Prop :=
  registry_ok w /\ names_readable w /\ distinct_names w.

(** The step from [w] to [w'] keeps the property [P]. *)
Definition keeps (P : world -> Prop) (w w' : world) : Prop := P w -> P w'.

(** ** [/editfarm] *)

(** The fields [/editfarm] can assign. *)
Definition editable : list string :=
  ["coords"; "total_output"; "runtime"; "regrow_time"].

(** The registry is left alone, no object is dropped, and every object
    keeps every field that is not in [ks]. *)
Definition fields_kept (ks : list string) (w w' : world) : Prop :=
  farms w' = farms w
  /\ forall i f, nth_error (objs w) i = Some f ->
       exists f', nth_error (objs w') i = Some f'
                  /\ forall k, ~ In k ks -> dict_get k f' = dict_get k f.

(** The record after [/editfarm] has assigned the fields it was given
    (lines 622-633); the durations are those of the timedeltas. *)
Definition edited (coords total_output : option string) (rt rg : option Z)
    (f : dict) : dict :=
  let f1 := match coords with
            | Some c => dict_set "coords" (PStr (strip c)) f
            | None => f
            end in
  let f2 := match total_output with
            | Some t => dict_set "total_output" (PStr (strip t)) f1
            | None => f1
            end in
  let f3 := match rt with
            | Some us => dict_set "runtime" (PTimedelta us) f2
            | None => f2
            end in
  match rg with
  | Some us => dict_set "regrow_time" (PTimedelta us) f3
  | None => f3
  end.

(** The durations [/editfarm] was given fit a timedelta. *)
Definition minutes_fit (rm : option Z) (rt : option Z) : Prop :=
  match rm with
  | Some m => timedelta_minutes m = rt /\ rt <> None
  | None => rt = None
  end.

Definition hours_fit (rh : option Q) (rg : option Z) : Prop :=
  match rh with
  | Some h => timedelta_hours h = rg /\ rg <> None
  | None => rg = None
  end.

(** ** Records in memory and in the file *)

(** A duration held as a timedelta of whole seconds. *)
Definition whole_seconds (k : string) (f : dict) : Prop :=
  exists n, dict_get k f = Some (PTimedelta (n * US_PER_SECOND))
            /\ td_in_range (n * US_PER_SECOND) = true.

(** A datetime that [isoformat] prints and [fromisoformat] reads back. *)
Definition printable (d : datetime) : Prop :=
  isoformat d <> "" /\ fromisoformat (isoformat d) = Some d.

(** A record as the bot builds it: durations as timedeltas of whole
    seconds, [next_ready] [None] or a datetime, a status. *)
Definition memory_farm (v : pyval) : Prop :=
  exists f, v = PDict f
            /\ whole_seconds "runtime" f /\ whole_seconds "regrow_time" f
            /\ (dict_get "next_ready" f = Some PNone
                \/ exists d, dict_get "next_ready" f = Some (PDatetime d)
                             /\ printable d)
            /\ dict_mem "status" f = true.

(** A record as [load_farms] returns it: it has a status, no duration
    is left as a number, and [next_ready] is falsy or a datetime. *)
Definition loaded_farm (v : pyval) : Prop :=
  exists f, v = PDict f
            /\ dict_mem "status" f = true
            /\ (forall x, dict_get "runtime" f = Some x -> is_number x = false)
            /\ (forall x, dict_get "regrow_time" f = Some x -> is_number x = false)
            /\ (forall x, dict_get "next_ready" f = Some x ->
                  truthy x = false \/ exists d, x = PDatetime d).

(** ** The lifecycle of a record *)

(** A record whose [next_ready] is set is being farmed: [next_ready]
    is [None] (or absent), or it is a datetime and the status is
    "Currently being farmed". *)
Definition lifecycle_ok (f : dict) : Prop :=
  match dict_get_none "next_ready" f with
  | PNone => True
  | PDatetime _ => dict_get "status" f = Some (PStr STATUS_FARMING)
  | _ => False
  end.

Definition lifecycle_inv (w : world) : Prop := Forall lifecycle_ok (objs w).

(** * Sample inputs

    Concrete registries, feed lines and runs on which the properties are
    exercised. *)

(** ** A concrete reading of the two library conversions

    Used to run the model on examples: three timestamps in the layout
    [isoformat] prints for UTC datetimes. *)

Definition sample_times : list (string * datetime) :=
  [("2024-01-01T00:00:00+00:00", mk_datetime 1704067200000000 (Some 0));
   ("2024-01-01T02:25:00+00:00", mk_datetime 1704075900000000 (Some 0));
   ("2024-01-01T03:00:00+00:00", mk_datetime 1704078000000000 (Some 0))].

Fixpoint sample_parse (l : list (string * datetime)) (s : string)
  : option datetime :=
  match l with
  | [] => None
  | (k, d) :: r => if String.eqb s k then Some d else sample_parse r s
  end.

Fixpoint sample_print (l : list (string * datetime)) (d : datetime) : string :=
  match l with
  | [] => ""
  | (k, d') :: r =>
      if (dt_local d =? dt_local d') && (dt_instant d =? dt_instant d')
      then k else sample_print r d
  end.

Definition sample_fromisoformat : string -> option datetime :=
  sample_parse sample_times.
Definition sample_isoformat : datetime -> string :=
  sample_print sample_times.

(** ** Snapshots, registries and runs *)

(** A snapshot whose only entity has no [status] field. *)
Definition snapshot_without_status : pyval :=
  envelope PNone PNone
    [PDict [("name", PStr "Wheat"); ("coords", PStr "(1, 2, 3)");
            ("total_output", PStr "5 cs wheat");
            ("runtime", PInt 1800); ("regrow_time", PInt 7200);
            ("next_ready", PNone)]].

(** The round trip holds on a snapshot in the written layout. *)
Definition snapshot_two_farms : list pyval :=
  [PDict [("name", PStr "Wheat"); ("coords", PStr "(1, 2, 3)");
          ("total_output", PStr "5 cs wheat");
          ("runtime", PInt 1800); ("regrow_time", PInt 7200);
          ("next_ready", PStr "2024-01-01T02:25:00+00:00");
          ("status", PStr "Currently being farmed")];
   PDict [("name", PStr "Corn"); ("coords", PStr "(4, 5, 6)");
          ("total_output", PStr "1 cs corn");
          ("runtime", PInt 900); ("regrow_time", PInt 36);
          ("next_ready", PNone); ("status", PStr "Unknown")]].

(** A registry with one farm, cycle 30 minutes, regrowth 2 hours. *)
Definition wheat : dict :=
  [("name", PStr "Wheat"); ("coords", PStr "(1, 2, 3)");
   ("total_output", PStr "5 cs wheat");
   ("runtime", PTimedelta (1800 * US_PER_SECOND));
   ("regrow_time", PTimedelta (7200 * US_PER_SECOND));
   ("next_ready", PNone); ("status", PStr STATUS_UNKNOWN)].

(** 2024-01-01T00:00:00Z in microseconds *)
Definition T0 : Z := 1704067200000000.

Definition kira (id : Z) (at_us : Z) (text : string) : message :=
  mk_message "IntentGames" (Some ("00:00:00", "bob", text))
    (mk_datetime at_us (Some 0)) id.

Definition started_line : message := kira 10 T0 "wheat | is being started".
Definition finished_line : message :=
  kira 11 (T0 + 1500 * US_PER_SECOND) "wheat | has finished".

(** The bot right after start-up; [board] tells whether the status
    board channel resolves, [updates] whether the updates channel does. *)
Definition sample_boot (updates board : bool) : world :=
  boot T0 [wheat] [0%nat] PNone (PInt 5) NoFile updates board true.

Definition sends (w : world) : list event :=
  filter (fun e => match e with
                   | EvSend _ | EvInterrupted _ => true
                   | _ => false
                   end) (log w).

(** Started has been applied and the failsafe is pending. *)
Definition after_started : world :=
  run [LMessage started_line] (sample_boot true false).

(** Two farms whose names both contain the word "farm". *)
Definition wheat_farm : dict :=
  [("name", PStr "Wheat Farm"); ("coords", PStr "(1, 2, 3)");
   ("total_output", PStr "5 cs wheat");
   ("runtime", PTimedelta (1800 * US_PER_SECOND));
   ("regrow_time", PTimedelta (7200 * US_PER_SECOND));
   ("next_ready", PNone); ("status", PStr STATUS_UNKNOWN)].

Definition corn_farm : dict :=
  [("name", PStr "Corn Farm"); ("coords", PStr "(4, 5, 6)");
   ("total_output", PStr "1 cs corn");
   ("runtime", PTimedelta (900 * US_PER_SECOND));
   ("regrow_time", PTimedelta (3600 * US_PER_SECOND));
   ("next_ready", PNone); ("status", PStr STATUS_UNKNOWN)].

Definition two_farms : world :=
  boot T0 [wheat_farm; corn_farm] [0%nat; 1%nat] PNone (PInt 5) NoFile
    true false true.

Definition ambiguous_line : message := kira 12 T0 "farm | is being started".
Definition unknown_line : message := kira 13 T0 "barley | is being started".

(** Started at [T0], no Finished, the failsafe fires an hour later:
    once with the updates channel missing when Started was applied,
    once with the channel present. *)
Definition failsafe_fired (updates : bool) : world :=
  run [LMessage started_line; LResume 1 RespOk;
              LTick (3600 * US_PER_SECOND); LResume 1 RespOk]
    (sample_boot updates false).

(** The run goes on: the readiness task starts, sleeps until
    [next_ready] and sends one "ready" message. *)
Definition failsafe_then_ready : world :=
  run [LReap 1; LResume 2 RespOk; LTick (7200 * US_PER_SECOND);
       LResume 2 RespOk]
    (failsafe_fired true).

(** The same run stopped a microsecond short of [next_ready]. *)
Definition failsafe_then_waiting : world :=
  run [LReap 1; LResume 2 RespOk; LTick (7200 * US_PER_SECOND - 1);
       LResume 2 RespOk]
    (failsafe_fired true).

(** The "ready" messages that went out. *)
Definition ready_notices (w : world) : list event :=
  filter (fun e => match e with
                   | EvSend (NReady _) => true
                   | _ => false
                   end) (log w).

(** Finished is applied, the updates channel disappears, and the
    readiness task wakes at [next_ready]. *)
Definition ready_without_channel : world :=
  run [LMessage finished_line; LChannels false false true;
              LResume 1 RespOk; LTick (9000 * US_PER_SECOND);
              LResume 1 RespOk]
    (sample_boot true false).

(** Started is being applied with the status board in reach; an hour
    later a Finished line has been taken in - [next_ready] is set - but
    its handler still waits for the status board, so the failsafe task
    has not been cancelled when it wakes. *)
Definition failsafe_superseded : world :=
  run [LMessage started_line; LResume 0 RespOk; LResume 0 RespOk;
              LResume 1 RespOk; LTick (3600 * US_PER_SECOND);
              LMessage (kira 11 (T0 + 3599 * US_PER_SECOND) "wheat | has finished")]
    (sample_boot true true).

(** A record read back at restart: being farmed, ready at 02:25. *)
Definition wheat_counting_down : dict :=
  [("name", PStr "Wheat"); ("coords", PStr "(1, 2, 3)");
   ("total_output", PStr "5 cs wheat");
   ("runtime", PTimedelta (1800 * US_PER_SECOND));
   ("regrow_time", PTimedelta (7200 * US_PER_SECOND));
   ("next_ready", PDatetime (mk_datetime (T0 + 8700 * US_PER_SECOND) (Some 0)));
   ("status", PStr STATUS_FARMING)].

Definition restarted (clock_us : Z) : world :=
  boot clock_us [wheat_counting_down] [0%nat] (PInt 11) (PInt 5) NoFile
    true false false.

(** ** More registries *)

(** A record with the given name, cycle 30 minutes, regrowth 2 hours. *)
Definition farm_named (n : string) : dict :=
  [("name", PStr n); ("coords", PStr "(1, 2, 3)");
   ("total_output", PStr "5 cs wheat");
   ("runtime", PTimedelta (1800 * US_PER_SECOND));
   ("regrow_time", PTimedelta (7200 * US_PER_SECOND));
   ("next_ready", PNone); ("status", PStr STATUS_UNKNOWN)].

Definition registry_of (names : list string) : world :=
  boot T0 (map farm_named names) (seq 0 (List.length names)) PNone (PInt 5)
    NoFile true false true.

(** "Wheat Farm" is registered before "Wheat". *)
Definition wheat_pair : world := registry_of ["Wheat Farm"; "Wheat"].

(** Two farms whose names differ only in case and outer whitespace,
    as a hand-edited file may hold them, and a third one. *)
Definition namesakes : world := registry_of ["Wheat"; " WHEAT "; "Corn"].

(** A name with two spaces inside. *)
Definition spaced : world := registry_of ["Wheat  Farm"].

(** A line that names the farm and announces neither a start nor a
    finish. *)
Definition neutral_line : message := kira 14 T0 "wheat | needs water".

(** A run with a command of each kind and a full cycle. *)
Definition busy_run : list label :=
  [LAdd "Barley" "(7, 8, 9)" "2 cs barley" 20 (3 # 2);
   LMessage (kira 20 T0 "wheat farm | is being started");
   LEdit "corn" (Some "(0, 0, 0)") None (Some 10) None;
   LMessage (kira 21 (T0 + 60 * US_PER_SECOND) "wheat farm | has finished");
   LRemove "corn farm"; LOnReady].

(** What is in memory in the middle of a cycle. *)
Definition data_counting_down : pyval :=
  envelope (PInt 11) (PInt 5) [PDict wheat_counting_down].

(** * Properties *)

(** ** Dictionaries *)

Lemma dict_get_set_same (k : string) (v : pyval) (d : dict) :
  dict_get k (dict_set k v d) = Some v.
Proof.
  induction d as [|[k' v'] r IH]; simpl.
  - now rewrite String.eqb_refl.
  - destruct (String.eqb k k') eqn:E; simpl; rewrite E; auto.
Qed.

Lemma dict_get_set_other (k k' : string) (v : pyval) (d : dict) :
  k <> k' -> dict_get k (dict_set k' v d) = dict_get k d.
Proof.
  intros Hne. induction d as [|[k2 v2] r IH]; simpl.
  - destruct (String.eqb_spec k k'); congruence.
  - destruct (String.eqb_spec k' k2); simpl.
    + subst k2. destruct (String.eqb_spec k k'); congruence.
    + destruct (String.eqb k k2); auto.
Qed.

Lemma dict_set_same_value (k : string) (v : pyval) (d : dict) :
  dict_get k d = Some v -> dict_set k v d = d.
Proof.
  induction d as [|[k' v'] r IH]; simpl; [discriminate|].
  destruct (String.eqb_spec k k'); intros H.
  - congruence.
  - now rewrite IH.
Qed.

Lemma dict_set_twice (k : string) (v v' : pyval) (d : dict) :
  dict_set k v (dict_set k v' d) = dict_set k v d.
Proof.
  induction d as [|[k2 v2] r IH]; simpl.
  - now rewrite String.eqb_refl.
  - destruct (String.eqb k k2) eqn:E; simpl; rewrite E; congruence.
Qed.

Lemma dict_set_comm (k1 k2 : string) (v1 v2 : pyval) (d : dict) :
  k1 <> k2 -> dict_mem k1 d = true ->
  dict_set k1 v1 (dict_set k2 v2 d) = dict_set k2 v2 (dict_set k1 v1 d).
Proof.
  unfold dict_mem. intros Hne.
  induction d as [|[k v] r IH]; simpl; [discriminate|].
  destruct (String.eqb_spec k1 k) as [E1|N1]; intros Hm;
    destruct (String.eqb_spec k2 k) as [E2|N2]; simpl;
    repeat match goal with
           | |- context [String.eqb ?a ?b] =>
               destruct (String.eqb_spec a b); simpl
           end; try congruence.
  now rewrite IH.
Qed.

Lemma dict_mem_set (k k' : string) (v : pyval) (d : dict) :
  dict_mem k d = true -> dict_mem k (dict_set k' v d) = true.
Proof.
  unfold dict_mem. intros H.
  destruct (String.eqb_spec k k') as [->|Hne].
  - now rewrite dict_get_set_same.
  - now rewrite dict_get_set_other.
Qed.

Ltac dict_side :=
  first [ discriminate | repeat apply dict_mem_set; assumption ].

(** ** Durations written as whole seconds come back unchanged *)

Lemma td_int_seconds_of_seconds (n : Z) :
  td_int_seconds (n * US_PER_SECOND) = n.
Proof. unfold td_int_seconds, US_PER_SECOND. now rewrite Z.quot_mul. Qed.

Lemma timedelta_seconds_int (n : Z) :
  td_in_range (n * US_PER_SECOND) = true ->
  timedelta_seconds (PInt n) = Some (n * US_PER_SECOND).
Proof. intros H. unfold timedelta_seconds. now rewrite H. Qed.

(** ** Snapshots *)

Lemma save_load_farm (v : pyval) :
  snapshot_farm v ->
  obind (load_farm fromisoformat v) (save_farm isoformat) = Some v.
Proof.
  intros [(f & -> & (n1 & Hr & Hr') & (n2 & Hg & Hg') & Hn) (f' & Ef & Hs)].
  injection Ef as <-.
  assert (Hmr : dict_mem "runtime" f = true) by (unfold dict_mem; now rewrite Hr).
  assert (Hmg : dict_mem "regrow_time" f = true) by (unfold dict_mem; now rewrite Hg).
  assert (Hmn : dict_mem "next_ready" f = true).
  { unfold dict_mem. destruct Hn as [-> | (s & -> & _)]; reflexivity. }
  assert (L : forall g, dict_get "runtime" g = Some (PInt n1) ->
    dict_get "regrow_time" g = Some (PInt n2) -> dict_mem "status" g = true ->
    obind (load_duration "runtime" g) (fun f1 =>
    obind (load_duration "regrow_time" f1) (fun f2 => Some (PDict (load_status f2))))
    = Some (PDict (dict_set "regrow_time" (PTimedelta (n2 * US_PER_SECOND))
                    (dict_set "runtime" (PTimedelta (n1 * US_PER_SECOND)) g)))).
  { intros g G1 G2 G3. unfold load_duration. rewrite G1. cbn [is_number].
    rewrite (timedelta_seconds_int _ Hr'). cbn [obind].
    rewrite dict_get_set_other by discriminate. rewrite G2. cbn [is_number].
    rewrite (timedelta_seconds_int _ Hg'). cbn [obind].
    unfold load_status.
    now rewrite (dict_mem_set _ _ _ _ (dict_mem_set _ _ _ _ G3)). }
  assert (S : forall g, dict_mem "runtime" g = true -> dict_mem "regrow_time" g = true ->
    save_duration "regrow_time" (save_duration "runtime"
      (dict_set "regrow_time" (PTimedelta (n2 * US_PER_SECOND))
         (dict_set "runtime" (PTimedelta (n1 * US_PER_SECOND)) g)))
    = dict_set "regrow_time" (PInt n2) (dict_set "runtime" (PInt n1) g)).
  { intros g G1 G2. unfold save_duration.
    rewrite dict_get_set_other by discriminate. rewrite dict_get_set_same.
    rewrite dict_get_set_other by discriminate. rewrite dict_get_set_same.
    rewrite !td_int_seconds_of_seconds.
    rewrite (dict_set_comm "runtime" "regrow_time") by dict_side.
    rewrite dict_set_twice.
    rewrite dict_set_twice.
    rewrite (dict_set_comm "regrow_time" "runtime") by dict_side.
    reflexivity. }
  cbn [load_farm]. unfold load_next_ready.
  destruct Hn as [Hn | (s & Hn & Hne & d & Hp & Hq)]; rewrite Hn; cbn [truthy].
  - rewrite (L f Hr Hg Hs). cbn [obind save_farm]. f_equal. f_equal.
    unfold save_next_ready.
    rewrite !dict_get_set_other by discriminate. rewrite Hn.
    rewrite (S f Hmr Hmg).
    now rewrite !dict_set_same_value
      by (rewrite ?dict_get_set_other by discriminate; assumption).
  - destruct (String.eqb_spec s ""); [contradiction|]. cbn [negb]. rewrite Hp.
    rewrite L by (rewrite ?dict_get_set_other by discriminate;
                  auto using dict_mem_set).
    cbn [obind save_farm]. f_equal. f_equal. unfold save_next_ready.
    rewrite !dict_get_set_other by discriminate. rewrite dict_get_set_same.
    rewrite (dict_set_comm "next_ready" "regrow_time") by dict_side.
    rewrite (dict_set_comm "next_ready" "runtime") by dict_side.
    rewrite dict_set_twice, Hq.
    rewrite (S _ (dict_mem_set _ _ _ _ Hmr) (dict_mem_set _ _ _ _ Hmg)).
    rewrite (dict_set_same_value "next_ready") by assumption.
    now rewrite !dict_set_same_value
      by (rewrite ?dict_get_set_other by discriminate; assumption).
Qed.

Lemma omap_round_trip {A} (f g : A -> option A) (l : list A) :
  Forall (fun v => obind (f v) g = Some v) l ->
  obind (omap f l) (omap g) = Some l.
Proof.
  induction 1 as [|v r Hv _ IH]; [reflexivity|].
  simpl. destruct (f v) as [v'|]; [|discriminate]. simpl in Hv |- *.
  destruct (omap f r) as [r'|]; [|discriminate]. simpl in IH |- *.
  now rewrite Hv, IH.
Qed.

(** C9 (as amended): for a snapshot in the layout [save_farms] writes -
    the three envelope keys, every entity an object that carries a
    [status] field, durations as whole seconds a timedelta can hold,
    [next_ready] an explicit null or a timestamp in the layout
    [isoformat] prints - saving what [load_farms] returns writes the
    document that was loaded. *)
Theorem save_load_fixed_point (a b : pyval) (fs : list pyval) :
  json_serializable (envelope a b fs) = true ->
  Forall snapshot_farm fs ->
  save_load (envelope a b fs) = Some (envelope a b fs).
Proof.
  intros Hj Hfs. unfold save_load, envelope, load_farms.
  cbn [obind dict_get String.eqb Ascii.eqb Bool.eqb].
  assert (R : obind (omap (load_farm fromisoformat) fs) (omap (save_farm isoformat))
              = Some fs).
  { apply omap_round_trip. eapply Forall_impl; [|exact Hfs].
    intros v Hv. now apply save_load_farm. }
  destruct (omap (load_farm fromisoformat) fs) as [fs'|]; [|discriminate].
  cbn [obind] in R |- *. unfold save_farms.
  cbn [dict_set dict_get dict_get_none String.eqb Ascii.eqb Bool.eqb].
  cbn [obind]. rewrite R. cbn [obind]. fold (envelope a b fs). now rewrite Hj.
Qed.

(** ** Running the primitives *)

Lemma bind_run {A B} (m : M A) (k : A -> M B) (w w' : world) (a : A) :
  m w = (Some a, w') -> bind m k w = k a w'.
Proof. unfold bind. now intros ->. Qed.

Lemma bind_raise {A B} (m : M A) (k : A -> M B) (w w' : world) :
  m w = (None, w') -> bind m k w = (None, w').
Proof. unfold bind. now intros ->. Qed.

Lemma get_farm_run (w : world) (i : nat) (f : dict) :
  nth_error (objs w) i = Some f -> get_farm i w = (Some f, w).
Proof. unfold get_farm, bind, gets, lift_option. now intros ->. Qed.

Lemma obj_name_farm (w : world) (i : nat) (n : string) :
  obj_name w i = Some n ->
  exists f, nth_error (objs w) i = Some f /\ dict_get "name" f = Some (PStr n).
Proof.
  unfold obj_name. destruct (nth_error (objs w) i) as [f|]; [|discriminate].
  destruct (dict_get "name" f) as [[]|] eqn:E; try discriminate.
  intros [= ->]. eauto.
Qed.

Lemma farm_name_run (w : world) (i : nat) (n : string) :
  obj_name w i = Some n -> farm_name i w = (Some n, w).
Proof.
  intros H. destruct (obj_name_farm _ _ _ H) as (f & Hf & Hn).
  unfold farm_name, farm_item, get_farm, bind, gets, lift_option.
  rewrite Hf. unfold ret. now rewrite Hn.
Qed.

Lemma farm_get_run (w : world) (i : nat) (f : dict) (k : string) :
  nth_error (objs w) i = Some f -> farm_get i k w = (Some (dict_get_none k f), w).
Proof.
  intros H. unfold farm_get. now rewrite (bind_run _ _ _ _ _ (get_farm_run _ _ _ H)).
Qed.

Lemma farm_set_run (w : world) (i : nat) (f : dict) (k : string) (v : pyval) :
  nth_error (objs w) i = Some f ->
  farm_set i k v w = (Some tt, set_objs (list_set i (dict_set k v f) (objs w)) w).
Proof.
  intros H. unfold farm_set. now rewrite (bind_run _ _ _ _ _ (get_farm_run _ _ _ H)).
Qed.

Lemma nth_error_list_set_same {A} (l : list A) (i : nat) (a b : A) :
  nth_error l i = Some b -> nth_error (list_set i a l) i = Some a.
Proof.
  revert i. induction l as [|x r IH]; intros [|i]; simpl; try discriminate; auto.
Qed.

Lemma nth_error_list_set_other {A} (l : list A) (i j : nat) (a : A) :
  i <> j -> nth_error (list_set i a l) j = nth_error l j.
Proof.
  revert i j. induction l as [|x r IH]; intros [|i] [|j] H; simpl; auto;
    congruence.
Qed.

Lemma length_list_set {A} (l : list A) (i : nat) (a : A) :
  List.length (list_set i a l) = List.length l.
Proof. revert i. induction l as [|x r IH]; intros [|i]; simpl; auto. Qed.

Lemma obj_name_set_objs (w : world) (i j : nat) (f : dict) (k : string) (v : pyval) :
  k <> "name" -> nth_error (objs w) i = Some f ->
  obj_name (set_objs (list_set i (dict_set k v f) (objs w)) w) j = obj_name w j.
Proof.
  intros Hk Hf. unfold obj_name. cbn [objs set_objs].
  destruct (Nat.eq_dec i j) as [<-|Hne].
  - rewrite (nth_error_list_set_same _ _ _ _ Hf), Hf.
    rewrite dict_get_set_other; [reflexivity | congruence].
  - now rewrite nth_error_list_set_other.
Qed.

(** ** Name resolution *)

Lemma first_farm_none (w : world) (p : string -> bool) (l : list nat) :
  (forall i, In i l -> exists n, obj_name w i = Some n /\ p (lower (strip n)) = false) ->
  first_farm p l w = (Some None, w).
Proof.
  induction l as [|i r IH]; intros H; [reflexivity|].
  destruct (H i (or_introl eq_refl)) as (n & Hn & Hp).
  cbn [first_farm]. rewrite (bind_run _ _ _ _ _ (farm_name_run _ _ _ Hn)), Hp.
  apply IH. intros j Hj. apply H. now right.
Qed.

Lemma removefarm_not_found (w : world) (arg : string) :
  no_exact_match w arg ->
  removefarm arg w
    = (Some (Suspended [FCommandRespond]),
       set_log (log w ++ [EvRespond false arg]) w).
Proof.
  intros H. unfold removefarm.
  rewrite (bind_run _ _ w w (farms w)) by reflexivity.
  rewrite (bind_run _ _ w w None); [reflexivity|].
  apply first_farm_none. intros i Hi.
  destruct (H i Hi) as (n & Hn & Hne). exists n. split; [assumption|].
  destruct (String.eqb_spec (lower (strip arg)) (lower (strip n))); congruence.
Qed.

(** C10: [/removefarm] looks its argument up by exact match only (both
    sides stripped and lowercased, no substring fallback): when no stored
    name matches exactly, the command answers "not found" and the world
    is otherwise untouched - no farm is removed, no timer cancelled,
    nothing is saved - whatever the partial lookup used by the other
    commands would have found. *)
Theorem removefarm_exact_only (w : world) (arg : string) :
  no_exact_match w arg ->
  removefarm arg w
    = (Some (Suspended [FCommandRespond]),
       set_log (log w ++ [EvRespond false arg]) w)
  /\ farms (step (LRemove arg) w) = farms w
  /\ objs (step (LRemove arg) w) = objs w
  /\ scheduled (step (LRemove arg) w) = scheduled w
  /\ disk (step (LRemove arg) w) = disk w.
Proof.
  intros H. split; [now apply removefarm_not_found|].
  cbn [step]. unfold spawn, run_coro.
  match goal with
  | |- context [bind (removefarm arg) ?k ?x] =>
      rewrite (bind_run _ k x _ _ (removefarm_not_found x arg H))
  end.
  cbn [ret frames_of]. repeat split; reflexivity.
Qed.

(** Looking a name up only reads the registry. *)
Lemma farm_name_snd (i : nat) (w : world) : snd (farm_name i w) = w.
Proof.
  unfold farm_name, farm_item, get_farm, bind, gets, lift_option.
  destruct (nth_error (objs w) i) as [f|]; [|reflexivity]. unfold ret.
  destruct (dict_get "name" f) as [[]|]; reflexivity.
Qed.

Lemma filter_farms_snd (p : string -> bool) (l : list nat) (w : world) :
  snd (filter_farms p l w) = w.
Proof.
  induction l as [|i r IH]; [reflexivity|].
  cbn [filter_farms]. unfold bind at 1.
  pose proof (farm_name_snd i w) as Hn.
  destruct (farm_name i w) as [[n|] w1]; simpl in Hn; subst w1; [|reflexivity].
  unfold bind at 1.
  destruct (filter_farms p r w) as [[rest|] w2]; simpl in IH; subst w2; reflexivity.
Qed.

Lemma find_farms_snd (name_raw : string) (w : world) :
  snd (find_farms_by_name_partial name_raw w) = w.
Proof.
  unfold find_farms_by_name_partial.
  destruct (String.eqb name_raw ""); [reflexivity|].
  unfold bind at 1, gets at 1. unfold bind at 1.
  pose proof (filter_farms_snd
                (String.eqb (collapse_ws (lower (strip name_raw)))) (farms w) w) as H.
  destruct (filter_farms _ (farms w) w) as [[[|i r]|] w1]; simpl in H; subst w1;
    try reflexivity.
  apply filter_farms_snd.
Qed.

Lemma find_farms_run (name_raw : string) (w : world) (r : list nat) :
  fst (find_farms_by_name_partial name_raw w) = Some r ->
  find_farms_by_name_partial name_raw w = (Some r, w).
Proof.
  intros H. pose proof (find_farms_snd name_raw w) as S.
  destruct (find_farms_by_name_partial name_raw w); simpl in *. congruence.
Qed.


(** ** Frame reasoning

    [respects R m]: whatever [m] does, returning or raising, the world
    it leaves is related by [R] to the one it found. *)

Section Respects.

Variable R : world -> world -> Prop.
Hypothesis R_refl : forall w, R w w.
Hypothesis R_trans : forall a b c, R a b -> R b c -> R a c.

Lemma respects_ret {A} (a : A) : respects R (ret a).
Proof. intros w. apply R_refl. Qed.

Lemma respects_raise {A} : respects R (@raise A).
Proof. intros w. apply R_refl. Qed.

Lemma respects_gets {A} (f : world -> A) : respects R (gets f).
Proof. intros w. apply R_refl. Qed.

Lemma respects_lift_option {A} (o : option A) : respects R (lift_option o).
Proof. destruct o; [apply respects_ret | apply respects_raise]. Qed.

Lemma respects_bind {A B} (m : M A) (k : A -> M B) :
  respects R m -> (forall a, respects R (k a)) -> respects R (bind m k).
Proof.
  intros Hm Hk w. unfold bind. specialize (Hm w).
  destruct (m w) as [[a|] w1]; simpl in *; [|assumption].
  eapply R_trans; [exact Hm | apply Hk].
Qed.

Lemma respects_modify (f : world -> world) :
  (forall w, R w (f w)) -> respects R (modify f).
Proof. intros H w. apply H. Qed.

Lemma respects_when (c : bool) (m : M unit) :
  respects R m -> respects R (when c m).
Proof. destruct c; [auto | intros _; apply respects_ret]. Qed.

Lemma respects_get_farm (i : nat) : respects R (get_farm i).
Proof.
  apply respects_bind; [apply respects_gets | intros; apply respects_lift_option].
Qed.

Lemma respects_farm_item (i : nat) (k : string) : respects R (farm_item i k).
Proof.
  apply respects_bind; [apply respects_get_farm | intros; apply respects_lift_option].
Qed.

Lemma respects_farm_get (i : nat) (k : string) : respects R (farm_get i k).
Proof.
  apply respects_bind; [apply respects_get_farm | intros; apply respects_ret].
Qed.

Lemma respects_farm_name (i : nat) : respects R (farm_name i).
Proof.
  apply respects_bind; [apply respects_farm_item|].
  intros []; first [apply respects_ret | apply respects_raise].
Qed.

Lemma respects_farm_timedelta (i : nat) (k : string) :
  respects R (farm_timedelta i k).
Proof.
  apply respects_bind; [apply respects_farm_item|].
  intros []; first [apply respects_ret | apply respects_raise].
Qed.

Lemma respects_now_utc : respects R now_utc.
Proof. apply respects_bind; [apply respects_gets | intros; apply respects_ret]. Qed.

Lemma respects_get_coro (cid : nat) : respects R (get_coro cid).
Proof.
  apply respects_bind; [apply respects_gets | intros; apply respects_lift_option].
Qed.

Lemma respects_task_done (cid : nat) : respects R (task_done cid).
Proof.
  apply respects_bind; [apply respects_get_coro | intros; apply respects_ret].
Qed.

Lemma respects_cancel_pending : respects R cancel_pending.
Proof.
  apply respects_bind; [apply respects_gets|].
  intros [cid|]; [|apply respects_ret].
  apply respects_bind; [apply respects_get_coro | intros; apply respects_ret].
Qed.

Lemma respects_filter_farms (p : string -> bool) (l : list nat) :
  respects R (filter_farms p l).
Proof.
  induction l as [|i r IH]; [apply respects_ret|].
  cbn [filter_farms]. apply respects_bind; [apply respects_farm_name|].
  intros n. apply respects_bind; [exact IH | intros; apply respects_ret].
Qed.

Lemma respects_first_farm (p : string -> bool) (l : list nat) :
  respects R (first_farm p l).
Proof.
  induction l as [|i r IH]; [apply respects_ret|].
  cbn [first_farm]. apply respects_bind; [apply respects_farm_name|].
  intros n. destruct (p _); [apply respects_ret | exact IH].
Qed.

Lemma respects_find_farms (s : string) :
  respects R (find_farms_by_name_partial s).
Proof.
  unfold find_farms_by_name_partial.
  destruct (String.eqb s ""); [apply respects_ret|].
  apply respects_bind; [apply respects_gets|]. intros fs.
  apply respects_bind; [apply respects_filter_farms|].
  intros [|i r]; [apply respects_filter_farms | apply respects_ret].
Qed.

Lemma respects_get_farm_exact (s : string) : respects R (get_farm_exact s).
Proof.
  apply respects_bind; [apply respects_find_farms | intros; apply respects_ret].
Qed.

Lemma respects_build_embed (l : list nat) : respects R (build_embed l).
Proof.
  induction l as [|i r IH]; [apply respects_ret|].
  cbn [build_embed]. apply respects_bind; [apply respects_farm_item | intros; exact IH].
Qed.

End Respects.

(** One step of a frame proof: [refl] and [trans] are the proofs that
    the relation is a preorder, [writes] settles the primitives that
    change the world. *)
Ltac frame_step refl trans writes :=
  first
    [ solve [writes]
    | apply (respects_ret _ refl)
    | apply (respects_raise _ refl)
    | apply (respects_gets _ refl)
    | apply (respects_lift_option _ refl)
    | apply (respects_get_farm _ refl trans)
    | apply (respects_farm_item _ refl trans)
    | apply (respects_farm_get _ refl trans)
    | apply (respects_farm_name _ refl trans)
    | apply (respects_farm_timedelta _ refl trans)
    | apply (respects_now_utc _ refl trans)
    | apply (respects_task_done _ refl trans)
    | apply (respects_cancel_pending _ refl trans)
    | apply (respects_filter_farms _ refl trans)
    | apply (respects_first_farm _ refl trans)
    | apply (respects_find_farms _ refl trans)
    | apply (respects_get_farm_exact _ refl trans)
    | apply (respects_build_embed _ refl trans)
    | apply (respects_bind _ trans); [|intros]
    | apply (respects_when _ refl)
    | apply respects_modify; intros; solve [writes]
    | match goal with
      | |- respects _ (match ?x with _ => _ end) => destruct x
      | |- respects _ (if ?x then _ else _) => destruct x
      | |- respects _ (let _ := _ in _) => cbv zeta
      end ].

Ltac frame refl trans writes := repeat frame_step refl trans writes.

(** *** Code that leaves the farm objects alone *)

Lemma same_objs_refl (w : world) : same_objs w w.
Proof. reflexivity. Qed.

Lemma same_objs_trans (a b c : world) :
  same_objs a b -> same_objs b c -> same_objs a c.
Proof. unfold same_objs. congruence. Qed.

Create HintDb objs_frame.

Ltac objs_frame :=
  frame same_objs_refl same_objs_trans
        ltac:(first [ reflexivity | auto with objs_frame ]).

Lemma emit_same_objs (e : event) : respects same_objs (emit e).
Proof. unfold emit. objs_frame. Qed.
#[local] Hint Resolve emit_same_objs : objs_frame.

Lemma save_same_objs : respects same_objs save.
Proof.
  unfold save. apply (respects_bind _ same_objs_trans); [intros w; reflexivity|].
  intros d. objs_frame.
Qed.
#[local] Hint Resolve save_same_objs : objs_frame.

Lemma task_cancel_same_objs (cid : nat) : respects same_objs (task_cancel cid).
Proof.
  unfold task_cancel. apply (respects_bind _ same_objs_trans).
  - unfold get_coro. objs_frame.
  - intros c. objs_frame.
Qed.
#[local] Hint Resolve task_cancel_same_objs : objs_frame.

Lemma create_task_same_objs (f : frame) : respects same_objs (create_task f).
Proof. unfold create_task. objs_frame. Qed.
#[local] Hint Resolve create_task_same_objs : objs_frame.

Lemma send_notice_same_objs (n : notice) : respects same_objs (send_notice n).
Proof. unfold send_notice. objs_frame. Qed.
#[local] Hint Resolve send_notice_same_objs : objs_frame.

Lemma schedule_task_same_objs (farm : nat) :
  respects same_objs (schedule_task_for_farm farm).
Proof. unfold schedule_task_for_farm. objs_frame. Qed.
#[local] Hint Resolve schedule_task_same_objs : objs_frame.

Lemma update_farms_embed_same_objs : respects same_objs update_farms_embed.
Proof. unfold update_farms_embed. objs_frame. Qed.
#[local] Hint Resolve update_farms_embed_same_objs : objs_frame.

Lemma call_embed_same_objs (k : frame) (code : M ctl) :
  respects same_objs code -> respects same_objs (call_embed k code).
Proof. intros H. unfold call_embed. objs_frame. Qed.

Lemma checkpoint_same_objs (id : Z) : respects same_objs (checkpoint id).
Proof. unfold checkpoint. objs_frame. Qed.
#[local] Hint Resolve checkpoint_same_objs : objs_frame.

Lemma start_after_send_same_objs (l : kira_locals) :
  respects same_objs (start_after_send l).
Proof. unfold start_after_send. objs_frame. Qed.
#[local] Hint Resolve start_after_send_same_objs : objs_frame.

Lemma finish_after_embed_same_objs (l : kira_locals) (nr : datetime) :
  respects same_objs (finish_after_embed l nr).
Proof. unfold finish_after_embed. objs_frame. Qed.

Lemma start_after_embed_same_objs (l : kira_locals) :
  respects same_objs (start_after_embed l).
Proof. unfold start_after_embed. objs_frame. Qed.

Lemma failsafe_after_embed_same_objs (farm : nat) (bc : bool) (nr : datetime) :
  respects same_objs (failsafe_after_embed farm bc nr).
Proof. unfold failsafe_after_embed. objs_frame. Qed.

Lemma notify_after_embed_same_objs (farm : nat) :
  respects same_objs (notify_after_embed farm).
Proof. unfold notify_after_embed. objs_frame. Qed.

(** ** At most one armed timer per name *)

(** *** Code that leaves tasks, schedule and names alone *)

Lemma quiet_refl (w : world) : quiet w w.
Proof. repeat split; auto. Qed.

Lemma quiet_trans (a b c : world) : quiet a b -> quiet b c -> quiet a c.
Proof.
  intros (A1 & A2 & A3 & A4) (B1 & B2 & B3 & B4).
  repeat split; try congruence. auto.
Qed.

Create HintDb quiet_frame.

Ltac quiet_frame :=
  frame quiet_refl quiet_trans
        ltac:(first [ apply quiet_refl
                    | solve [repeat split; auto]
                    | auto with quiet_frame ]).

Lemma emit_quiet (e : event) : respects quiet (emit e).
Proof. unfold emit. quiet_frame. Qed.
#[local] Hint Resolve emit_quiet : quiet_frame.

Lemma save_quiet : respects quiet save.
Proof.
  unfold save. apply (respects_bind _ quiet_trans); [intros w; apply quiet_refl|].
  intros d. quiet_frame.
Qed.
#[local] Hint Resolve save_quiet : quiet_frame.

Lemma farm_set_quiet (i : nat) (k : string) (v : pyval) :
  k <> "name" -> respects quiet (farm_set i k v).
Proof.
  intros Hk w. unfold farm_set, get_farm, bind, gets, lift_option.
  destruct (nth_error (objs w) i) as [f|] eqn:Hf; [|apply quiet_refl].
  cbn. repeat split; auto. intros j n Hn.
  now rewrite obj_name_set_objs.
Qed.

Lemma farm_set_quiet_status (i : nat) (v : pyval) :
  respects quiet (farm_set i "status" v).
Proof. apply farm_set_quiet. discriminate. Qed.
Lemma farm_set_quiet_next_ready (i : nat) (v : pyval) :
  respects quiet (farm_set i "next_ready" v).
Proof. apply farm_set_quiet. discriminate. Qed.
Lemma farm_set_quiet_runtime (i : nat) (v : pyval) :
  respects quiet (farm_set i "runtime" v).
Proof. apply farm_set_quiet. discriminate. Qed.
Lemma farm_set_quiet_regrow (i : nat) (v : pyval) :
  respects quiet (farm_set i "regrow_time" v).
Proof. apply farm_set_quiet. discriminate. Qed.
Lemma farm_set_quiet_coords (i : nat) (v : pyval) :
  respects quiet (farm_set i "coords" v).
Proof. apply farm_set_quiet. discriminate. Qed.
Lemma farm_set_quiet_output (i : nat) (v : pyval) :
  respects quiet (farm_set i "total_output" v).
Proof. apply farm_set_quiet. discriminate. Qed.
#[local] Hint Resolve farm_set_quiet_status farm_set_quiet_next_ready
  farm_set_quiet_runtime farm_set_quiet_regrow farm_set_quiet_coords
  farm_set_quiet_output : quiet_frame.

Lemma send_notice_quiet (n : notice) : respects quiet (send_notice n).
Proof. unfold send_notice. quiet_frame. Qed.
#[local] Hint Resolve send_notice_quiet : quiet_frame.

Lemma checkpoint_quiet (id : Z) : respects quiet (checkpoint id).
Proof. unfold checkpoint. quiet_frame. Qed.
#[local] Hint Resolve checkpoint_quiet : quiet_frame.

Lemma normalize_duration_quiet (i : nat) (k : string) :
  k <> "name" -> respects quiet (normalize_duration i k).
Proof.
  intros Hk. unfold normalize_duration.
  apply (respects_bind _ quiet_trans);
    [apply (respects_farm_get _ quiet_refl quiet_trans)|].
  intros v.
  assert (F : forall u, respects quiet (farm_set i k (PTimedelta u)))
    by (intros; now apply farm_set_quiet).
  destruct v; cbn [is_number]; quiet_frame.
Qed.

Lemma update_farms_embed_quiet : respects quiet update_farms_embed.
Proof. unfold update_farms_embed. quiet_frame. Qed.
#[local] Hint Resolve update_farms_embed_quiet : quiet_frame.

Lemma embed_store_id_quiet (id : Z) : respects quiet (embed_store_id id).
Proof. unfold embed_store_id. quiet_frame. Qed.
#[local] Hint Resolve embed_store_id_quiet : quiet_frame.

Lemma embed_recreate_quiet : respects quiet embed_recreate.
Proof. unfold embed_recreate. quiet_frame. Qed.
#[local] Hint Resolve embed_recreate_quiet : quiet_frame.

Lemma start_after_send_quiet (l : kira_locals) : respects quiet (start_after_send l).
Proof. unfold start_after_send. quiet_frame. Qed.
#[local] Hint Resolve start_after_send_quiet : quiet_frame.

Lemma notify_after_embed_quiet (farm : nat) :
  respects quiet (notify_after_embed farm).
Proof. unfold notify_after_embed. quiet_frame. Qed.
#[local] Hint Resolve notify_after_embed_quiet : quiet_frame.

Lemma command_after_embed_quiet (n : string) :
  respects quiet (command_after_embed n).
Proof. unfold command_after_embed. quiet_frame. Qed.
#[local] Hint Resolve command_after_embed_quiet : quiet_frame.

Lemma command_refused_quiet (n : string) : respects quiet (command_refused n).
Proof. unfold command_refused. quiet_frame. Qed.
#[local] Hint Resolve command_refused_quiet : quiet_frame.

Lemma notify_farm_ready_plain_quiet (farm : nat) :
  respects quiet (notify_farm_ready_plain farm).
Proof. unfold notify_farm_ready_plain, call_embed. quiet_frame. Qed.
#[local] Hint Resolve notify_farm_ready_plain_quiet : quiet_frame.

Lemma schedule_notification_quiet (farm : nat) :
  respects quiet (schedule_notification_for_farm farm).
Proof. unfold schedule_notification_for_farm. quiet_frame. Qed.
#[local] Hint Resolve schedule_notification_quiet : quiet_frame.

Lemma failsafe_start_quiet (farm : nat) (bc : bool) :
  respects quiet (failsafe_start farm bc).
Proof. unfold failsafe_start. quiet_frame. Qed.
#[local] Hint Resolve failsafe_start_quiet : quiet_frame.

(** ** Applying a Finished event *)

Lemma reader_ret {A} (a : A) : reader (ret a).
Proof. split; reflexivity. Qed.

Lemma reader_bind {A B} (m : M A) (k : A -> M B) :
  reader m -> (forall a, reader (k a)) -> reader (bind m k).
Proof.
  intros [Hs He] Hk. split.
  - intros w. unfold bind. specialize (Hs w).
    destruct (m w) as [[a|] w1]; simpl in *; subst; [apply Hk | reflexivity].
  - intros w w' Ho Hf. unfold bind.
    pose proof (Hs w) as S. pose proof (Hs w') as S'.
    pose proof (He w w' Ho Hf) as E.
    destruct (m w) as [o w1], (m w') as [o' w1']. simpl in *. subst.
    destruct o as [a|]; [now apply Hk | reflexivity].
Qed.

Lemma reader_farm_name (i : nat) : reader (farm_name i).
Proof.
  split; [apply farm_name_snd|]. intros w w' H _.
  unfold farm_name, farm_item, get_farm, bind, gets, lift_option.
  rewrite H. destruct (nth_error (objs w) i) as [f|]; [|reflexivity]. unfold ret.
  destruct (dict_get "name" f) as [[]|]; reflexivity.
Qed.

Lemma reader_filter_farms (p : string -> bool) (l : list nat) :
  reader (filter_farms p l).
Proof.
  induction l as [|i r IH]; [apply reader_ret|].
  cbn [filter_farms]. apply reader_bind; [apply reader_farm_name|].
  intros n. apply reader_bind; [exact IH | intros; apply reader_ret].
Qed.

Lemma reader_get_farm_exact (s : string) : reader (get_farm_exact s).
Proof.
  unfold get_farm_exact, find_farms_by_name_partial.
  apply reader_bind; [|intros; apply reader_ret].
  destruct (String.eqb s ""); [apply reader_ret|].
  apply reader_bind.
  - split; [reflexivity|]. intros w w' _ H. unfold gets. simpl. now rewrite H.
  - intros fs. apply reader_bind; [apply reader_filter_farms|].
    intros [|i r]; [apply reader_filter_farms | apply reader_ret].
Qed.

Lemma get_farm_exact_run (s : string) (w : world) (r : option nat) :
  fst (get_farm_exact s w) = Some r -> get_farm_exact s w = (Some r, w).
Proof.
  intros H. pose proof (proj1 (reader_get_farm_exact s) w) as S.
  destruct (get_farm_exact s w); simpl in *. congruence.
Qed.

(** What [normalize_duration] leaves in the farm object. *)
Lemma normalize_duration_run (w : world) (i : nat) (f : dict) (k : string)
    (us : Z) :
  nth_error (objs w) i = Some f -> duration_of k f = Some us ->
  exists w' f',
    normalize_duration i k w = (Some tt, w') /\
    nth_error (objs w') i = Some f' /\
    dict_get k f' = Some (PTimedelta us) /\
    (forall k', k' <> k -> dict_get k' f' = dict_get k' f).
Proof.
  intros Hf Hd. unfold normalize_duration.
  rewrite (bind_run _ _ _ _ _ (farm_get_run _ _ _ k Hf)).
  unfold duration_of in Hd. unfold dict_get_none in *.
  assert (G : forall v, (exists w' f',
      farm_set i k (PTimedelta v) w = (Some tt, w') /\
      nth_error (objs w') i = Some f' /\
      dict_get k f' = Some (PTimedelta v) /\
      (forall k', k' <> k -> dict_get k' f' = dict_get k' f))).
  { intros v. eexists. eexists. split; [apply (farm_set_run _ _ _ _ _ Hf)|].
    split; [apply (nth_error_list_set_same _ _ _ _ Hf)|].
    split; [apply dict_get_set_same|].
    intros k' Hk. now apply dict_get_set_other. }
  destruct (dict_get k f) as [v|] eqn:E.
  - destruct v; cbn [is_number] in *;
      try (injection Hd as <-; first [ apply G | idtac ]).
    + (* bool *) destruct (timedelta_seconds (PBool b)) as [u|] eqn:T; [|discriminate].
      injection Hd as <-. cbn [lift_option]. unfold bind at 1, ret at 1. apply G.
    + destruct (timedelta_seconds (PInt z)) as [u|] eqn:T; [|discriminate].
      injection Hd as <-. cbn [lift_option]. unfold bind at 1, ret at 1. apply G.
    + destruct (timedelta_seconds (PFloat q)) as [u|] eqn:T; [|discriminate].
      injection Hd as <-. cbn [lift_option]. unfold bind at 1, ret at 1. apply G.
    + exists w, f. repeat split; auto.
  - cbn [is_number] in *. injection Hd as <-. apply G.
Qed.

Lemma farm_timedelta_run (w : world) (i : nat) (f : dict) (k : string) (us : Z) :
  nth_error (objs w) i = Some f -> dict_get k f = Some (PTimedelta us) ->
  farm_timedelta i k w = (Some us, w).
Proof.
  intros Hf Hk. unfold farm_timedelta, farm_item, get_farm, bind, gets, lift_option.
  rewrite Hf. unfold ret. now rewrite Hk.
Qed.

(** Both durations normalised, one after the other. *)
Lemma normalize_both_run (w : world) (i : nat) (f : dict) (regrow runtime : Z) :
  nth_error (objs w) i = Some f ->
  duration_of "regrow_time" f = Some regrow ->
  duration_of "runtime" f = Some runtime ->
  exists w' f',
    (normalize_duration i "regrow_time" ;;; normalize_duration i "runtime") w
      = (Some tt, w') /\
    nth_error (objs w') i = Some f' /\
    dict_get "regrow_time" f' = Some (PTimedelta regrow) /\
    dict_get "runtime" f' = Some (PTimedelta runtime).
Proof.
  intros Hf Hg Hr.
  destruct (normalize_duration_run w i f _ _ Hf Hg) as (w1 & f1 & E1 & Hf1 & G1 & O1).
  assert (Hr1 : duration_of "runtime" f1 = Some runtime).
  { unfold duration_of, dict_get_none in *. now rewrite O1 by discriminate. }
  destruct (normalize_duration_run w1 i f1 _ _ Hf1 Hr1) as (w2 & f2 & E2 & Hf2 & G2 & O2).
  exists w2, f2. rewrite (bind_run _ _ _ _ _ E1). split; [exact E2|].
  split; [exact Hf2|]. split; [|exact G2]. now rewrite O2 by discriminate.
Qed.


(** ** The failsafe timer *)

Lemma task_done_run (w : world) (t : nat) (c : coro) :
  nth_error (coros w) t = Some c ->
  task_done t w
    = (Some (match co_state c with Finished => true | _ => false end), w).
Proof. intros H. unfold task_done, get_coro, bind, gets, lift_option. now rewrite H. Qed.

Lemma task_cancel_run (w : world) (t : nat) (c : coro) :
  nth_error (coros w) t = Some c ->
  task_cancel t w
    = (Some tt,
       match co_state c with
       | Finished => w
       | _ => set_coros (list_set t (mk_coro (co_stack c) Cancelling) (coros w)) w
       end).
Proof.
  intros H. unfold task_cancel, get_coro, bind, gets, lift_option. rewrite H.
  unfold ret. destruct (co_state c); reflexivity.
Qed.

Lemma sched_get_set_same (k : string) (v : nat) (d : list (string * nat)) :
  sched_get k (sched_set k v d) = Some v.
Proof.
  induction d as [|[k' v'] r IH]; simpl.
  - now rewrite String.eqb_refl.
  - destruct (String.eqb k k') eqn:E; simpl; rewrite E; auto.
Qed.

Lemma sched_get_set_other (k k' : string) (v : nat) (d : list (string * nat)) :
  k <> k' -> sched_get k (sched_set k' v d) = sched_get k d.
Proof.
  intros Hne. induction d as [|[k2 v2] r IH]; simpl.
  - destruct (String.eqb_spec k k'); congruence.
  - destruct (String.eqb_spec k' k2); simpl.
    + subst k2. destruct (String.eqb_spec k k'); congruence.
    + destruct (String.eqb k k2); auto.
Qed.

Lemma sched_get_pop_other (k k' : string) (d : list (string * nat)) :
  k <> k' -> sched_get k (sched_pop k' d) = sched_get k d.
Proof.
  intros Hne. induction d as [|[k2 v2] r IH]; simpl; [reflexivity|].
  destruct (String.eqb_spec k' k2); simpl.
  - subst k2. destruct (String.eqb_spec k k'); congruence.
  - destruct (String.eqb k k2); auto.
Qed.

Lemma sched_get_In (n : string) (t : nat) (d : list (string * nat)) :
  sched_get n d = Some t -> exists k, In (k, t) d.
Proof.
  induction d as [|[k v] r IH]; simpl; [discriminate|].
  destruct (String.eqb n k).
  - intros [= ->]. eauto.
  - intros H. destruct (IH H) as (k' & Hk). eauto.
Qed.

Lemma sched_valid_get (w : world) (n : string) (t : nat) :
  sched_valid w -> sched_get n (scheduled w) = Some t ->
  (t < List.length (coros w))%nat.
Proof.
  intros Hv Hs. destruct (sched_get_In _ _ _ Hs) as (k & Hk).
  unfold sched_valid in Hv. rewrite Forall_forall in Hv. exact (Hv _ Hk).
Qed.

(** Lines 375-405 up to the creation of the failsafe task *)
Lemma start_arms_failsafe (w : world) (l : kira_locals) (name : string) :
  obj_name w (kl_farm l) = Some name ->
  sched_valid w ->
  exists k,
    start_after_embed l w
    = k (set_scheduled
           (sched_set name (List.length (coros w))
              (scheduled (cancel_and_pop name w)))
           (set_coros
              (coros (cancel_and_pop name w)
                 ++ [mk_coro [FFailsafeNew (kl_farm l) (kl_bot_channel l)] Live])
              (cancel_and_pop name w)))
    /\ respects quiet k.
Proof.
  intros Hn Hv.
  exists (if kl_bot_channel l
          then send_notice (NStarted name (kl_user l)) ;;;
               ret (Suspended [FStartSend l])
          else start_after_send l).
  split.
  - unfold start_after_embed.
    rewrite (bind_run _ _ _ _ _ (farm_name_run _ _ _ Hn)).
    rewrite (bind_run _ _ w w (sched_get name (scheduled w))) by reflexivity.
    assert (C : (match sched_get name (scheduled w) with
                 | Some t =>
                     d <- task_done t ;;
                     when (negb d)
                       (task_cancel t ;;;
                        modify (fun w => set_scheduled (sched_pop name (scheduled w)) w))
                 | None => ret tt
                 end) w = (Some tt, cancel_and_pop name w)).
    { unfold cancel_and_pop.
      destruct (sched_get name (scheduled w)) as [t|] eqn:E; [|reflexivity].
      destruct (nth_error (coros w) t) as [c|] eqn:Ec.
      - rewrite (bind_run _ _ _ _ _ (task_done_run _ _ _ Ec)).
        destruct (co_state c) eqn:Es; cbn [negb when]; try reflexivity;
          rewrite (bind_run _ _ _ _ _ (task_cancel_run _ _ _ Ec)), Es; reflexivity.
      - apply (sched_valid_get _ _ _ Hv) in E. apply nth_error_None in Ec. lia. }
    rewrite (bind_run _ _ _ _ _ C).
    assert (L : List.length (coros (cancel_and_pop name w)) = List.length (coros w)).
    { unfold cancel_and_pop.
      destruct (sched_get name (scheduled w)) as [t|]; [|reflexivity].
      destruct (nth_error (coros w) t) as [c|]; [|reflexivity].
      destruct (co_state c); cbn; rewrite ?length_list_set; reflexivity. }
    unfold create_task.
    unfold bind at 1. unfold bind at 1. unfold gets at 1. unfold bind at 1.
    unfold modify at 1. unfold ret at 1. unfold bind at 1. unfold modify at 1.
    rewrite L. reflexivity.
  - destruct (kl_bot_channel l); quiet_frame.
Qed.

Lemma set_current_back (w : world) (c : option nat) (cs : list coro) :
  current w = None ->
  set_current None (set_coros cs (set_current c w)) = set_coros cs w.
Proof. destruct w. simpl. intros ->. reflexivity. Qed.


(** ** Arming through [schedule_task_for_farm] *)

Lemma cancel_old_length (name : string) (w : world) :
  List.length (coros (cancel_old name w)) = List.length (coros w).
Proof.
  unfold cancel_old.
  destruct (sched_get name (scheduled w)) as [t|]; [|reflexivity].
  destruct (nth_error (coros w) t) as [c|]; [|reflexivity].
  destruct (co_state c); cbn; rewrite ?length_list_set; reflexivity.
Qed.

Lemma cancel_old_objs (name : string) (w : world) :
  objs (cancel_old name w) = objs w.
Proof.
  unfold cancel_old.
  destruct (sched_get name (scheduled w)) as [t|]; [|reflexivity].
  destruct (nth_error (coros w) t) as [c|]; [|reflexivity].
  destruct (co_state c); reflexivity.
Qed.

Lemma cancel_old_scheduled (name : string) (w : world) :
  scheduled (cancel_old name w) = scheduled w.
Proof.
  unfold cancel_old.
  destruct (sched_get name (scheduled w)) as [t|]; [|reflexivity].
  destruct (nth_error (coros w) t) as [c|]; [|reflexivity].
  destruct (co_state c); reflexivity.
Qed.

Lemma schedule_task_run (w : world) (farm : nat) (name : string) :
  obj_name w farm = Some name ->
  sched_valid w ->
  schedule_task_for_farm farm w = (Some tt, rearmed farm name w).
Proof.
  intros Hn Hv. unfold schedule_task_for_farm.
  rewrite (bind_run _ _ _ _ _ (farm_name_run _ _ _ Hn)).
  rewrite (bind_run _ _ w w (sched_get name (scheduled w))) by reflexivity.
  assert (C : (match sched_get name (scheduled w) with
               | Some t => d <- task_done t ;; when (negb d) (task_cancel t)
               | None => ret tt
               end) w = (Some tt, cancel_old name w)).
  { unfold cancel_old.
    destruct (sched_get name (scheduled w)) as [t|] eqn:E; [|reflexivity].
    destruct (nth_error (coros w) t) as [c|] eqn:Ec.
    - rewrite (bind_run _ _ _ _ _ (task_done_run _ _ _ Ec)).
      destruct (co_state c) eqn:Es; cbn [negb when]; try reflexivity;
        rewrite (task_cancel_run _ _ _ Ec), Es; reflexivity.
    - apply (sched_valid_get _ _ _ Hv) in E. apply nth_error_None in Ec. lia. }
  rewrite (bind_run _ _ _ _ _ C).
  destruct (obj_name_farm _ _ _ Hn) as (f & Hf & _).
  assert (Hf' : nth_error (objs (cancel_old name w)) farm = Some f)
    by now rewrite cancel_old_objs.
  rewrite (bind_run _ _ _ _ _ (farm_get_run _ _ _ "next_ready" Hf')).
  unfold rearmed. rewrite Hf.
  destruct (truthy (dict_get_none "next_ready" f)); [|reflexivity].
  cbn [when]. unfold create_task, bind, gets, modify, ret.
  now rewrite cancel_old_length.
Qed.

Lemma list_set_twice {A} (l : list A) (i : nat) (a b : A) :
  list_set i a (list_set i b l) = list_set i a l.
Proof. revert i. induction l as [|x r IH]; intros [|i]; simpl; congruence. Qed.

Lemma set_objs_twice (w : world) (o1 o2 : list dict) :
  set_objs o2 (set_objs o1 w) = set_objs o2 w.
Proof. reflexivity. Qed.


(** ** Restart *)

Lemma list_set_same {A} (l : list A) (i : nat) (a : A) :
  nth_error l i = Some a -> list_set i a l = l.
Proof.
  revert i. induction l as [|x r IH]; intros [|i]; simpl; try discriminate.
  - now intros [= ->].
  - intros H. now rewrite IH.
Qed.

Lemma set_objs_same (w : world) : set_objs (objs w) w = w.
Proof. now destruct w. Qed.

(** The loop body up to the comparison with [now] *)
Lemma on_ready_farm_run (w : world) (now d : datetime) (i : nat) (f : dict) :
  nth_error (objs w) i = Some f ->
  dict_get "next_ready" f = Some (PDatetime d) ->
  on_ready_farm now i w
  = (if dt_instant (as_utc d) <=? dt_instant now then
       farm_set i "status" (PStr STATUS_READY) ;;;
       farm_set i "next_ready" PNone ;;;
       save
     else schedule_task_for_farm i)
      (set_objs (list_set i (with_utc d f) (objs w)) w).
Proof.
  intros Hf Hn. unfold on_ready_farm.
  assert (G : dict_get_none "next_ready" f = PDatetime d)
    by (unfold dict_get_none; now rewrite Hn).
  rewrite (bind_run _ _ _ _ _ (farm_get_run _ _ _ "next_ready" Hf)), G.
  unfold bind at 1. cbn [ret].
  rewrite (bind_run _ _ _ _ _ (farm_get_run _ _ _ "next_ready" Hf)), G.
  unfold with_utc, as_utc. destruct (dt_tz d) eqn:Etz.
  - rewrite (list_set_same _ _ _ Hf), set_objs_same. reflexivity.
  - rewrite (bind_run _ _ _ _ _ (farm_set_run _ _ _ _ _ Hf)). reflexivity.
Qed.

Lemma save_log (w : world) :
  exists evs, log (snd (save w)) = log w ++ evs /\
              forall e, In e evs -> exists x, e = EvSave x.
Proof.
  unfold save, bind, modify, emit, raise, ret. cbn.
  destruct (in_memory_data w) as [d|].
  - destruct (save_farms isoformat d) as [doc|]; cbn;
      (eexists; split; [reflexivity|]); intros e [<-|[]]; eauto.
  - exists []. split; [now rewrite app_nil_r | intros e []].
Qed.

Lemma save_coros (w : world) :
  coros (snd (save w)) = coros w /\ scheduled (snd (save w)) = scheduled w.
Proof.
  unfold save, bind, modify, emit, raise, ret. cbn.
  destruct (in_memory_data w) as [d|]; [|split; reflexivity].
  destruct (save_farms isoformat d); split; reflexivity.
Qed.


(** *** The invariant *)

Lemma Inv_quiet (w w' : world) : Inv w -> quiet w w' -> Inv w'.
Proof.
  intros [I1 I2 I3] (Q1 & Q2 & Q3 & Q4). split.
  - intros cid c i Hc Hcur Ha. rewrite Q1 in Hc. rewrite Q3 in Hcur.
    destruct (I1 cid c i Hc Hcur Ha) as (n & Hn & Hs).
    exists n. rewrite Q2. auto.
  - intros cid c Hc. rewrite Q1 in Hc. eauto.
  - unfold sched_valid in *. now rewrite Q1, Q2.
Qed.

Lemma armed_farm_cancelling (st : list frame) :
  armed_farm (mk_coro st Cancelling) = None.
Proof. reflexivity. Qed.

Lemma nth_error_list_set_inv {A} (l : list A) (i j : nat) (a b : A) :
  nth_error (list_set i a l) j = Some b ->
  (i = j /\ b = a) \/ (i <> j /\ nth_error l j = Some b).
Proof.
  intros H. destruct (Nat.eq_dec i j) as [<-|Hne].
  - left. split; [reflexivity|].
    destruct (nth_error l i) as [x|] eqn:E.
    + rewrite (nth_error_list_set_same _ _ _ _ E) in H. congruence.
    + exfalso. apply nth_error_None in E.
      assert (nth_error (list_set i a l) i <> None) by congruence.
      apply nth_error_Some in H0. rewrite length_list_set in H0. lia.
  - right. split; [assumption|]. now rewrite nth_error_list_set_other in H.
Qed.

(** Cancelling a task keeps the invariant. *)
Lemma Inv_cancel (w : world) (t : nat) (c : coro) :
  Inv w -> nth_error (coros w) t = Some c ->
  Inv (set_coros (list_set t (mk_coro (co_stack c) Cancelling) (coros w)) w).
Proof.
  intros [I1 I2 I3] Ht. split; cbn [coros set_coros scheduled current].
  - intros cid c' i Hc Hcur Ha.
    destruct (nth_error_list_set_inv _ _ _ _ _ Hc) as [[_ ->]|[_ Hc']].
    + discriminate.
    + apply (I1 cid c' i Hc' Hcur Ha).
  - intros cid c' Hc.
    destruct (nth_error_list_set_inv _ _ _ _ _ Hc) as [[_ ->]|[_ Hc']].
    + apply (I2 t c Ht).
    + eauto.
  - unfold sched_valid in *. cbn [coros set_coros scheduled].
    now rewrite length_list_set.
Qed.

(** After [cancel_old] no armed timer carries the name. *)
Lemma Inv_cancel_old (w : world) (n : string) :
  Inv w -> Inv (cancel_old n w) /\ no_armed_named n (cancel_old n w).
Proof.
  intros I. pose proof I as [I1 I2 I3]. unfold cancel_old.
  destruct (sched_get n (scheduled w)) as [t|] eqn:Es.
  - destruct (nth_error (coros w) t) as [c|] eqn:Ec.
    + destruct (co_state c) eqn:Est.
      * split; [now apply Inv_cancel|].
        intros cid c' i Hc Hcur Ha Hn. cbn [coros set_coros current] in *.
        destruct (nth_error_list_set_inv _ _ _ _ _ Hc) as [[_ ->]|[Hne Hc']];
          [discriminate|].
        destruct (I1 cid c' i Hc' Hcur Ha) as (n' & Hn' & Hs').
        change (obj_name w i = Some n) in Hn. congruence.
      * split; [now apply Inv_cancel|].
        intros cid c' i Hc Hcur Ha Hn. cbn [coros set_coros current] in *.
        destruct (nth_error_list_set_inv _ _ _ _ _ Hc) as [[_ ->]|[Hne Hc']];
          [discriminate|].
        destruct (I1 cid c' i Hc' Hcur Ha) as (n' & Hn' & Hs').
        change (obj_name w i = Some n) in Hn. congruence.
      * split; [assumption|].
        intros cid c' i Hc Hcur Ha Hn.
        destruct (I1 cid c' i Hc Hcur Ha) as (n' & Hn' & Hs').
        assert (cid = t) by congruence. subst cid.
        assert (c' = c) by congruence. subst c'.
        unfold armed_farm in Ha. rewrite Est in Ha. discriminate.
    + apply (sched_valid_get _ _ _ I3) in Es. apply nth_error_None in Ec. lia.
  - split; [assumption|].
    intros cid c' i Hc Hcur Ha Hn.
    destruct (I1 cid c' i Hc Hcur Ha) as (n' & Hn' & Hs'). congruence.
Qed.

(** Dropping the entry of a name no armed timer carries. *)
Lemma Inv_pop (w : world) (n : string) :
  Inv w -> no_armed_named n w ->
  Inv (set_scheduled (sched_pop n (scheduled w)) w).
Proof.
  intros [I1 I2 I3] Hno. split; cbn [coros scheduled set_scheduled current].
  - intros cid c i Hc Hcur Ha.
    destruct (I1 cid c i Hc Hcur Ha) as (n' & Hn' & Hs').
    exists n'. split; [exact Hn'|].
    rewrite sched_get_pop_other; [assumption|].
    intros ->. exact (Hno cid c i Hc Hcur Ha Hn').
  - exact I2.
  - unfold sched_valid in *. cbn [coros scheduled set_scheduled].
    clear -I3. induction (scheduled w) as [|[k v] r IH]; simpl; [constructor|].
    inversion I3; subst. destruct (String.eqb n k); [assumption|].
    constructor; auto.
Qed.

Lemma sched_valid_set (w : world) (n : string) (f : frame) :
  sched_valid w ->
  sched_valid (set_scheduled (sched_set n (List.length (coros w)) (scheduled w))
                 (set_coros (coros w ++ [mk_coro [f] Live]) w)).
Proof.
  unfold sched_valid. cbn [coros scheduled set_coros set_scheduled].
  rewrite length_app. cbn [List.length]. intros H.
  induction (scheduled w) as [|[k v] r IH]; simpl.
  - constructor; [simpl; lia | constructor].
  - inversion H; subst. simpl in *. destruct (String.eqb n k).
    + constructor; [simpl; lia|].
      eapply Forall_impl; [|eassumption]. simpl. intros; lia.
    + constructor; [simpl; lia | auto].
Qed.

(** Recording a new timer under a name no armed timer carries. *)
Lemma Inv_arm (w : world) (n : string) (farm : nat) (f : frame) :
  Inv w -> no_armed_named n w -> obj_name w farm = Some n ->
  timer_farm f = Some farm ->
  Inv (set_scheduled (sched_set n (List.length (coros w)) (scheduled w))
         (set_coros (coros w ++ [mk_coro [f] Live]) w)).
Proof.
  intros [I1 I2 I3] Hno Hn Hf. split.
  - cbn [coros scheduled set_coros set_scheduled current]. intros cid c i Hc Hcur Ha.
    change (obj_name (set_scheduled _ _) i) with (obj_name w i).
    destruct (Nat.lt_ge_cases cid (List.length (coros w))) as [Hlt|Hge].
    + rewrite nth_error_app1 in Hc by assumption.
      destruct (I1 cid c i Hc Hcur Ha) as (n' & Hn' & Hs').
      exists n'. split; [assumption|].
      rewrite sched_get_set_other; [assumption|].
      intros ->. exact (Hno cid c i Hc Hcur Ha Hn').
    + rewrite nth_error_app2 in Hc by assumption.
      destruct (cid - List.length (coros w))%nat as [|k] eqn:E.
      * simpl in Hc. injection Hc as <-. cbn in Ha.
        assert (i = farm) by congruence. subst i.
        exists n. split; [assumption|].
        replace cid with (List.length (coros w)) by lia.
        apply sched_get_set_same.
      * simpl in Hc. destruct k; discriminate.
  - cbn [coros set_coros set_scheduled]. intros cid c Hc.
    destruct (Nat.lt_ge_cases cid (List.length (coros w))) as [Hlt|Hge].
    + rewrite nth_error_app1 in Hc by assumption. eauto.
    + rewrite nth_error_app2 in Hc by assumption.
      destruct (cid - List.length (coros w))%nat as [|k].
      * simpl in Hc. now injection Hc as <-.
      * simpl in Hc. destruct k; discriminate.
  - now apply sched_valid_set.
Qed.

(** *** The invariant through the code *)

Lemma keeps_inv_refl (w : world) : keeps_inv w w.
Proof. intros H. auto. Qed.

Lemma keeps_inv_trans (a b c : world) :
  keeps_inv a b -> keeps_inv b c -> keeps_inv a c.
Proof.
  intros H1 H2 I. destruct (H1 I) as [I' E']. destruct (H2 I') as [I'' E''].
  split; [assumption | congruence].
Qed.

Lemma quiet_keeps_inv {A} (m : M A) : respects quiet m -> respects keeps_inv m.
Proof.
  intros H w I. split; [eapply Inv_quiet; eauto | apply H].
Qed.

Create HintDb inv_frame.

Ltac inv_frame :=
  frame keeps_inv_refl keeps_inv_trans
        ltac:(first [ apply keeps_inv_refl
                    | apply quiet_keeps_inv; solve [auto with quiet_frame]
                    | solve [auto with inv_frame] ]).

Lemma farm_name_raise (w : world) (i : nat) :
  obj_name w i = None -> farm_name i w = (None, w).
Proof.
  unfold obj_name, farm_name, farm_item, get_farm, bind, gets, lift_option.
  destruct (nth_error (objs w) i) as [f|]; [|reflexivity]. unfold ret.
  destruct (dict_get "name" f) as [[]|]; try reflexivity. discriminate.
Qed.

Lemma no_armed_named_ext (n : string) (w w' : world) :
  coros w' = coros w -> current w' = current w -> objs w' = objs w ->
  no_armed_named n w -> no_armed_named n w'.
Proof.
  intros Hc Hu Ho H cid c i Hn Hcur Ha. unfold obj_name. rewrite Ho.
  rewrite Hc in Hn. rewrite Hu in Hcur. exact (H cid c i Hn Hcur Ha).
Qed.

Lemma cancel_old_current (n : string) (w : world) :
  current (cancel_old n w) = current w.
Proof.
  unfold cancel_old.
  destruct (sched_get n (scheduled w)) as [t|]; [|reflexivity].
  destruct (nth_error (coros w) t) as [c|]; [|reflexivity].
  destruct (co_state c); reflexivity.
Qed.

Lemma schedule_task_keeps_inv (farm : nat) :
  respects keeps_inv (schedule_task_for_farm farm).
Proof.
  intros w I. destruct (obj_name w farm) as [n|] eqn:Hn.
  - rewrite (schedule_task_run w farm n Hn (inv_valid _ I)). cbn [snd].
    destruct (Inv_cancel_old w n I) as [I' Hno]. unfold rearmed.
    destruct (nth_error (objs w) farm) as [f|]; [|now rewrite cancel_old_current].
    destruct (truthy _); [|now rewrite cancel_old_current].
    split; [|cbn; apply cancel_old_current].
    rewrite <- (cancel_old_length n w).
    apply (Inv_arm (cancel_old n w) n farm); auto.
    unfold obj_name. now rewrite cancel_old_objs.
  - unfold schedule_task_for_farm.
    rewrite (bind_raise _ _ _ _ (farm_name_raise _ _ Hn)). cbn. auto.
Qed.
#[local] Hint Resolve schedule_task_keeps_inv : inv_frame.

Lemma quiet_step (w w' : world) : quiet w w' -> keeps_inv w w'.
Proof. intros Q I. split; [eapply Inv_quiet; eauto | apply Q]. Qed.

Ltac inv_frame ::=
  frame keeps_inv_refl keeps_inv_trans
        ltac:(first [ apply keeps_inv_refl
                    | apply quiet_keeps_inv; solve [auto with quiet_frame]
                    | apply quiet_step; solve [repeat split; auto]
                    | solve [auto with inv_frame] ]).

Lemma cancel_and_pop_eq (n : string) (w : world) :
  cancel_and_pop n w
  = if old_pending n w
    then set_scheduled (sched_pop n (scheduled w)) (cancel_old n w)
    else cancel_old n w.
Proof.
  unfold cancel_and_pop, cancel_old, old_pending.
  destruct (sched_get n (scheduled w)) as [t|]; [|reflexivity].
  destruct (nth_error (coros w) t) as [c|]; [|reflexivity].
  destruct (co_state c); reflexivity.
Qed.

Lemma Inv_cancel_and_pop (w : world) (n : string) :
  Inv w ->
  Inv (cancel_and_pop n w) /\ no_armed_named n (cancel_and_pop n w)
  /\ current (cancel_and_pop n w) = current w
  /\ objs (cancel_and_pop n w) = objs w
  /\ List.length (coros (cancel_and_pop n w)) = List.length (coros w).
Proof.
  intros I. destruct (Inv_cancel_old w n I) as [I' Hno].
  rewrite cancel_and_pop_eq. destruct (old_pending n w).
  - split.
    { rewrite <- (cancel_old_scheduled n w). now apply Inv_pop. }
    split; [eapply no_armed_named_ext; [| | |exact Hno]; reflexivity|].
    cbn [current objs coros set_scheduled].
    split; [apply cancel_old_current|].
    split; [apply cancel_old_objs | apply cancel_old_length].
  - split; [assumption|]. split; [assumption|].
    split; [apply cancel_old_current|].
    split; [apply cancel_old_objs | apply cancel_old_length].
Qed.

(** Lines 376-379 and 517-520 as they stand in the source *)
Lemma cancel_pop_block_run (w : world) (name : string) :
  sched_valid w ->
  (match sched_get name (scheduled w) with
   | Some t =>
       d <- task_done t ;;
       when (negb d)
         (task_cancel t ;;;
          modify (fun w => set_scheduled (sched_pop name (scheduled w)) w))
   | None => ret tt
   end) w = (Some tt, cancel_and_pop name w).
Proof.
  intros Hv. unfold cancel_and_pop.
  destruct (sched_get name (scheduled w)) as [t|] eqn:E; [|reflexivity].
  destruct (nth_error (coros w) t) as [c|] eqn:Ec.
  - rewrite (bind_run _ _ _ _ _ (task_done_run _ _ _ Ec)).
    destruct (co_state c) eqn:Es; cbn [negb when]; try reflexivity;
      rewrite (bind_run _ _ _ _ _ (task_cancel_run _ _ _ Ec)), Es; reflexivity.
  - apply (sched_valid_get _ _ _ Hv) in E. apply nth_error_None in Ec. lia.
Qed.

Lemma cancel_pop_then {A} (name : string) (K : M A) :
  respects keeps_inv K ->
  respects keeps_inv
    (task <- gets (fun w => sched_get name (scheduled w)) ;;
     match task with
     | Some t =>
         d <- task_done t ;;
         when (negb d)
           (task_cancel t ;;;
            modify (fun w => set_scheduled (sched_pop name (scheduled w)) w))
     | None => ret tt
     end ;;; K).
Proof.
  intros HK w I.
  rewrite (bind_run _ _ w w (sched_get name (scheduled w))) by reflexivity.
  rewrite (bind_run _ _ _ _ _ (cancel_pop_block_run w name (inv_valid _ I))).
  destruct (Inv_cancel_and_pop w name I) as (I' & _ & Hc & _).
  destruct (HK _ I') as [I'' Hc'']. split; [assumption | congruence].
Qed.

Lemma start_after_embed_keeps_inv (l : kira_locals) :
  respects keeps_inv (start_after_embed l).
Proof.
  intros w I. destruct (obj_name w (kl_farm l)) as [n|] eqn:Hn.
  - destruct (start_arms_failsafe w l n Hn (inv_valid _ I)) as (k & E & Q).
    rewrite E.
    destruct (Inv_cancel_and_pop w n I) as (I' & Hno & Hc & Ho & Hl).
    rewrite <- Hl.
    assert (I2 : Inv (set_scheduled
                (sched_set n (List.length (coros (cancel_and_pop n w)))
                   (scheduled (cancel_and_pop n w)))
                (set_coros
                   (coros (cancel_and_pop n w) ++
                    [mk_coro [FFailsafeNew (kl_farm l) (kl_bot_channel l)] Live])
                   (cancel_and_pop n w)))).
    { apply (Inv_arm _ n (kl_farm l)); auto.
      unfold obj_name. now rewrite Ho. }
    destruct (quiet_keeps_inv k Q _ I2) as [I3 Hc3].
    split; [assumption|]. rewrite Hc3. exact Hc.
  - unfold start_after_embed.
    rewrite (bind_raise _ _ _ _ (farm_name_raise _ _ Hn)). cbn. auto.
Qed.
#[local] Hint Resolve start_after_embed_keeps_inv : inv_frame.

Lemma call_embed_keeps_inv (k : frame) (code : M ctl) :
  respects keeps_inv code -> respects keeps_inv (call_embed k code).
Proof. intros H. unfold call_embed. inv_frame. Qed.

Lemma finish_after_embed_keeps_inv (l : kira_locals) (nr : datetime) :
  respects keeps_inv (finish_after_embed l nr).
Proof. unfold finish_after_embed. inv_frame. Qed.
#[local] Hint Resolve finish_after_embed_keeps_inv : inv_frame.

Lemma failsafe_after_embed_keeps_inv (farm : nat) (bc : bool) (nr : datetime) :
  respects keeps_inv (failsafe_after_embed farm bc nr).
Proof. unfold failsafe_after_embed. inv_frame. Qed.
#[local] Hint Resolve failsafe_after_embed_keeps_inv : inv_frame.

Lemma failsafe_after_sleep_keeps_inv (farm : nat) (bc : bool) :
  respects keeps_inv (failsafe_after_sleep farm bc).
Proof. unfold failsafe_after_sleep, call_embed. inv_frame. Qed.
#[local] Hint Resolve failsafe_after_sleep_keeps_inv : inv_frame.

Lemma process_kira_keeps_inv (m : message) :
  respects keeps_inv (process_kira_message m).
Proof.
  unfold process_kira_message, call_embed.
  assert (N1 := normalize_duration_quiet).
  destruct (m_groups m) as [[[t u] msg]|]; [|inv_frame].
  destruct (split_bar msg) as [[a b]|]; [|inv_frame].
  apply (respects_bind _ keeps_inv_trans); [inv_frame|]. intros [farm|]; [|inv_frame].
  apply (respects_bind _ keeps_inv_trans); [inv_frame|]. intros bc.
  apply (respects_bind _ keeps_inv_trans).
  { apply quiet_keeps_inv, N1. discriminate. }
  intros _. apply (respects_bind _ keeps_inv_trans).
  { apply quiet_keeps_inv, N1. discriminate. }
  intros _. inv_frame.
Qed.
#[local] Hint Resolve process_kira_keeps_inv : inv_frame.

Lemma removefarm_keeps_inv (arg : string) : respects keeps_inv (removefarm arg).
Proof.
  unfold removefarm. cbv zeta.
  apply (respects_bind _ keeps_inv_trans); [inv_frame|]. intros fs.
  apply (respects_bind _ keeps_inv_trans); [inv_frame|]. intros [farm|]; [|inv_frame].
  apply (respects_bind _ keeps_inv_trans); [inv_frame|]. intros name.
  apply cancel_pop_then. unfold call_embed. inv_frame.
Qed.

Lemma obj_name_app (w : world) (extra : list dict) (i : nat) (n : string) :
  obj_name w i = Some n -> obj_name (set_objs (objs w ++ extra) w) i = Some n.
Proof.
  unfold obj_name. cbn [objs set_objs].
  destruct (nth_error (objs w) i) as [f|] eqn:E; [|discriminate].
  rewrite nth_error_app1; [now rewrite E|].
  apply nth_error_Some. congruence.
Qed.

Lemma addfarm_keeps_inv (name coords total_output : string) (rm : Z) (rh : Q) :
  respects keeps_inv (addfarm name coords total_output rm rh).
Proof.
  unfold addfarm, call_embed.
  apply (respects_bind _ keeps_inv_trans); [inv_frame|]. intros fs.
  apply (respects_bind _ keeps_inv_trans); [inv_frame|]. intros [dup|]; [inv_frame|].
  apply (respects_bind _ keeps_inv_trans); [inv_frame|]. intros runtime.
  apply (respects_bind _ keeps_inv_trans); [inv_frame|]. intros regrow.
  cbv zeta. intros w.
  rewrite (bind_run _ _ w w (objs w)) by reflexivity.
  match goal with
  | |- context [bind (modify (set_objs ?o)) ?K w] =>
      rewrite (bind_run (modify (set_objs o)) K w (set_objs o w) tt) by reflexivity;
      assert (HK : respects keeps_inv (K tt)) by inv_frame
  end.
  eapply keeps_inv_trans; [|apply HK].
  apply quiet_step. repeat split; auto. intros i n. apply obj_name_app.
Qed.

Lemma editfarm_keeps_inv (arg : string) (coords total_output : option string)
    (rm : option Z) (rh : option Q) :
  respects keeps_inv (editfarm arg coords total_output rm rh).
Proof. unfold editfarm, call_embed. inv_frame. Qed.

Lemma on_ready_farm_keeps_inv (now : datetime) (farm : nat) :
  respects keeps_inv (on_ready_farm now farm).
Proof. unfold on_ready_farm. inv_frame. Qed.
#[local] Hint Resolve on_ready_farm_keeps_inv : inv_frame.

Lemma on_ready_schedule_keeps_inv (now : datetime) (l : list nat) :
  respects keeps_inv (on_ready_schedule now l).
Proof.
  induction l as [|i r IH]; cbn [on_ready_schedule]; inv_frame.
Qed.
#[local] Hint Resolve on_ready_schedule_keeps_inv : inv_frame.

Lemma on_ready_tail_keeps_inv (now : datetime) :
  respects keeps_inv (on_ready_tail now).
Proof. unfold on_ready_tail, call_embed. inv_frame. Qed.
#[local] Hint Resolve on_ready_tail_keeps_inv : inv_frame.

Lemma on_ready_catchup_keeps_inv (now : datetime) (msgs : list message) :
  respects keeps_inv (on_ready_catchup now msgs).
Proof.
  induction msgs as [|m r IH]; cbn [on_ready_catchup]; inv_frame.
Qed.
#[local] Hint Resolve on_ready_catchup_keeps_inv : inv_frame.

Lemma on_message_keeps_inv (m : message) : respects keeps_inv (on_message m).
Proof. unfold on_message. inv_frame. Qed.

Lemma after_keeps_inv (f : frame) (r : response) : respects keeps_inv (after f r).
Proof.
  destruct f; cbn [after]; unfold on_ready_after_sync; inv_frame.
Qed.
#[local] Hint Resolve after_keeps_inv : inv_frame.

Lemma unwind_keeps_inv (stack : list frame) (r : response) :
  respects keeps_inv (unwind stack r).
Proof.
  revert r. induction stack as [|f rest IH]; intros r; cbn [unwind]; inv_frame.
Qed.

(** *** What a handler leaves on its stack *)

Lemma yields_ret {A} (P : A -> Prop) (a : A) : P a -> yields P (ret a).
Proof. intros H w b [= <-]. exact H. Qed.

Lemma yields_raise {A} (P : A -> Prop) : yields P raise.
Proof. intros w a. discriminate. Qed.

Lemma yields_bind {A B} (Q : A -> Prop) (P : B -> Prop) (m : M A) (k : A -> M B) :
  yields Q m -> (forall a, Q a -> yields P (k a)) -> yields P (bind m k).
Proof.
  intros Hm Hk w b. unfold bind. specialize (Hm w).
  destruct (m w) as [[a|] w1]; simpl in *; [|discriminate].
  apply Hk. now apply Hm.
Qed.

Lemma yields_true {A} (m : M A) : yields (fun _ => True) m.
Proof. intros w a _. exact I. Qed.

Lemma yields_then {A B} (P : B -> Prop) (m : M A) (k : A -> M B) :
  (forall a, yields P (k a)) -> yields P (bind m k).
Proof. intros H. apply (yields_bind (fun _ => True)); auto using yields_true. Qed.

Create HintDb yields_db.

Ltac yields_step :=
  first
    [ solve [auto with yields_db]
    | apply yields_raise
    | apply yields_ret; solve [exact I | reflexivity]
    | apply yields_then; intros
    | match goal with
      | |- yields _ (match ?x with _ => _ end) => destruct x
      | |- yields _ (if ?x then _ else _) => destruct x
      | |- yields _ (let _ := _ in _) => cbv zeta
      end ].

Ltac yields_auto := repeat yields_step.

Lemma timer_free_app (a b : list frame) :
  timer_free a = true -> timer_free b = true -> timer_free (a ++ b) = true.
Proof. unfold timer_free. rewrite forallb_app. now intros -> ->. Qed.

Lemma update_farms_embed_yields : yields ctl_ok update_farms_embed.
Proof. unfold update_farms_embed. yields_auto. Qed.

Lemma call_embed_yields (k : frame) (code : M ctl) :
  is_timer k = false -> yields ctl_ok code -> yields ctl_ok (call_embed k code).
Proof.
  intros Hk Hc. unfold call_embed.
  apply (yields_bind ctl_ok); [apply update_farms_embed_yields|].
  intros [|fs] H; [assumption|]. apply yields_ret. cbn in *.
  apply timer_free_app; [assumption|]. cbn. now rewrite Hk.
Qed.

Ltac yields_step ::=
  first
    [ solve [auto with yields_db]
    | match goal with
      | |- yields _ (call_embed _ _) => apply call_embed_yields; [reflexivity|]
      end
    | apply yields_raise
    | apply yields_ret; solve [exact I | reflexivity]
    | apply yields_then; intros
    | match goal with
      | |- yields _ (match ?x with _ => _ end) => destruct x
      | |- yields _ (if ?x then _ else _) => destruct x
      | |- yields _ (let _ := _ in _) => cbv zeta
      end ].

Lemma start_after_send_yields (l : kira_locals) : yields ctl_ok (start_after_send l).
Proof. unfold start_after_send. yields_auto. Qed.
#[local] Hint Resolve start_after_send_yields : yields_db.

Lemma start_after_embed_yields (l : kira_locals) :
  yields ctl_ok (start_after_embed l).
Proof. unfold start_after_embed. yields_auto. Qed.
#[local] Hint Resolve start_after_embed_yields : yields_db.

Lemma finish_after_embed_yields (l : kira_locals) (nr : datetime) :
  yields ctl_ok (finish_after_embed l nr).
Proof. unfold finish_after_embed. yields_auto. Qed.
#[local] Hint Resolve finish_after_embed_yields : yields_db.

Lemma failsafe_after_embed_yields (farm : nat) (bc : bool) (nr : datetime) :
  yields ctl_ok (failsafe_after_embed farm bc nr).
Proof. unfold failsafe_after_embed. yields_auto. Qed.
#[local] Hint Resolve failsafe_after_embed_yields : yields_db.

Lemma notify_after_embed_yields (farm : nat) :
  yields ctl_ok (notify_after_embed farm).
Proof. unfold notify_after_embed. yields_auto. Qed.
#[local] Hint Resolve notify_after_embed_yields : yields_db.

Lemma command_after_embed_yields (n : string) :
  yields ctl_ok (command_after_embed n).
Proof. unfold command_after_embed. yields_auto. Qed.
#[local] Hint Resolve command_after_embed_yields : yields_db.

Lemma command_refused_yields (n : string) : yields ctl_ok (command_refused n).
Proof. unfold command_refused. yields_auto. Qed.
#[local] Hint Resolve command_refused_yields : yields_db.

Lemma notify_farm_ready_plain_yields (farm : nat) :
  yields ctl_ok (notify_farm_ready_plain farm).
Proof.
  unfold notify_farm_ready_plain. yields_auto.
Qed.
#[local] Hint Resolve notify_farm_ready_plain_yields : yields_db.

Lemma failsafe_after_sleep_yields (farm : nat) (bc : bool) :
  yields ctl_ok (failsafe_after_sleep farm bc).
Proof.
  unfold failsafe_after_sleep. yields_auto.
Qed.
#[local] Hint Resolve failsafe_after_sleep_yields : yields_db.

Lemma process_kira_yields (m : message) : yields ctl_ok (process_kira_message m).
Proof.
  unfold process_kira_message. yields_auto.
Qed.
#[local] Hint Resolve process_kira_yields : yields_db.

Lemma removefarm_yields (arg : string) : yields ctl_ok (removefarm arg).
Proof. unfold removefarm. yields_auto. Qed.

Lemma addfarm_yields (name coords total_output : string) (rm : Z) (rh : Q) :
  yields ctl_ok (addfarm name coords total_output rm rh).
Proof. unfold addfarm. yields_auto. Qed.

Lemma editfarm_yields (arg : string) (coords total_output : option string)
    (rm : option Z) (rh : option Q) :
  yields ctl_ok (editfarm arg coords total_output rm rh).
Proof. unfold editfarm. yields_auto. Qed.

Lemma on_ready_tail_yields (now : datetime) : yields ctl_ok (on_ready_tail now).
Proof. unfold on_ready_tail. yields_auto. Qed.
#[local] Hint Resolve on_ready_tail_yields : yields_db.

Lemma on_ready_catchup_yields (now : datetime) (msgs : list message) :
  yields ctl_ok (on_ready_catchup now msgs).
Proof.
  induction msgs as [|m r IH]; cbn [on_ready_catchup]; [yields_auto|].
  destruct (String.eqb _ _); [|assumption].
  apply (yields_bind ctl_ok); [apply process_kira_yields|].
  intros [|fs] H; [assumption|]. apply yields_ret. cbn in *.
  apply timer_free_app; [assumption | reflexivity].
Qed.
#[local] Hint Resolve on_ready_catchup_yields : yields_db.

Lemma on_message_yields (m : message) : yields ctl_ok (on_message m).
Proof. unfold on_message. yields_auto. Qed.

Lemma after_yields (f : frame) (r : response) :
  match f with FFailsafeNew _ _ | FNotifyNew _ => False | _ => True end ->
  yields ctl_ok (after f r).
Proof.
  destruct f; cbn [after]; intros H; try contradiction;
    unfold embed_recreate, on_ready_after_sync; yields_auto.
Qed.

(** *** The invariant through the event loop *)

Lemma Inv_set_current (w : world) (x : option nat) :
  Inv w -> current w = None -> Inv (set_current x w).
Proof.
  intros [I1 I2 I3] Hc. split; cbn [coros scheduled current set_current].
  - intros cid c i Hn _ Ha. apply (I1 cid c i Hn); [congruence | assumption].
  - exact I2.
  - exact I3.
Qed.

(** The running coroutine is put back with its new stack. *)
Lemma Inv_finish (w1 : world) (cid : nat) (c' : coro) :
  Inv w1 -> current w1 = Some cid ->
  stack_ok (co_stack c') = true ->
  (forall i, armed_farm c' = Some i ->
             exists n, obj_name w1 i = Some n /\
                       sched_get n (scheduled w1) = Some cid) ->
  Inv (set_current None (set_coros (list_set cid c' (coros w1)) w1)).
Proof.
  intros [I1 I2 I3] Hcur Hst Harm. split;
    cbn [coros scheduled current set_current set_coros].
  - intros cid' c i Hn _ Ha.
    change (obj_name (set_current None _) i) with (obj_name w1 i).
    destruct (nth_error_list_set_inv _ _ _ _ _ Hn) as [[<- ->]|[Hne Hn']].
    + now apply Harm.
    + apply (I1 cid' c i Hn'); [congruence | assumption].
  - intros cid' c Hn.
    destruct (nth_error_list_set_inv _ _ _ _ _ Hn) as [[<- ->]|[Hne Hn']]; eauto.
  - unfold sched_valid in *. cbn [coros scheduled set_current set_coros].
    now rewrite length_list_set.
Qed.

Lemma timer_free_not_armed (st : list frame) (s : costate) :
  timer_free st = true -> armed_farm (mk_coro st s) = None.
Proof.
  unfold armed_farm. cbn [co_state co_stack]. destruct s; try reflexivity.
  destruct st as [|f [|g r]]; try reflexivity.
  cbn. unfold is_timer. destruct (timer_farm f); [discriminate | reflexivity].
Qed.

Lemma timer_free_stack_ok (st : list frame) :
  timer_free st = true -> stack_ok st = true.
Proof. destruct st as [|f [|g r]]; auto. Qed.

Lemma run_coro_inv (w : world) (cid : nat) (body : M (list frame)) :
  Inv w -> current w = None ->
  respects keeps_inv body ->
  (forall r w1, body (set_current (Some cid) w) = (Some r, w1) ->
                result_ok w cid r w1) ->
  Inv (run_coro cid body w) /\ current (run_coro cid body w) = None.
Proof.
  intros I Hc Hb Hr. unfold run_coro.
  pose proof (Hb (set_current (Some cid) w) (Inv_set_current w (Some cid) I Hc))
    as [I1 Hc1].
  specialize (Hr).
  destruct (body (set_current (Some cid) w)) as [r w1] eqn:E.
  cbn [snd] in I1, Hc1. cbn [current set_current] in Hc1.
  split; [|reflexivity].
  destruct r as [[|f fs]|].
  - apply Inv_finish; auto. intros i. discriminate.
  - destruct (Hr _ _ eq_refl) as [Hfree | (c & f' & farm & Hn & Hl & Ha & Hf & Ht & Hw)].
    + apply Inv_finish; auto.
      * cbn [co_stack]. now apply timer_free_stack_ok.
      * intros i Hi. rewrite timer_free_not_armed in Hi by assumption. discriminate.
    + injection Hf as -> ->. subst w1. cbn [coros set_current]. rewrite Hn, Hl.
      apply (Inv_finish (set_current (Some cid) w) cid (mk_coro [f'] Live)); auto.
      intros i Hi. cbn in Hi. assert (i = farm) by congruence. subst i.
      destruct (inv_sched _ I cid c farm Hn) as (n & Hn1 & Hn2);
        [congruence | assumption |].
      exists n. split; assumption.
  - apply Inv_finish; auto. intros i. discriminate.
Qed.

Lemma Inv_new_slot (w : world) :
  Inv w -> Inv (set_coros (coros w ++ [mk_coro [] Live]) w).
Proof.
  intros [I1 I2 I3]. split; cbn [coros scheduled current set_coros].
  - intros cid c i Hn Hcur Ha.
    change (obj_name (set_coros _ w) i) with (obj_name w i).
    destruct (Nat.lt_ge_cases cid (List.length (coros w))) as [Hlt|Hge].
    + rewrite nth_error_app1 in Hn by assumption. eauto.
    + rewrite nth_error_app2 in Hn by assumption.
      destruct (cid - List.length (coros w))%nat as [|k]; simpl in Hn.
      * injection Hn as <-. discriminate.
      * destruct k; discriminate.
  - intros cid c Hn.
    destruct (Nat.lt_ge_cases cid (List.length (coros w))) as [Hlt|Hge].
    + rewrite nth_error_app1 in Hn by assumption. eauto.
    + rewrite nth_error_app2 in Hn by assumption.
      destruct (cid - List.length (coros w))%nat as [|k]; simpl in Hn.
      * now injection Hn as <-.
      * destruct k; discriminate.
  - unfold sched_valid in *. cbn [coros scheduled set_coros].
    rewrite length_app. eapply Forall_impl; [|exact I3]. simpl. intros; lia.
Qed.

Lemma spawn_inv (w : world) (handler : M ctl) :
  Inv w -> current w = None ->
  respects keeps_inv handler -> yields ctl_ok handler ->
  Inv (spawn handler w) /\ current (spawn handler w) = None.
Proof.
  intros I Hc Hk Hy. unfold spawn. apply run_coro_inv.
  - now apply Inv_new_slot.
  - exact Hc.
  - inv_frame.
  - intros r w1 E. left. unfold bind in E.
    pose proof (Hy (set_current (Some (List.length (coros w)))
                      (set_coros (coros w ++ [mk_coro [] Live]) w))) as Y.
    destruct (handler _) as [[c|] w2]; [|discriminate].
    cbn in E. injection E as <- <-.
    specialize (Y c eq_refl). destruct c; [reflexivity | exact Y].
Qed.

Lemma unwind_yields (stack : list frame) (r : response) :
  timer_free stack = true ->
  yields (fun fs => timer_free fs = true) (unwind stack r).
Proof.
  revert r. induction stack as [|f rest IH]; intros r H; cbn [unwind].
  - now apply yields_ret.
  - cbn in H. apply andb_prop in H as [Hf Hrest].
    apply (yields_bind ctl_ok).
    + apply after_yields. destruct f; try exact I; discriminate.
    + intros [|fs] Hc; [now apply IH|].
      apply yields_ret. now apply timer_free_app.
Qed.

Lemma failsafe_start_result (farm : nat) (bc : bool) (w w1 : world) (a : ctl) :
  failsafe_start farm bc w = (Some a, w1) ->
  w1 = w /\ exists wake, a = Suspended [FFailsafeSleep farm bc wake].
Proof.
  unfold failsafe_start, farm_timedelta, farm_item, get_farm, bind, gets,
    lift_option, ret.
  destruct (nth_error (objs w) farm) as [f|]; [|discriminate]. unfold ret.
  destruct (dict_get "runtime" f) as [[]|]; try discriminate.
  intros [= <- <-]. eauto.
Qed.

Lemma schedule_notification_result (farm : nat) (w w1 : world) (a : ctl) :
  schedule_notification_for_farm farm w = (Some a, w1) ->
  ctl_ok a \/ (w1 = w /\ exists wake, a = Suspended [FNotifySleep farm wake]).
Proof.
  intros E.
  assert (N : forall v b v1, notify_farm_ready_plain farm v = (Some b, v1) -> ctl_ok b).
  { intros v b v1 Hv. apply (notify_farm_ready_plain_yields farm v). now rewrite Hv. }
  assert (S : forall v b v1,
             (farm_set farm "next_ready" PNone ;;; save ;;; ret Returned) v
             = (Some b, v1) -> ctl_ok b).
  { intros v b v1 Hv.
    assert (Y : yields ctl_ok
                  (farm_set farm "next_ready" PNone ;;; save ;;; ret Returned))
      by yields_auto.
    apply (Y v). now rewrite Hv. }
  unfold schedule_notification_for_farm in E.
  unfold bind at 1, get_farm at 1, bind at 1, gets at 1, lift_option in E.
  destruct (nth_error (objs w) farm) as [f|]; [|discriminate]. unfold ret at 1 in E.
  destruct (dict_get "next_ready" f) as [v|].
  - destruct v; try (injection E as <- <-; left; exact I);
      try discriminate; cbn [option_map] in E.
    + destruct (fromisoformat s) as [d|]; cbn [option_map] in E;
        [|left; eapply S; exact E].
      unfold bind at 1, now_utc, bind at 1, gets, ret at 1 in E.
      destruct (_ <=? 0); [left; eapply N; exact E|].
      injection E as <- <-. right. eauto.
    + unfold bind at 1, now_utc, bind at 1, gets, ret at 1 in E.
      destruct (_ <=? 0); [left; eapply N; exact E|].
      injection E as <- <-. right. eauto.
  - injection E as <- <-. left. exact I.
Qed.

Lemma unwind_result (w : world) (cid : nat) (f : frame) (rest : list frame)
    (r : response) (fs : list frame) (w1 : world) :
  Inv w -> nth_error (coros w) cid = Some (mk_coro (f :: rest) Live) ->
  unwind (f :: rest) r (set_current (Some cid) w) = (Some fs, w1) ->
  result_ok w cid fs w1.
Proof.
  intros I Hn E.
  pose proof (inv_stack _ I cid _ Hn) as Hst. cbn [co_stack] in Hst.
  assert (Free : timer_free (f :: rest) = true -> result_ok w cid fs w1).
  { intros H. left. apply (unwind_yields _ r H (set_current (Some cid) w)).
    now rewrite E. }
  destruct rest as [|g rest]; [|now apply Free].
  destruct (is_timer f) eqn:Ht; [|apply Free; cbn; now rewrite Ht].
  cbn [unwind] in E. unfold bind at 1 in E.
  destruct (after f r (set_current (Some cid) w)) as [[c|] w2] eqn:Ea;
    [|discriminate].
  destruct f; try discriminate Ht; cbn [after] in Ea.
  - (* a new failsafe task *)
    destruct (failsafe_start_result _ _ _ _ _ Ea) as [-> [wake ->]].
    cbn in E. injection E as <- <-. right.
    eexists _, _, farm. repeat split; try eassumption; reflexivity.
  - (* the failsafe wakes up *)
    pose proof (failsafe_after_sleep_yields farm bot_channel
                  (set_current (Some cid) w) c) as Y.
    rewrite Ea in Y. specialize (Y eq_refl).
    destruct c as [|gs]; cbn in E; injection E as <- <-; left;
      [reflexivity | now rewrite app_nil_r].
  - (* a new notification task *)
    destruct (schedule_notification_result _ _ _ _ Ea) as [Y | [-> [wake ->]]].
    + destruct c as [|gs]; cbn in E; injection E as <- <-; left;
        [reflexivity | now rewrite app_nil_r].
    + cbn in E. injection E as <- <-. right.
      eexists _, _, farm. repeat split; try eassumption; reflexivity.
  - (* the notification task wakes up *)
    pose proof (notify_farm_ready_plain_yields farm
                  (set_current (Some cid) w) c) as Y.
    rewrite Ea in Y. specialize (Y eq_refl).
    destruct c as [|gs]; cbn in E; injection E as <- <-; left;
      [reflexivity | now rewrite app_nil_r].
Qed.

(** Every step of the event loop keeps the invariant. *)
Lemma step_inv (l : label) (w : world) :
  Inv w -> current w = None ->
  Inv (step l w) /\ current (step l w) = None.
Proof.
  intros I Hc. destruct l; cbn [step].
  - split; [|exact Hc]. eapply Inv_quiet; [exact I|]. repeat split; auto.
  - split; [|exact Hc]. eapply Inv_quiet; [exact I|]. repeat split; auto.
  - apply spawn_inv; auto using on_message_keeps_inv, on_message_yields.
  - apply spawn_inv; auto.
    + unfold on_ready. inv_frame.
    + unfold on_ready. now apply yields_ret.
  - apply spawn_inv; auto using addfarm_keeps_inv, addfarm_yields.
  - apply spawn_inv; auto using editfarm_keeps_inv, editfarm_yields.
  - apply spawn_inv; auto using removefarm_keeps_inv, removefarm_yields.
  - destruct (nth_error (coros w) cid) as [[[|f rest] []]|] eqn:Hn; auto.
    destruct (accepts (clock w) f r); auto.
    apply run_coro_inv; auto using unwind_keeps_inv.
    intros fs w1 E. eapply unwind_result; eassumption.
  - destruct (nth_error (coros w) cid) as [[st []]|] eqn:Hn; auto.
    split; [|exact Hc].
    replace (set_coros (list_set cid (mk_coro [] Finished) (coros w)) w)
      with (set_current None
              (set_coros (list_set cid (mk_coro [] Finished) (coros w)) w))
      by (destruct w; cbn in *; now subst).
    assert (I' : Inv (set_current (Some cid) w)) by now apply Inv_set_current.
    apply (Inv_finish (set_current (Some cid) w) cid (mk_coro [] Finished));
      auto. intros i. discriminate.
Qed.

Lemma run_inv (ls : list label) (w : world) :
  Inv w -> current w = None ->
  Inv (run ls w) /\ current (run ls w) = None.
Proof.
  revert w. induction ls as [|l r IH]; intros w I Hc; cbn [run]; auto.
  destruct (step_inv l w I Hc) as [I' Hc']. now apply IH.
Qed.

Lemma boot_inv (c : Z) (os : list dict) (fs : list nat) (lm sm : pyval)
    (d : file) (b s k : bool) :
  Inv (boot c os fs lm sm d b s k).
Proof.
  split; cbn.
  - intros cid. destruct cid; discriminate.
  - intros cid. destruct cid; discriminate.
  - constructor.
Qed.

(** *** Counting the armed timers of a name *)

Lemma armed_from_In (w : world) (n : string) (cs : list coro) (s x : nat) :
  In x (armed_from w n s cs) ->
  (s <= x)%nat /\
  exists c, nth_error cs (x - s) = Some c /\ armed_named w n c = true.
Proof.
  revert s. induction cs as [|c r IH]; intros s; cbn [armed_from]; [intros []|].
  assert (Tail : In x (armed_from w n (S s) r) ->
                 (s <= x)%nat /\
                 exists c0, nth_error (c :: r) (x - s) = Some c0 /\
                            armed_named w n c0 = true).
  { intros H. destruct (IH _ H) as (Hle & c0 & Hc0 & Ha).
    split; [lia|]. exists c0. split; [|assumption].
    replace (x - s)%nat with (S (x - S s)) by lia. exact Hc0. }
  destruct (armed_named w n c) eqn:E; [|exact Tail].
  intros [<-|H]; [|now apply Tail].
  split; [lia|]. exists c. rewrite Nat.sub_diag. auto.
Qed.

Lemma armed_from_NoDup (w : world) (n : string) (cs : list coro) (s : nat) :
  NoDup (armed_from w n s cs).
Proof.
  revert s. induction cs as [|c r IH]; intros s; cbn [armed_from]; [constructor|].
  destruct (armed_named w n c); [|apply IH].
  constructor; [|apply IH].
  intros H. apply armed_from_In in H. lia.
Qed.

Lemma armed_for_In (w : world) (n : string) (x : nat) :
  In x (armed_for w n) ->
  exists c i, nth_error (coros w) x = Some c /\ armed_farm c = Some i /\
              obj_name w i = Some n.
Proof.
  intros H. apply armed_from_In in H as (_ & c & Hc & Ha).
  rewrite Nat.sub_0_r in Hc. unfold armed_named in Ha.
  destruct (armed_farm c) as [i|] eqn:Ei; [|discriminate].
  destruct (obj_name w i) as [s|] eqn:Es; [|discriminate].
  apply String.eqb_eq in Ha. subst s. eauto.
Qed.

Lemma armed_for_scheduled (w : world) (n : string) (x : nat) :
  Inv w -> current w = None -> In x (armed_for w n) ->
  sched_get n (scheduled w) = Some x.
Proof.
  intros I Hc H. destruct (armed_for_In _ _ _ H) as (c & i & Hn & Ha & Ho).
  destruct (inv_sched _ I x c i Hn) as (n' & Hn' & Hs); [congruence | assumption |].
  congruence.
Qed.

Lemma all_equal_short {A} (l : list A) (t : A) :
  NoDup l -> (forall x, In x l -> x = t) -> l = [] \/ l = [t].
Proof.
  intros Hnd Hall. destruct l as [|a [|b r]]; auto.
  - right. f_equal. apply Hall. now left.
  - exfalso. inversion Hnd as [|? ? Hni _]; subst. apply Hni.
    rewrite (Hall a), (Hall b); simpl; auto.
Qed.

Lemma armed_for_at_most_one (w : world) (n : string) :
  Inv w -> current w = None -> (List.length (armed_for w n) <= 1)%nat.
Proof.
  intros I Hc.
  destruct (sched_get n (scheduled w)) as [t|] eqn:Es.
  - destruct (all_equal_short (armed_for w n) t) as [-> | ->]; simpl; auto.
    + apply armed_from_NoDup.
    + intros x Hx. pose proof (armed_for_scheduled w n x I Hc Hx). congruence.
  - destruct (armed_for w n) as [|x r] eqn:E; simpl; [lia|].
    pose proof (armed_for_scheduled w n x I Hc) as H.
    rewrite E in H. specialize (H (or_introl eq_refl)). congruence.
Qed.

Lemma armed_for_single (w : world) (n : string) (x : nat) :
  Inv w -> current w = None -> In x (armed_for w n) -> armed_for w n = [x].
Proof.
  intros I Hc Hx.
  destruct (all_equal_short (armed_for w n) x) as [E | E]; auto.
  - apply armed_from_NoDup.
  - intros y Hy.
    pose proof (armed_for_scheduled w n x I Hc Hx).
    pose proof (armed_for_scheduled w n y I Hc Hy). congruence.
  - rewrite E in Hx. destruct Hx.
Qed.

Lemma reader_first_farm (p : string -> bool) (l : list nat) :
  reader (first_farm p l).
Proof.
  induction l as [|i r IH]; [apply reader_ret|].
  cbn [first_farm]. apply reader_bind; [apply reader_farm_name|].
  intros n. destruct (p _); [apply reader_ret | exact IH].
Qed.

(** [/removefarm] leaves no armed timer under the name of the farm it
    found. *)
Lemma remove_cancels_timer (w : world) (arg : string) (i : nat) (n : string) :
  Inv w -> current w = None ->
  fst (first_farm (String.eqb (lower (strip arg))) (farms w) w) = Some (Some i) ->
  obj_name w i = Some n ->
  armed_for (step (LRemove arg) w) n = [].
Proof.
  intros I Hc Hfind Hname.
  destruct (step_inv (LRemove arg) w I Hc) as [If Hcf].
  destruct (armed_for (step (LRemove arg) w) n) as [|x rest] eqn:Earm; [reflexivity|].
  exfalso.
  assert (Hx : In x (armed_for (step (LRemove arg) w) n)) by (rewrite Earm; now left).
  clear Earm rest.
  destruct (armed_for_In _ _ _ Hx) as (c & j & Hn & Ha & Ho). clear Hx If Hcf.
  revert Hn Ho. cbn [step]. unfold spawn, run_coro.
  set (cid0 := List.length (coros w)).
  set (w' := set_current (Some cid0) (set_coros (coros w ++ [mk_coro [] Live]) w)).
  assert (I' : Inv w').
  { apply Inv_set_current; [now apply Inv_new_slot | exact Hc]. }
  assert (Hfind' : first_farm (String.eqb (lower (strip arg))) (farms w) w'
                   = (Some (Some i), w')).
  { pose proof (reader_first_farm (String.eqb (lower (strip arg))) (farms w))
      as [Rs Re].
    specialize (Rs w'). specialize (Re w w' eq_refl eq_refl).
    destruct (first_farm _ (farms w) w') as [o v]. simpl in *. congruence. }
  assert (Hname' : obj_name w' i = Some n) by exact Hname.
  set (K := fun name : string =>
         kept <- filter_farms
                   (fun n0 => negb (String.eqb n0 (lower (strip arg)))) (farms w) ;;
         modify (set_farms kept) ;;;
         save ;;;
         call_embed (FCommandEmbed name) (command_after_embed name)).
  assert (E : removefarm arg w' = K n (cancel_and_pop n w')).
  { unfold removefarm. cbv zeta.
    rewrite (bind_run _ _ w' w' (farms w)) by reflexivity.
    rewrite (bind_run _ _ _ _ _ Hfind').
    rewrite (bind_run _ _ _ _ _ (farm_name_run _ _ _ Hname')).
    rewrite (bind_run _ _ w' w' (sched_get n (scheduled w'))) by reflexivity.
    rewrite (bind_run _ _ _ _ _ (cancel_pop_block_run w' n (inv_valid _ I'))).
    reflexivity. }
  assert (QK : respects quiet (K n)) by (unfold K, call_embed; quiet_frame).
  assert (YK : yields ctl_ok (K n)) by (unfold K; yields_auto).
  destruct (Inv_cancel_and_pop w' n I') as (I1 & Hno & Hcur1 & Ho1 & Hl1).
  specialize (QK (cancel_and_pop n w')). specialize (YK (cancel_and_pop n w')).
  assert (EB : (c0 <- removefarm arg ;; ret (frames_of c0)) w'
               = match K n (cancel_and_pop n w') with
                 | (Some a, v) => (Some (frames_of a), v)
                 | (None, v) => (None, v)
                 end).
  { unfold bind. rewrite E.
    destruct (K n (cancel_and_pop n w')) as [[a|] v]; reflexivity. }
  rewrite EB. clear EB E.
  destruct (K n (cancel_and_pop n w')) as [r w1]. cbn [snd fst] in QK, YK.
  destruct QK as (Q1 & Q2 & Q3 & Q4).
  assert (NotArmed : forall a st, r = Some a ->
            armed_farm
              (match frames_of a with
               | f :: fs => mk_coro (f :: fs) st
               | [] => mk_coro [] Finished
               end) = None).
  { intros a st ->. specialize (YK _ eq_refl).
    destruct a as [|fs]; [reflexivity|]. cbn in *.
    destruct fs as [|f fs]; [reflexivity|].
    now apply timer_free_not_armed. }
  destruct r as [a|].
  - cbn [coros set_coros set_current]. intros Hn Ho.
    change (obj_name w1 j = Some n) in Ho.
    destruct (nth_error_list_set_inv _ _ _ _ _ Hn) as [[_ ->]|[Hne Hn']].
    + specialize (NotArmed a
                    (match nth_error (coros w1) cid0 with
                     | Some c0 => co_state c0 | None => Live end) eq_refl).
      destruct (frames_of a); congruence.
    + rewrite Q1 in Hn'.
      destruct (inv_sched _ I1 x c j Hn') as (n' & Hn1 & _);
        [rewrite Hcur1; cbn; congruence | assumption |].
      pose proof (Q4 _ _ Hn1) as Hn2. assert (n' = n) by congruence. subst n'.
      apply (Hno x c j Hn'); [rewrite Hcur1; cbn; congruence | assumption | assumption].
  - cbn [coros set_coros set_current]. intros Hn Ho.
    change (obj_name w1 j = Some n) in Ho.
    destruct (nth_error_list_set_inv _ _ _ _ _ Hn) as [[_ ->]|[Hne Hn']];
      [discriminate|].
    rewrite Q1 in Hn'.
    destruct (inv_sched _ I1 x c j Hn') as (n' & Hn1 & _);
      [rewrite Hcur1; cbn; congruence | assumption |].
    pose proof (Q4 _ _ Hn1) as Hn2. assert (n' = n) by congruence. subst n'.
    apply (Hno x c j Hn'); [rewrite Hcur1; cbn; congruence | assumption | assumption].
Qed.

(** C1: in every run of the bot from start-up - any interleaving of
    messages, commands, completed awaits, timer expiries, cancellations
    and clock ticks - every name has at most one armed timer; a step that
    arms a new timer for a name leaves it as the only armed timer of that
    name and as the task recorded under the name (the earlier one is
    cancelled); and [/removefarm] leaves no armed timer under the name of
    the farm it removes. *)
Theorem one_armed_timer_per_name (c : Z) (os : list dict) (fs : list nat)
    (lm sm : pyval) (d : file) (b s k : bool) (ls : list label) (n : string) :
  let w := run ls (boot c os fs lm sm d b s k) in
  (List.length (armed_for w n) <= 1)%nat
  /\ (forall l cid,
        (List.length (coros w) <= cid)%nat ->
        In cid (armed_for (step l w) n) ->
        armed_for (step l w) n = [cid] /\
        sched_get n (scheduled (step l w)) = Some cid)
  /\ (forall arg i,
        fst (first_farm (String.eqb (lower (strip arg))) (farms w) w)
          = Some (Some i) ->
        obj_name w i = Some n ->
        armed_for (step (LRemove arg) w) n = []).
Proof.
  intros w.
  destruct (run_inv ls _ (boot_inv c os fs lm sm d b s k) eq_refl) as [I Hc].
  fold w in I, Hc. split; [now apply armed_for_at_most_one|]. split.
  - intros l cid _ Hin. destruct (step_inv l w I Hc) as [I' Hc'].
    split; [now apply armed_for_single | now apply armed_for_scheduled].
  - intros arg i Hf Hn. now apply (remove_cancels_timer w arg i n).
Qed.

(** ** Failsafe expiry *)

(** Two item assignments in a row on the same farm. *)
Lemma farm_set2_run {A} (w : world) (i : nat) (f : dict) (k1 k2 : string)
    (v1 v2 : pyval) (K : M A) :
  nth_error (objs w) i = Some f ->
  (farm_set i k1 v1 ;;; farm_set i k2 v2 ;;; K) w
  = K (set_objs (list_set i (dict_set k2 v2 (dict_set k1 v1 f)) (objs w)) w).
Proof.
  intros Hf.
  rewrite (bind_run _ _ _ _ _ (farm_set_run _ _ _ k1 v1 Hf)).
  pose proof (nth_error_list_set_same _ _ (dict_set k1 v1 f) _ Hf) as Hf1.
  match goal with
  | |- bind (farm_set i k2 v2) ?k ?x = _ =>
      rewrite (bind_run _ k x _ _ (farm_set_run x i _ k2 v2 Hf1))
  end.
  cbn [objs set_objs]. now rewrite list_set_twice.
Qed.

Lemma failsafe_after_sleep_run (w : world) (farm : nat) (bc : bool) (f : dict)
    (regrow : Z) :
  nth_error (objs w) farm = Some f ->
  dict_get_none "next_ready" f = PNone ->
  dict_get "regrow_time" f = Some (PTimedelta regrow) ->
  failsafe_after_sleep farm bc w
  = (save ;;;
     call_embed (FFailsafeEmbed farm bc (dt_add (utc_now (clock w)) regrow))
       (failsafe_after_embed farm bc (dt_add (utc_now (clock w)) regrow)))
      (set_objs (list_set farm (failsafe_record (clock w) regrow f) (objs w)) w).
Proof.
  intros Hf Hn Hr. unfold failsafe_after_sleep.
  rewrite (bind_run _ _ _ _ _ (farm_get_run _ _ _ "next_ready" Hf)), Hn.
  rewrite (bind_run _ _ w w (utc_now (clock w))) by reflexivity.
  rewrite (bind_run _ _ _ _ _ (farm_timedelta_run _ _ _ _ _ Hf Hr)).
  cbv zeta. now rewrite (farm_set2_run w farm f).
Qed.

Lemma notify_after_embed_run (w : world) (farm : nat) (n : string) :
  obj_name w farm = Some n ->
  fst (cancel_pending w) = Some false ->
  notify_after_embed farm w
  = (Some (Suspended [FNotifySend]), set_log (log w ++ [EvSend (NReady n)]) w).
Proof.
  intros Hn Hp. unfold notify_after_embed.
  rewrite (bind_run _ _ _ _ _ (farm_name_run _ _ _ Hn)).
  unfold send_notice.
  assert (E : cancel_pending w = (Some false, w)).
  { pose proof (respects_cancel_pending (fun a b => b = a) (fun a => eq_refl)
                  (fun a b c H1 H2 => eq_trans H2 H1) w) as S.
    destruct (cancel_pending w). simpl in *. congruence. }
  rewrite (bind_run _ _ _ _ _ (bind_run _ _ _ _ _ E)). reflexivity.
Qed.

Lemma notification_sleeps_until (v : world) (farm : nat) (f : dict)
    (d : datetime) :
  nth_error (objs v) farm = Some f ->
  dict_get "next_ready" f = Some (PDatetime d) ->
  dt_tz d <> None ->
  clock v < dt_instant d ->
  schedule_notification_for_farm farm v
  = (Some (Suspended [FNotifySleep farm (dt_instant d)]), v).
Proof.
  intros Hf Hn Hz Hc. unfold schedule_notification_for_farm.
  rewrite (bind_run _ _ _ _ _ (get_farm_run _ _ _ Hf)), Hn.
  cbn [option_map]. destruct (dt_tz d) eqn:Ez; [|congruence].
  unfold now_utc, bind, gets, ret.
  replace (dt_instant d - dt_instant (utc_now (clock v)) <=? 0) with false;
    [reflexivity | symmetry; apply Z.leb_gt; cbn; lia].
Qed.

Lemma notify_farm_ready_plain_run (w : world) (farm : nat) (f : dict) :
  nth_error (objs w) farm = Some f ->
  bot_channel_up w = true ->
  notify_farm_ready_plain farm w
  = (save ;;; call_embed (FNotifyEmbed farm) (notify_after_embed farm))
      (set_objs
         (list_set farm
            (dict_set "next_ready" PNone
               (dict_set "status" (PStr STATUS_READY) f))
            (objs w)) w).
Proof.
  intros Hf Hup. unfold notify_farm_ready_plain.
  rewrite (bind_run _ _ w w true) by (unfold gets; now rewrite Hup).
  cbn [negb]. now rewrite (farm_set2_run w farm f).
Qed.

Lemma schedule_task_same_log (farm : nat) :
  respects (fun a b => log b = log a) (schedule_task_for_farm farm).
Proof.
  unfold schedule_task_for_farm, task_cancel, get_coro, create_task.
  frame (fun a : world => eq_refl (log a))
        (fun (a b c : world) (H1 : log b = log a) (H2 : log c = log b) =>
           eq_trans H2 H1)
        ltac:(reflexivity).
Qed.


(** ** Persist before notify *)

Lemma log_grows_refl (w : world) : log_grows w w.
Proof. exists []. now rewrite app_nil_r. Qed.

Lemma log_grows_trans (a b c : world) :
  log_grows a b -> log_grows b c -> log_grows a c.
Proof.
  intros [e1 H1] [e2 H2]. exists (e1 ++ e2). now rewrite H2, H1, app_assoc.
Qed.

Create HintDb log_frame.

Ltac log_frame :=
  frame log_grows_refl log_grows_trans
        ltac:(first [ apply log_grows_refl
                    | solve [eexists; cbn; reflexivity]
                    | solve [auto with log_frame] ]).

Lemma farm_set_log (i : nat) (k : string) (v : pyval) :
  respects log_grows (farm_set i k v).
Proof. unfold farm_set. log_frame. Qed.
#[local] Hint Resolve farm_set_log : log_frame.

Lemma task_cancel_log (t : nat) : respects log_grows (task_cancel t).
Proof.
  unfold task_cancel, get_coro.
  apply (respects_bind _ log_grows_trans); [log_frame|]. intros c. log_frame.
Qed.
#[local] Hint Resolve task_cancel_log : log_frame.

Lemma save_log_grows : respects log_grows save.
Proof.
  unfold save. apply (respects_bind _ log_grows_trans);
    [intros w; apply log_grows_refl|].
  intros d. unfold emit. log_frame.
Qed.
#[local] Hint Resolve save_log_grows : log_frame.

Lemma after_embed_log (l : kira_locals) (farm : nat) (bc : bool) (nr : datetime) :
  respects log_grows (start_after_embed l)
  /\ respects log_grows (finish_after_embed l nr)
  /\ respects log_grows (failsafe_after_embed farm bc nr)
  /\ respects log_grows (notify_after_embed farm).
Proof.
  unfold start_after_embed, finish_after_embed, failsafe_after_embed,
    notify_after_embed, start_after_send, checkpoint, schedule_task_for_farm,
    create_task, send_notice, emit.
  repeat split; log_frame.
Qed.

Lemma call_embed_log (k : frame) (code : M ctl) :
  respects log_grows code -> respects log_grows (call_embed k code).
Proof.
  intros H. unfold call_embed, update_farms_embed, emit. log_frame.
Qed.

Lemma in_memory_data_some (w : world) :
  registry_ok w -> exists d, in_memory_data w = Some d.
Proof.
  unfold registry_ok, in_memory_data. intros H.
  assert (G : exists l, omap (fun i => option_map PDict (nth_error (objs w) i))
                          (farms w) = Some l).
  { induction H as [|i r Hi _ IH]; [now exists []|].
    destruct IH as [l IH]. cbn [omap].
    destruct (nth_error (objs w) i) as [f|] eqn:E.
    - cbn. rewrite IH. cbn. eauto.
    - apply nth_error_None in E. lia. }
  destruct G as [l ->]. cbn. eauto.
Qed.

(** The save comes first, on the records as they stand, and what
    follows leaves the records alone. *)
Lemma persist_then (w : world) (K : M ctl) :
  registry_ok w -> respects same_objs K -> respects log_grows K ->
  exists evs,
    log (snd ((save ;;; K) w)) = log w ++ EvSave (dump w) :: evs /\
    objs (snd ((save ;;; K) w)) = objs w.
Proof.
  intros Hr Ho Hl. destruct (in_memory_data_some w Hr) as [d Hd].
  assert (E : (save ;;; K) w
              = match save_farms isoformat d with
                | Some doc =>
                    K (set_log (log w ++ [EvSave (Content doc)])
                         (set_disk (Content doc) w))
                | None =>
                    (None, set_log (log w ++ [EvSave Unreadable])
                             (set_disk Unreadable w))
                end).
  { unfold save, bind, modify, emit, raise. rewrite Hd.
    destruct (save_farms isoformat d); reflexivity. }
  rewrite E. unfold dump. rewrite Hd.
  destruct (save_farms isoformat d) as [doc|].
  - match goal with
    | |- context [K ?x] =>
        destruct (Hl x) as [evs He]; pose proof (Ho x) as Hx
    end.
    exists evs. rewrite He, Hx. cbn. now rewrite <- app_assoc.
  - cbn. exists []. split; reflexivity.
Qed.

Lemma registry_ok_set (w : world) (i : nat) (f : dict) :
  registry_ok w -> registry_ok (set_objs (list_set i f (objs w)) w).
Proof.
  unfold registry_ok. cbn [objs farms set_objs]. now rewrite length_list_set.
Qed.

Lemma shape_refl (w : world) : shape w w.
Proof. repeat split. Qed.

Lemma shape_trans (a b c : world) : shape a b -> shape b c -> shape a c.
Proof. unfold shape. intros (A1 & A2 & A3) (B1 & B2 & B3). repeat split; congruence. Qed.

Lemma farm_set_shape (i : nat) (k : string) (v : pyval) :
  respects shape (farm_set i k v).
Proof.
  intros w. unfold farm_set, get_farm, bind, gets, lift_option.
  destruct (nth_error (objs w) i); [|apply shape_refl].
  cbn. repeat split. apply length_list_set.
Qed.

Lemma normalize_duration_shape (i : nat) (k : string) :
  respects shape (normalize_duration i k).
Proof.
  unfold normalize_duration.
  frame shape_refl shape_trans ltac:(first [ apply shape_refl | apply farm_set_shape ]).
Qed.

(** [process_kira_message] up to the choice between Started and
    Finished. *)
Lemma kira_dispatch (w : world) (m : message) (time_str user msg a b : string)
    (i : nat) (f : dict) (regrow runtime : Z) :
  m_groups m = Some (time_str, user, msg) ->
  split_bar msg = Some (a, b) ->
  fst (get_farm_exact (strip a) w) = Some (Some i) ->
  nth_error (objs w) i = Some f ->
  duration_of "regrow_time" f = Some regrow ->
  duration_of "runtime" f = Some runtime ->
  exists w2 f2,
    shape w w2 /\ nth_error (objs w2) i = Some f2 /\
    dict_get "regrow_time" f2 = Some (PTimedelta regrow) /\
    let l := mk_locals i user time_str (created_at_utc m) (bot_channel_up w)
               (m_id m) in
    process_kira_message m w
    = (if contains "being started" (lower (strip b)) then
         farm_set i "status" (PStr STATUS_FARMING) ;;;
         farm_set i "next_ready" PNone ;;;
         save ;;;
         call_embed (FStartEmbed l) (start_after_embed l)
       else if contains "has finished" (lower (strip b)) then
         regrow <- farm_timedelta i "regrow_time" ;;
         farm_set i "next_ready"
           (PDatetime (dt_add (created_at_utc m) regrow)) ;;;
         farm_set i "status" (PStr STATUS_FARMING) ;;;
         save ;;;
         call_embed (FFinishEmbed l (dt_add (created_at_utc m) regrow))
           (finish_after_embed l (dt_add (created_at_utc m) regrow))
       else start_after_send l) w2.
Proof.
  intros Hg Hs Hx Hf Hre Hru.
  destruct (normalize_both_run w i f regrow runtime Hf Hre Hru)
    as (w2 & f2 & E & Hf2 & Hg2 & _).
  exists w2, f2.
  assert (Sh : shape w w2).
  { pose proof (respects_bind shape shape_trans
                  (normalize_duration i "regrow_time")
                  (fun _ => normalize_duration i "runtime")
                  (normalize_duration_shape i "regrow_time")
                  (fun _ => normalize_duration_shape i "runtime") w) as S.
    now rewrite E in S. }
  split; [exact Sh|]. split; [exact Hf2|]. split; [exact Hg2|].
  cbv zeta. unfold process_kira_message. rewrite Hg, Hs.
  rewrite (bind_run _ _ _ _ _ (get_farm_exact_run _ _ _ Hx)).
  rewrite (bind_run _ _ _ _ (bot_channel_up w)) by reflexivity.
  unfold bind at 1 in E. unfold bind at 1.
  destruct (normalize_duration i "regrow_time" w) as [[[]|] w1]; [|discriminate].
  unfold bind at 1. rewrite E. reflexivity.
Qed.


(** * Parsing, look-ups, commands and storage

    ** The Kira line format ([KIRA_REGEX], lines 47-49) *)

Lemma lit_app (p s : string) : lit p (p ++ s)%string = Some s.
Proof.
  induction p as [|c p IH]; [reflexivity|].
  cbn. now rewrite Ascii.eqb_refl.
Qed.

Lemma lit_some (p s r : string) : lit p s = Some r -> s = (p ++ r)%string.
Proof.
  revert s. induction p as [|c p IH]; intros s; cbn.
  - now intros [= ->].
  - destruct s as [|d s]; [discriminate|].
    destruct (Ascii.eqb_spec c d) as [->|]; [|discriminate].
    intros H. now rewrite (IH _ H).
Qed.

Lemma lit_head (c d : ascii) (p s : string) :
  c <> d -> lit (String c p) (String d s) = None.
Proof. intros H. cbn. now destruct (Ascii.eqb_spec c d). Qed.

Lemma all_chars_app (p : ascii -> bool) (a b : string) :
  all_chars p (a ++ b)%string = all_chars p a && all_chars p b.
Proof.
  induction a as [|c a IH]; [reflexivity|].
  cbn. now rewrite IH, andb_assoc.
Qed.

Lemma append_assoc (a b c : string) :
  ((a ++ b) ++ c)%string = (a ++ (b ++ c))%string.
Proof. induction a as [|x a IH]; cbn; congruence. Qed.

(** What a star hands to its continuation is a split of the text whose
    first part is in the class. *)
Lemma star_greedy_sound {R} (p : ascii -> bool) (s : string) :
  forall (k : string -> string -> option R) (x : R),
    star_greedy p k s = Some x ->
    exists taken rest,
      s = (taken ++ rest)%string /\ all_chars p taken = true
      /\ k taken rest = Some x.
Proof.
  induction s as [|c r IH]; intros k x; cbn [star_greedy].
  - intros H. exists EmptyString, EmptyString. auto.
  - destruct (p c) eqn:Pc.
    + destruct (star_greedy p _ r) as [y|] eqn:E.
      * intros [= ->]. destruct (IH _ _ E) as (t & rest & -> & Ht & Hk).
        exists (String c t), rest. cbn. rewrite Pc, Ht. auto.
      * intros H. exists EmptyString, (String c r). auto.
    + intros H. exists EmptyString, (String c r). auto.
Qed.

Lemma star_lazy_sound {R} (p : ascii -> bool) (s : string) :
  forall (k : string -> string -> option R) (x : R),
    star_lazy p k s = Some x ->
    exists taken rest,
      s = (taken ++ rest)%string /\ all_chars p taken = true
      /\ k taken rest = Some x.
Proof.
  induction s as [|c r IH]; intros k x; cbn [star_lazy].
  - destruct (k EmptyString EmptyString) as [y|] eqn:E; [|discriminate].
    intros [= ->]. exists EmptyString, EmptyString. auto.
  - destruct (k EmptyString (String c r)) as [y|] eqn:E.
    + intros [= ->]. exists EmptyString, (String c r). auto.
    + destruct (p c) eqn:Pc; [|discriminate].
      intros H. destruct (IH _ _ H) as (t & rest & -> & Ht & Hk).
      exists (String c t), rest. cbn. rewrite Pc, Ht. auto.
Qed.

(** A greedy star takes the whole run when the continuation accepts
    it. *)
Lemma star_greedy_longest {R} (p : ascii -> bool) (ws rest : string) :
  forall (k : string -> string -> option R) (x : R),
    all_chars p ws = true ->
    match rest with String c _ => p c = false | EmptyString => True end ->
    k ws rest = Some x ->
    star_greedy p k (ws ++ rest)%string = Some x.
Proof.
  induction ws as [|c ws IH]; intros k x Hall Hrest Hk.
  - cbn [String.append]. destruct rest as [|c r]; [exact Hk|].
    cbn [star_greedy]. now rewrite Hrest.
  - cbn in Hall. apply andb_prop in Hall as [Pc Hall].
    cbn [String.append star_greedy]. rewrite Pc.
    now rewrite (IH (fun taken rest => k (String c taken) rest) x Hall Hrest Hk).
Qed.

(** A lazy star stops at the first split the continuation accepts. *)
Lemma star_lazy_first {R} (p : ascii -> bool) (t rest : string) :
  forall (k : string -> string -> option R) (x : R),
    all_chars p t = true ->
    (forall t1 c t2, t = (t1 ++ String c t2)%string ->
                     k t1 (String c t2 ++ rest)%string = None) ->
    k t rest = Some x ->
    star_lazy p k (t ++ rest)%string = Some x.
Proof.
  induction t as [|c t IH]; intros k x Hall Hno Hk.
  - cbn [String.append]. destruct rest; cbn [star_lazy]; now rewrite Hk.
  - cbn in Hall. apply andb_prop in Hall as [Pc Hall].
    cbn [String.append star_lazy].
    pose proof (Hno EmptyString c t eq_refl) as H0. cbn [String.append] in H0.
    rewrite H0, Pc.
    apply IH; auto.
    intros t1 c' t2 ->. apply (Hno (String c t1) c' t2). reflexivity.
Qed.

(** The last group: [.*] up to the end of the text. *)
Lemma star_to_end {R} (s : string) :
  forall (F : string -> R),
    star_greedy not_newline
      (fun msg rest => match rest with
                       | EmptyString => Some (F msg)
                       | _ => None
                       end) s
    = if all_chars not_newline s then Some (F s) else None.
Proof.
  induction s as [|c r IH]; intros F; [reflexivity|].
  cbn [star_greedy all_chars]. destruct (not_newline c); [|reflexivity].
  rewrite (IH (fun m => F (String c m))). cbn [andb].
  now destruct (all_chars not_newline r).
Qed.

Lemma spaces_then_rest_some {R} (s : string) (F : string -> R) :
  all_chars not_newline s = true ->
  star_greedy is_space
    (fun _ rest => if all_chars not_newline rest then Some (F rest) else None) s
  <> None.
Proof.
  revert F. induction s as [|c r IH]; intros F H; cbn [star_greedy].
  - discriminate.
  - destruct (is_space c).
    + destruct (star_greedy is_space _ r); [discriminate|]. now rewrite H.
    + now rewrite H.
Qed.

(** The end of the pattern, whitespace and then the group [msg]: the
    message is what is left after all the whitespace. *)
Lemma spaces_then_rest {R} (s : string) (F : string -> R) (x : R) :
  star_greedy is_space
    (fun _ rest => if all_chars not_newline rest then Some (F rest) else None) s
  = Some x ->
  exists ws m,
    s = (ws ++ m)%string /\ all_chars is_space ws = true /\ x = F m
    /\ all_chars not_newline m = true /\ trimmed_left m = true.
Proof.
  revert x. induction s as [|c r IH]; intros x; cbn [star_greedy].
  - intros [= <-]. exists EmptyString, EmptyString. auto.
  - destruct (is_space c) eqn:Sc.
    + destruct (star_greedy is_space _ r) as [y|] eqn:E.
      * intros [= ->]. destruct (IH _ eq_refl) as (ws & m & -> & Hws & -> & Hm & Ht).
        exists (String c ws), m. cbn. rewrite Sc, Hws. auto.
      * destruct (all_chars not_newline (String c r)) eqn:A; [|discriminate].
        cbn in A. apply andb_prop in A as [_ A].
        now destruct (spaces_then_rest_some r F A).
    + destruct (all_chars not_newline (String c r)) eqn:A; [|discriminate].
      intros [= <-]. exists EmptyString, (String c r). cbn. rewrite Sc. auto.
Qed.

Lemma all_chars_weaken (p q : ascii -> bool) (s : string) :
  (forall c, p c = true -> q c = true) ->
  all_chars p s = true -> all_chars q s = true.
Proof.
  intros H. induction s as [|c r IH]; [reflexivity|].
  cbn. intros A. apply andb_prop in A as [Pc A].
  now rewrite (H c Pc), (IH A).
Qed.

Lemma star_greedy_ext {R} (p : ascii -> bool) (s : string) :
  forall (k k' : string -> string -> option R),
    (forall a b, k a b = k' a b) ->
    star_greedy p k s = star_greedy p k' s.
Proof.
  induction s as [|c r IH]; intros k k' H; cbn [star_greedy]; [apply H|].
  rewrite (IH _ (fun taken rest => k' (String c taken) rest))
    by (intros; apply H).
  now rewrite H.
Qed.

Lemma obind_some {A B} (o : option A) (k : A -> option B) (b : B) :
  obind o k = Some b -> exists a, o = Some a /\ k a = Some b.
Proof. destruct o as [a|]; [|discriminate]. cbn. eauto. Qed.

Lemma two_digits_some (s d r : string) :
  two_digits s = Some (d, r) ->
  exists a b, d = String a (String b EmptyString) /\ s = (d ++ r)%string
              /\ is_digit a = true /\ is_digit b = true.
Proof.
  destruct s as [|a [|b s]]; try discriminate. cbn [two_digits].
  destruct (is_digit a) eqn:Da, (is_digit b) eqn:Db; try discriminate.
  intros [= <- <-]. exists a, b. auto.
Qed.

Lemma clock_time_some (s t r : string) :
  clock_time s = Some (t, r) -> s = (t ++ r)%string /\ time_shape t = true.
Proof.
  unfold clock_time. intros H.
  apply obind_some in H as ([h s1] & H1 & H).
  apply obind_some in H as (s2 & H2 & H).
  apply obind_some in H as ([m s3] & H3 & H).
  apply obind_some in H as (s4 & H4 & H).
  apply obind_some in H as ([sec s5] & H5 & H).
  injection H as <- <-.
  apply two_digits_some in H1 as (a & b & -> & -> & Da & Db).
  apply two_digits_some in H3 as (c & d & -> & -> & Dc & Dd).
  apply two_digits_some in H5 as (e & f & -> & -> & De & Df).
  apply lit_some in H2 as ->. apply lit_some in H4 as ->.
  cbn. now rewrite Da, Db, Dc, Dd, De, Df.
Qed.

Lemma clock_time_app (t rest : string) :
  time_shape t = true -> clock_time (t ++ rest)%string = Some (t, rest).
Proof.
  destruct t as [|a [|b [|c1 [|c [|d [|c2 [|e [|f [|g t]]]]]]]]];
    try discriminate.
  cbn [time_shape]. intros H.
  repeat match goal with
         | H : _ && _ = true |- _ => apply andb_prop in H as [H ?]
         end.
  repeat match goal with
         | H : Ascii.eqb _ _ = true |- _ => apply Ascii.eqb_eq in H; subst
         end.
  unfold clock_time.
  repeat (cbn;
          match goal with
          | H : is_digit ?x = true |- context [is_digit ?x] => rewrite H
          end).
  reflexivity.
Qed.

Lemma inside_brackets_not_newline (c : ascii) :
  inside_brackets c = true -> not_newline c = true.
Proof. unfold inside_brackets. intros H. now apply andb_prop in H. Qed.

Lemma inside_brackets_split (t t1 t2 : string) (c : ascii) :
  all_chars inside_brackets t = true -> t = (t1 ++ String c t2)%string ->
  c <> "]"%char.
Proof.
  intros A ->. rewrite all_chars_app in A. apply andb_prop in A as [_ A].
  cbn in A. apply andb_prop in A as [A _]. unfold inside_brackets in A.
  apply andb_prop in A as [_ A]. intros ->. discriminate.
Qed.

(** X1: A line in Kira's layout is taken apart into the parts it was built
    from. *)
Theorem kira_line_parsed (time tag user msg ws1 ws2 ws3 : string) :
  time_shape time = true ->
  all_chars inside_brackets tag = true ->
  all_chars inside_brackets user = true ->
  all_chars not_newline msg = true ->
  trimmed_left msg = true ->
  all_chars is_space ws1 = true ->
  all_chars is_space ws2 = true ->
  all_chars is_space ws3 = true ->
  kira_match (kira_line time tag user msg ws1 ws2 ws3) = Some (time, user, msg).
Proof.
  intros Ht Htag Hu Hm Htr H1 H2 H3.
  unfold kira_match, kira_line.
  rewrite lit_app. cbn [obind].
  rewrite clock_time_app by assumption. cbn [obind].
  rewrite lit_app. cbn [obind].
  apply star_greedy_longest; [assumption | reflexivity |].
  rewrite lit_app. cbn [obind].
  apply star_lazy_first.
  { revert Htag. apply all_chars_weaken, inside_brackets_not_newline. }
  { intros t1 c t2 E. cbn [String.append]. rewrite lit_head; [reflexivity|].
    intros <-. now apply (inside_brackets_split _ _ _ _ Htag E). }
  rewrite lit_app. cbn [obind].
  apply star_greedy_longest; [assumption | reflexivity |].
  rewrite lit_app. cbn [obind].
  apply star_lazy_first.
  { revert Hu. apply all_chars_weaken, inside_brackets_not_newline. }
  { intros t1 c t2 E. cbn [String.append]. rewrite lit_head; [reflexivity|].
    intros <-. now apply (inside_brackets_split _ _ _ _ Hu E). }
  rewrite lit_app. cbn [obind].
  apply star_greedy_longest; [assumption | |].
  { destruct msg as [|c r]; [exact I|]. cbn in Htr.
    now destruct (is_space c). }
  rewrite (star_to_end msg (fun m => (time, user, m))). now rewrite Hm.
Qed.

(** X2: Whatever the pattern accepts has Kira's layout, and the message
    group is free of line feeds and of leading whitespace. *)
Theorem kira_match_shape (text time user msg : string) :
  kira_match text = Some (time, user, msg) ->
  exists tag ws1 ws2 ws3,
    text = kira_line time tag user msg ws1 ws2 ws3
    /\ time_shape time = true
    /\ all_chars is_space ws1 = true /\ all_chars is_space ws2 = true
    /\ all_chars is_space ws3 = true
    /\ all_chars not_newline tag = true /\ all_chars not_newline user = true
    /\ all_chars not_newline msg = true /\ trimmed_left msg = true.
Proof.
  unfold kira_match. intros H.
  apply obind_some in H as (s1 & L1 & H).
  apply obind_some in H as ([t s2] & C & H).
  apply obind_some in H as (s3 & L2 & H).
  apply star_greedy_sound in H as (ws1 & s4 & E3 & W1 & H).
  apply obind_some in H as (s5 & L3 & H).
  apply star_lazy_sound in H as (tag & s6 & E5 & Tg & H).
  apply obind_some in H as (s7 & L4 & H).
  apply star_greedy_sound in H as (ws2 & s8 & E7 & W2 & H).
  apply obind_some in H as (s9 & L5 & H).
  apply star_lazy_sound in H as (u & s10 & E9 & Us & H).
  apply obind_some in H as (s11 & L6 & H).
  rewrite (star_greedy_ext is_space s11 _
             (fun _ rest => if all_chars not_newline rest
                            then Some (t, u, rest) else None)) in H
    by (intros a b; apply (star_to_end b (fun m => (t, u, m)))).
  apply (spaces_then_rest s11 (fun m => (t, u, m))) in H
    as (ws3 & m & E11 & W3 & X & Hm & Htr).
  injection X as <- <- <-.
  apply clock_time_some in C as [E1 Ts].
  apply lit_some in L1, L2, L3, L4, L5, L6. subst.
  exists tag, ws1, ws2, ws3. unfold kira_line.
  repeat split; assumption || reflexivity.
Qed.

(** ** Strings: [strip] and [in] *)

Lemma rev_string_onto_app (s acc : string) :
  rev_string_onto s acc = (rev_string s ++ acc)%string.
Proof.
  unfold rev_string. revert acc.
  induction s as [|c r IH]; intros acc; [reflexivity|].
  cbn [rev_string_onto]. rewrite (IH (String c acc)), (IH (String c EmptyString)).
  now rewrite append_assoc.
Qed.

Lemma rev_string_cons (c : ascii) (s : string) :
  rev_string (String c s) = (rev_string s ++ String c EmptyString)%string.
Proof. unfold rev_string at 1. cbn [rev_string_onto]. apply rev_string_onto_app. Qed.

Lemma append_empty (s : string) : (s ++ "")%string = s.
Proof. induction s as [|c r IH]; cbn; congruence. Qed.

Lemma rev_string_app (a b : string) :
  rev_string (a ++ b)%string = (rev_string b ++ rev_string a)%string.
Proof.
  induction a as [|c a IH]; cbn [String.append].
  - now rewrite append_empty.
  - now rewrite !rev_string_cons, IH, append_assoc.
Qed.

Lemma rev_string_involutive (s : string) : rev_string (rev_string s) = s.
Proof.
  induction s as [|c r IH]; [reflexivity|].
  rewrite rev_string_cons, rev_string_app, IH. reflexivity.
Qed.

Lemma lstrip_idem (s : string) : lstrip (lstrip s) = lstrip s.
Proof.
  induction s as [|c r IH]; [reflexivity|].
  cbn [lstrip]. destruct (is_space c) eqn:E; [exact IH|].
  cbn [lstrip]. now rewrite E.
Qed.

Lemma lstrip_trimmed (s : string) : trimmed_left s = true -> lstrip s = s.
Proof.
  destruct s as [|c r]; [reflexivity|]. cbn.
  now destruct (is_space c).
Qed.

Lemma trimmed_lstrip (s : string) : trimmed_left (lstrip s) = true.
Proof.
  induction s as [|c r IH]; [reflexivity|].
  cbn [lstrip]. destruct (is_space c) eqn:E; [exact IH|]. cbn. now rewrite E.
Qed.

(** Stripping the end of a text that does not begin with whitespace
    leaves a text that does not begin with whitespace. *)
Lemma lstrip_keeps_last (s : string) (c : ascii) :
  is_space c = false ->
  lstrip (s ++ String c EmptyString)%string
  = (lstrip s ++ String c EmptyString)%string.
Proof.
  intros E. induction s as [|d r IH]; cbn [String.append lstrip].
  - now rewrite E.
  - destruct (is_space d); [exact IH | reflexivity].
Qed.

Lemma trimmed_rstrip (s : string) :
  trimmed_left s = true ->
  trimmed_left (rev_string (lstrip (rev_string s))) = true.
Proof.
  destruct s as [|c r]; [reflexivity|]. cbn [trimmed_left]. intros E.
  apply negb_true_iff in E.
  rewrite rev_string_cons, (lstrip_keeps_last _ _ E), rev_string_app.
  cbn. now rewrite E.
Qed.

Lemma strip_idem (s : string) : strip (strip s) = strip s.
Proof.
  unfold strip.
  rewrite (lstrip_trimmed (rev_string (lstrip (rev_string (lstrip s)))))
    by apply trimmed_rstrip, trimmed_lstrip.
  now rewrite rev_string_involutive, lstrip_idem.
Qed.

Lemma strip_blank (s : string) : all_chars is_space s = true -> strip s = "".
Proof.
  intros H. unfold strip.
  assert (E : lstrip s = "").
  { induction s as [|c r IH]; [reflexivity|].
    cbn in H. apply andb_prop in H as [Sc H]. cbn [lstrip]. rewrite Sc. auto. }
  now rewrite E.
Qed.

Lemma prefix_refl (s : string) : String.prefix s s = true.
Proof.
  induction s as [|c r IH]; [reflexivity|].
  cbn. destruct (ascii_dec c c); [exact IH | congruence].
Qed.

Lemma contains_refl (s : string) : contains s s = true.
Proof. destruct s; cbn [contains]; now rewrite prefix_refl. Qed.

Lemma contains_empty (s : string) : contains "" s = true.
Proof. destruct s; reflexivity. Qed.

(** ** Looking a farm up by name (lines 232-249) *)

Lemma filter_farms_run (w : world) (p : string -> bool) (l : list nat) :
  (forall i, In i l -> exists n, obj_name w i = Some n) ->
  filter_farms p l w = (Some (filter (name_is w p) l), w).
Proof.
  induction l as [|i r IH]; intros H; [reflexivity|].
  destruct (H i (or_introl eq_refl)) as (n & Hn).
  cbn [filter_farms filter].
  rewrite (bind_run _ _ _ _ _ (farm_name_run _ _ _ Hn)).
  rewrite (bind_run _ _ _ _ _ (IH (fun j Hj => H j (or_intror Hj)))).
  assert (E : name_is w p i = p (lower (strip n))).
  { unfold name_is, normal. now rewrite Hn. }
  rewrite E. reflexivity.
Qed.

Lemma hd_filter {A} (p : A -> bool) (l : list A) :
  match filter p l with x :: _ => Some x | [] => None end = find p l.
Proof.
  induction l as [|a r IH]; [reflexivity|].
  cbn. destruct (p a); [reflexivity | exact IH].
Qed.

Lemma get_farm_exact_first_match (w : world) (q : string) :
  names_readable w -> q <> "" ->
  get_farm_exact q w = (Some (first_match w q), w).
Proof.
  intros Hr Hq. unfold get_farm_exact, find_farms_by_name_partial, first_match.
  destruct (String.eqb_spec q ""); [contradiction|].
  fold (clean q).
  rewrite (bind_run _ _ w w
             (match filter (name_is w (String.eqb (clean q))) (farms w) with
              | _ :: _ => filter (name_is w (String.eqb (clean q))) (farms w)
              | [] => filter (name_is w (contains (clean q))) (farms w)
              end)).
  - rewrite <- !hd_filter. unfold ret.
    destruct (filter (name_is w (String.eqb (clean q))) (farms w)); reflexivity.
  - rewrite (bind_run _ _ w w (farms w)) by reflexivity.
    rewrite (bind_run _ _ _ _ _ (filter_farms_run w _ _ Hr)).
    destruct (filter (name_is w (String.eqb (clean q))) (farms w));
      [apply (filter_farms_run w _ _ Hr) | reflexivity].
Qed.

Lemma find_first {A} (p : A -> bool) (l : list A) (x : A) :
  find p l = Some x ->
  p x = true /\ exists l1 l2, l = l1 ++ x :: l2
                              /\ forall y, In y l1 -> p y = false.
Proof.
  induction l as [|a r IH]; [discriminate|].
  cbn [find]. destruct (p a) eqn:E.
  - intros [= ->]. split; [assumption|]. exists [], r. split; [reflexivity|].
    intros y [].
  - intros H. destruct (IH H) as (Hx & l1 & l2 & -> & Hl). split; [assumption|].
    exists (a :: l1), l2. split; [reflexivity|].
    intros y [<-|Hy]; auto.
Qed.

Lemma find_all_false {A} (p : A -> bool) (l : list A) :
  (forall y, In y l -> p y = false) -> find p l = None.
Proof.
  induction l as [|a r IH]; intros H; [reflexivity|].
  cbn [find]. rewrite (H a (or_introl eq_refl)).
  apply IH. intros y Hy. apply H. now right.
Qed.

(** X3: When the stored name of some registered farm, stripped and
    lowercased, is the cleaned query, a look-up returns the first such
    farm of the registry, whatever farms before it contain the query;
    only when no name is the query does it return the first farm whose
    name contains it. *)
Theorem lookup_prefers_exact (w : world) (q : string) :
  names_readable w -> q <> "" ->
  (forall j, In j (farms w) -> name_is w (String.eqb (clean q)) j = true ->
     exists i l1 l2,
       get_farm_exact q w = (Some (Some i), w)
       /\ name_is w (String.eqb (clean q)) i = true
       /\ farms w = l1 ++ i :: l2
       /\ forall x, In x l1 -> name_is w (String.eqb (clean q)) x = false)
  /\ ((forall j, In j (farms w) -> name_is w (String.eqb (clean q)) j = false) ->
      get_farm_exact q w
      = (Some (find (name_is w (contains (clean q))) (farms w)), w)).
Proof.
  intros Hr Hq. rewrite (get_farm_exact_first_match w q Hr Hq).
  unfold first_match. split.
  - intros j Hin Hj.
    destruct (find (name_is w (String.eqb (clean q))) (farms w)) as [i|] eqn:E.
    + destruct (find_first _ _ _ E) as (Hi & l1 & l2 & Hl & Hno).
      exists i, l1, l2. auto.
    + pose proof (find_none _ _ E j Hin). congruence.
  - intros Hno. now rewrite (find_all_false _ _ Hno).
Qed.

Lemma name_is_weaken (w : world) (p p' : string -> bool) (i : nat) :
  (forall s, p s = true -> p' s = true) ->
  name_is w p i = true -> name_is w p' i = true.
Proof. unfold name_is. destruct (obj_name w i); auto. Qed.

Lemma eqb_contains (a s : string) : String.eqb a s = true -> contains a s = true.
Proof. intros H. apply String.eqb_eq in H as ->. apply contains_refl. Qed.

(** X4: A look-up succeeds exactly when the query is not empty and the
    name of some registered farm contains the cleaned query; the farm it
    returns is registered and its name contains the cleaned query. *)
Theorem lookup_finds_iff (w : world) (q : string) :
  names_readable w ->
  ((exists i, fst (get_farm_exact q w) = Some (Some i))
   <-> (q <> "" /\ exists j, In j (farms w)
                             /\ name_is w (contains (clean q)) j = true))
  /\ (forall i, fst (get_farm_exact q w) = Some (Some i) ->
        In i (farms w) /\ name_is w (contains (clean q)) i = true).
Proof.
  intros Hr.
  assert (Hrun : get_farm_exact q w
                 = (Some (if String.eqb q "" then None else first_match w q), w)).
  { destruct (String.eqb_spec q "") as [->|Hq]; [reflexivity|].
    now apply get_farm_exact_first_match. }
  rewrite Hrun. cbn [fst].
  assert (Hfound : forall i, first_match w q = Some i ->
            In i (farms w) /\ name_is w (contains (clean q)) i = true).
  { unfold first_match. intros i.
    destruct (find (name_is w (String.eqb (clean q))) (farms w)) as [x|] eqn:E.
    - intros [= ->]. apply find_some in E as [Hin Hx]. split; [assumption|].
      revert Hx. apply name_is_weaken, eqb_contains.
    - intros H. now apply find_some in H. }
  split; [split|].
  - intros [i H]. destruct (String.eqb_spec q ""); [discriminate|].
    split; [assumption|]. injection H as H. exists i. now apply Hfound.
  - intros [Hq (j & Hin & Hj)]. destruct (String.eqb_spec q ""); [contradiction|].
    unfold first_match.
    destruct (find (name_is w (String.eqb (clean q))) (farms w)) as [x|];
      [eauto|].
    destruct (find (name_is w (contains (clean q))) (farms w)) as [x|] eqn:E;
      [eauto|].
    pose proof (find_none _ _ E j Hin). congruence.
  - intros i H. destruct (String.eqb_spec q ""); [discriminate|].
    injection H as H. now apply Hfound.
Qed.

(** X5: A query that is not empty but holds only whitespace is cleaned to
    the empty text, which every name contains: the look-up returns the
    first farm of the registry, unless a farm has a blank name. *)
Theorem blank_query_takes_first_farm (w : world) (q : string) (i : nat)
    (rest : list nat) :
  names_readable w -> q <> "" -> all_chars is_space q = true ->
  farms w = i :: rest ->
  (forall j, In j (farms w) -> name_is w (String.eqb "") j = false) ->
  get_farm_exact q w = (Some (Some i), w).
Proof.
  intros Hr Hq Hb Hf Hnb. rewrite (get_farm_exact_first_match w q Hr Hq).
  unfold first_match, clean. rewrite (strip_blank q Hb). cbn [lower collapse_ws
    collapse_ws_from].
  destruct (find (name_is w (String.eqb "")) (farms w)) as [x|] eqn:E.
  - apply find_some in E as [Hin Hx]. rewrite (Hnb x Hin) in Hx. discriminate.
  - rewrite Hf. cbn [find]. unfold name_is.
    destruct (Hr i) as (n & ->); [rewrite Hf; now left|].
    now rewrite contains_empty.
Qed.

(** ** Code that leaves the data and the file alone *)

Lemma settled_refl (w : world) : settled w w.
Proof. repeat split. Qed.

Lemma settled_trans (a b c : world) : settled a b -> settled b c -> settled a c.
Proof.
  intros (A1 & A2 & A3 & A4 & A5) (B1 & B2 & B3 & B4 & B5).
  repeat split; congruence.
Qed.

Create HintDb settled_frame.

Ltac settled_frame :=
  frame settled_refl settled_trans
        ltac:(first [ apply settled_refl
                    | solve [repeat split]
                    | solve [auto with settled_frame] ]).

Lemma emit_settled (e : event) : respects settled (emit e).
Proof. unfold emit. settled_frame. Qed.
#[local] Hint Resolve emit_settled : settled_frame.

Lemma task_cancel_settled (t : nat) : respects settled (task_cancel t).
Proof.
  unfold task_cancel. apply (respects_bind _ settled_trans).
  - unfold get_coro. settled_frame.
  - intros c. settled_frame.
Qed.
#[local] Hint Resolve task_cancel_settled : settled_frame.

Lemma create_task_settled (f : frame) : respects settled (create_task f).
Proof. unfold create_task. settled_frame. Qed.
#[local] Hint Resolve create_task_settled : settled_frame.

Lemma send_notice_settled (n : notice) : respects settled (send_notice n).
Proof. unfold send_notice. settled_frame. Qed.
#[local] Hint Resolve send_notice_settled : settled_frame.

Lemma schedule_task_settled (farm : nat) :
  respects settled (schedule_task_for_farm farm).
Proof. unfold schedule_task_for_farm. settled_frame. Qed.
#[local] Hint Resolve schedule_task_settled : settled_frame.

Lemma update_farms_embed_settled : respects settled update_farms_embed.
Proof. unfold update_farms_embed. settled_frame. Qed.
#[local] Hint Resolve update_farms_embed_settled : settled_frame.

Lemma command_after_embed_settled (n : string) :
  respects settled (command_after_embed n).
Proof. unfold command_after_embed. settled_frame. Qed.
#[local] Hint Resolve command_after_embed_settled : settled_frame.

Lemma command_tail_settled (n : string) :
  respects settled (call_embed (FCommandEmbed n) (command_after_embed n)).
Proof. unfold call_embed. settled_frame. Qed.
#[local] Hint Resolve command_tail_settled : settled_frame.

Lemma dump_settled (w w' : world) : settled w w' -> dump w' = dump w.
Proof.
  intros (H1 & H2 & H3 & H4 & H5). unfold dump, in_memory_data.
  now rewrite H1, H2, H3, H4, H5.
Qed.

(** [save_farms(data)] leaves on disk what it was given. *)
Lemma save_synced (w : world) :
  disk (snd (save w)) = dump w /\ dump (snd (save w)) = dump w
  /\ objs (snd (save w)) = objs w /\ farms (snd (save w)) = farms w
  /\ last_message_id (snd (save w)) = last_message_id w
  /\ status_message_id (snd (save w)) = status_message_id w.
Proof.
  unfold save, dump, bind, modify, emit, raise, ret.
  destruct (in_memory_data w) as [d|] eqn:E; cbn.
  - destruct (save_farms isoformat d) as [doc|] eqn:S; cbn;
      unfold in_memory_data in *; cbn; rewrite E; cbn; rewrite S; auto 10.
  - rewrite E. auto 10.
Qed.

(** A save followed by code that leaves the data alone ends with the
    file up to date. *)
Lemma save_then_synced {A} (K : M A) (w : world) :
  respects settled K ->
  synced (snd ((save ;;; K) w))
  /\ objs (snd ((save ;;; K) w)) = objs w
  /\ farms (snd ((save ;;; K) w)) = farms w.
Proof.
  intros HK. destruct (save_synced w) as (S1 & S2 & S3 & S4 & S5 & S6).
  unfold bind. destruct (save w) as [[[]|] w1]; cbn [snd] in *.
  - destruct (HK w1) as (K1 & K2 & K3 & K4 & K5).
    unfold synced. rewrite (dump_settled w1 _ (HK w1)).
    repeat split; congruence.
  - unfold synced. repeat split; congruence.
Qed.

(** ** [/removefarm] on a name that is registered (lines 505-533) *)

Lemma first_farm_run (w : world) (p : string -> bool) (l : list nat) :
  (forall i, In i l -> exists n, obj_name w i = Some n) ->
  first_farm p l w = (Some (find (name_is w p) l), w).
Proof.
  induction l as [|i r IH]; intros H; [reflexivity|].
  destruct (H i (or_introl eq_refl)) as (n & Hn).
  cbn [first_farm find].
  rewrite (bind_run _ _ _ _ _ (farm_name_run _ _ _ Hn)).
  assert (E : name_is w p i = p (lower (strip n))).
  { unfold name_is, normal. now rewrite Hn. }
  rewrite E. destruct (p (lower (strip n))); [reflexivity|].
  apply IH. intros j Hj. apply H. now right.
Qed.

Lemma cancel_and_pop_data (n : string) (w : world) :
  objs (cancel_and_pop n w) = objs w /\ farms (cancel_and_pop n w) = farms w
  /\ disk (cancel_and_pop n w) = disk w /\ log (cancel_and_pop n w) = log w.
Proof.
  unfold cancel_and_pop.
  destruct (sched_get n (scheduled w)) as [t|]; [|auto].
  destruct (nth_error (coros w) t) as [c|]; [|auto].
  destruct (co_state c); auto.
Qed.

(** The command up to the point where the registry is rewritten. *)
Lemma removefarm_found_run (w : world) (arg : string) (i : nat) (n : string) :
  names_readable w -> sched_valid w ->
  find (name_is w (String.eqb (normal arg))) (farms w) = Some i ->
  obj_name w i = Some n ->
  removefarm arg w
  = (save ;;; call_embed (FCommandEmbed n) (command_after_embed n))
      (set_farms (without w arg) (cancel_and_pop n w)).
Proof.
  intros Hr Hv Hfind Hn. unfold removefarm. cbv zeta.
  rewrite (bind_run _ _ w w (farms w)) by reflexivity.
  rewrite (bind_run _ _ _ _ _ (first_farm_run w _ _ Hr)).
  fold (normal arg). rewrite Hfind.
  rewrite (bind_run _ _ _ _ _ (farm_name_run _ _ _ Hn)).
  rewrite (bind_run _ _ w w (sched_get n (scheduled w))) by reflexivity.
  rewrite (bind_run _ _ _ _ _ (cancel_pop_block_run w n Hv)).
  destruct (cancel_and_pop_data n w) as (Ho & Hf & _).
  assert (Hr' : forall j, In j (farms w) ->
                  exists m, obj_name (cancel_and_pop n w) j = Some m).
  { intros j Hj. unfold obj_name. rewrite Ho. apply (Hr j Hj). }
  rewrite (bind_run _ _ _ _ _
             (filter_farms_run (cancel_and_pop n w) _ _ Hr')).
  assert (E : filter (name_is (cancel_and_pop n w)
                        (fun n0 => negb (String.eqb n0 (normal arg)))) (farms w)
              = without w arg).
  { unfold without. apply filter_ext. intros j. unfold name_is, obj_name.
    now rewrite Ho. }
  fold (normal arg). rewrite E. reflexivity.
Qed.

Lemma In_without (w : world) (arg : string) (j : nat) :
  In j (without w arg) ->
  In j (farms w) /\ name_is w (String.eqb (normal arg)) j = false.
Proof.
  unfold without. intros H. apply filter_In in H as [Hin H]. split; [assumption|].
  unfold name_is in *. destruct (obj_name w j) as [m|]; [|reflexivity].
  apply negb_true_iff in H. now rewrite String.eqb_sym.
Qed.

(** X6: [/removefarm] with the name of a registered farm takes every farm
    of that normalised name out of the registry - the others stay, in
    their order - touches no record, and leaves farms.json up to date
    with the shorter registry. *)
Theorem removefarm_removes_namesakes (w : world) (arg : string) (j : nat) :
  names_readable w -> sched_valid w ->
  In j (farms w) -> name_is w (String.eqb (normal arg)) j = true ->
  let w' := snd (removefarm arg w) in
  farms w' = without w arg
  /\ (forall x, In x (farms w') ->
        In x (farms w) /\ name_is w (String.eqb (normal arg)) x = false)
  /\ ~ In j (farms w')
  /\ objs w' = objs w
  /\ synced w'.
Proof.
  intros Hr Hv Hin Hj w'.
  destruct (find (name_is w (String.eqb (normal arg))) (farms w)) as [i|] eqn:E.
  2:{ pose proof (find_none _ _ E j Hin). congruence. }
  destruct (find_some _ _ E) as [Hi _]. destruct (Hr i Hi) as [n Hn].
  subst w'. rewrite (removefarm_found_run w arg i n Hr Hv E Hn).
  destruct (save_then_synced
              (call_embed (FCommandEmbed n) (command_after_embed n))
              (set_farms (without w arg) (cancel_and_pop n w))
              (command_tail_settled n)) as (S & So & Sf).
  destruct (cancel_and_pop_data n w) as (Ho & _).
  rewrite Sf. cbn [farms set_farms].
  split; [reflexivity|]. split; [apply In_without|].
  split.
  { intros H. apply In_without in H as [_ H]. congruence. }
  split; [|exact S]. rewrite So. exact Ho.
Qed.

(** ** Autocomplete (lines 494-499, 541-549 and 645-648) *)

Lemma farm_name_some (w w' : world) (i : nat) (n : string) :
  farm_name i w = (Some n, w') -> obj_name w i = Some n /\ w' = w.
Proof.
  intros H. pose proof (farm_name_snd i w) as S. rewrite H in S. cbn in S.
  split; [|assumption]. subst w'.
  destruct (obj_name w i) as [m|] eqn:E.
  - rewrite (farm_name_run _ _ _ E) in H. congruence.
  - rewrite (farm_name_raise _ _ E) in H. discriminate.
Qed.

(** The names offered: those of the farms of [l] whose lowercased name
    contains the needle, in the order of [l]. *)
Lemma names_containing_some (w : world) (needle : string) (l : list nat)
    (ns : list string) :
  fst (names_containing needle l w) = Some ns ->
  names_containing needle l w = (Some ns, w)
  /\ (forall i, In i l -> exists n, obj_name w i = Some n)
  /\ (forall n, In n ns ->
        exists i, In i l /\ obj_name w i = Some n
                  /\ contains needle (lower n) = true)
  /\ (forall i n, In i l -> obj_name w i = Some n ->
        contains needle (lower n) = true -> In n ns)
  /\ (List.length ns <= List.length l)%nat.
Proof.
  revert ns. induction l as [|i r IH]; intros ns.
  - cbn. intros [= <-]. split; [reflexivity|]. split; [intros ? []|].
    split; [intros ? []|]. split; [intros ? ? []|]. auto.
  - intros H.
    destruct (farm_name i w) as [[n|] w1] eqn:En.
    2:{ cbn [names_containing] in H. unfold bind in H. rewrite En in H.
        discriminate. }
    apply farm_name_some in En as [Hn ->].
    destruct (names_containing needle r w) as [[rest|] w2] eqn:Er.
    2:{ cbn [names_containing] in H.
        rewrite (bind_run _ _ _ _ _ (farm_name_run _ _ _ Hn)) in H.
        unfold bind in H. rewrite Er in H. discriminate. }
    destruct (IH rest eq_refl) as (Hrun & Hread & Hsound & Hcompl & Hlen).
    injection Hrun as ->.
    assert (E : names_containing needle (i :: r) w
                = (Some (if contains needle (lower n) then n :: rest else rest),
                   w)).
    { cbn [names_containing].
      rewrite (bind_run _ _ _ _ _ (farm_name_run _ _ _ Hn)).
      now rewrite (bind_run _ _ _ _ _ Er). }
    rewrite E in H |- *. cbn [fst] in H. injection H as <-.
    split; [reflexivity|].
    split.
    { intros j [<-|Hj]; eauto. }
    split.
    { intros m Hm. destruct (contains needle (lower n)) eqn:C.
      - destruct Hm as [<-|Hm].
        + exists i. split; [now left|]. auto.
        + destruct (Hsound m Hm) as (j & Hj & Hjn & Hc). exists j.
          split; [now right | auto].
      - destruct (Hsound m Hm) as (j & Hj & Hjn & Hc). exists j.
        split; [now right | auto]. }
    split.
    { intros j m [<-|Hj] Hm Hc.
      - assert (m = n) by congruence. subst m. rewrite Hc. now left.
      - specialize (Hcompl j m Hj Hm Hc).
        destruct (contains needle (lower n)); [now right | assumption]. }
    destruct (contains needle (lower n)); cbn [List.length]; lia.
Qed.

Lemma In_firstn {A} (k : nat) (l : list A) (x : A) : In x (firstn k l) -> In x l.
Proof.
  intros H. rewrite <- (firstn_skipn k l). apply in_or_app. now left.
Qed.

Lemma farms_autocomplete_some (w : world) (text : string) (l : list string) :
  fst (farms_autocomplete text w) = Some l ->
  exists ns, names_containing (lower text) (farms w) w = (Some ns, w)
             /\ l = firstn 25 ns.
Proof.
  unfold farms_autocomplete. unfold bind at 1, gets at 1. unfold bind at 1.
  destruct (names_containing (lower text) (farms w) w) as [[ns|] w1] eqn:E;
    [|discriminate].
  destruct (names_containing_some w (lower text) (farms w) ns) as (Hrun & _);
    [now rewrite E|].
  cbn. intros [= <-]. exists ns. split; [congruence | reflexivity].
Qed.

(** X7: The autocomplete callbacks offer at most 25 names; every name
    offered is the name of a registered farm and contains the typed text
    when both are lowercased; with at most 25 farms in the registry,
    every such name is offered; and nothing is changed. *)
Theorem autocomplete_choices (w : world) (text : string) (l : list string) :
  fst (farms_autocomplete text w) = Some l ->
  (List.length l <= 25)%nat
  /\ (forall n, In n l ->
        exists i, In i (farms w) /\ obj_name w i = Some n
                  /\ contains (lower text) (lower n) = true)
  /\ ((List.length (farms w) <= 25)%nat ->
      forall i n, In i (farms w) -> obj_name w i = Some n ->
                  contains (lower text) (lower n) = true -> In n l)
  /\ snd (farms_autocomplete text w) = w.
Proof.
  intros H. destruct (farms_autocomplete_some w text l H) as (ns & Hns & ->).
  destruct (names_containing_some w (lower text) (farms w) ns)
    as (_ & _ & Hsound & Hcompl & Hlen); [now rewrite Hns|].
  split; [apply firstn_le_length|].
  split; [intros n Hn; apply Hsound; eapply In_firstn; eauto|].
  split.
  - intros Hsmall i n Hi Hn Hc. rewrite firstn_all2 by lia. eauto.
  - unfold farms_autocomplete.
    rewrite (bind_run _ _ w w (farms w)) by reflexivity.
    now rewrite (bind_run _ _ _ _ _ Hns).
Qed.

(** X8: Every name the autocomplete of [/removefarm] offers is accepted by
    [/removefarm]: the command takes the farms of that name out of the
    registry, which gets shorter. *)
Theorem offered_name_removable (w : world) (text n : string) (l : list string) :
  sched_valid w ->
  fst (removefarm_autocomplete text w) = Some l -> In n l ->
  let w' := snd (removefarm n w) in
  farms w' = without w n
  /\ (List.length (farms w') < List.length (farms w))%nat
  /\ forall x, In x (farms w') -> obj_name w x <> Some n.
Proof.
  intros Hv H Hn w'. unfold removefarm_autocomplete in H.
  destruct (farms_autocomplete_some w text l H) as (ns & Hns & ->).
  destruct (names_containing_some w (lower text) (farms w) ns)
    as (_ & Hr & Hsound & _); [now rewrite Hns|].
  destruct (Hsound n (In_firstn _ _ _ Hn)) as (j & Hj & Hjn & _).
  assert (Hm : name_is w (String.eqb (normal n)) j = true).
  { unfold name_is. rewrite Hjn. apply String.eqb_refl. }
  destruct (find (name_is w (String.eqb (normal n))) (farms w)) as [i|] eqn:E.
  2:{ pose proof (find_none _ _ E j Hj). congruence. }
  destruct (find_some _ _ E) as [Hi _]. destruct (Hr i Hi) as [m Hmn].
  subst w'. rewrite (removefarm_found_run w n i m Hr Hv E Hmn).
  destruct (save_then_synced
              (call_embed (FCommandEmbed m) (command_after_embed m))
              (set_farms (without w n) (cancel_and_pop m w))
              (command_tail_settled m)) as (_ & _ & Sf).
  rewrite Sf. cbn [farms set_farms]. split; [reflexivity|]. split.
  - unfold without. clear - Hj Hm. induction (farms w) as [|a r IH]; [destruct Hj|].
    cbn [filter List.length]. destruct Hj as [->|Hj].
    + assert (F : name_is w (fun m => negb (String.eqb m (normal n))) j = false).
      { unfold name_is in *. destruct (obj_name w j); [|discriminate].
        rewrite String.eqb_sym, Hm. reflexivity. }
      rewrite F. pose proof (filter_length_le
        (name_is w (fun m => negb (String.eqb m (normal n)))) r). lia.
    + specialize (IH Hj).
      destruct (name_is w _ a); cbn [List.length]; lia.
  - intros x Hx Hxn. apply In_without in Hx as [_ Hx].
    unfold name_is in Hx. rewrite Hxn, String.eqb_refl in Hx. discriminate.
Qed.

(** X9: A name offered by the autocomplete of [/farms] and [/editfarm] is
    resolved by these commands to a farm of that normalised name when
    the name is not empty and is left as it is by the cleaning of the
    query (no tab, no run of several spaces inside); a farm whose
    stored name the cleaning changes, and whose cleaned name no stored
    name contains, is offered and then not found. *)
Theorem offered_name_resolves (w : world) (text n : string) (l : list string) :
  fst (editfarm_autocomplete text w) = Some l -> In n l -> n <> "" ->
  (clean n = normal n ->
   exists i, get_farm_exact n w = (Some (Some i), w)
             /\ In i (farms w)
             /\ name_is w (String.eqb (normal n)) i = true)
  /\ ((forall j, In j (farms w) -> name_is w (contains (clean n)) j = false) ->
      get_farm_exact n w = (Some None, w)).
Proof.
  intros H Hn Hne. unfold editfarm_autocomplete in H.
  destruct (farms_autocomplete_some w text l H) as (ns & Hns & ->).
  destruct (names_containing_some w (lower text) (farms w) ns)
    as (_ & Hr & Hsound & _); [now rewrite Hns|].
  destruct (Hsound n (In_firstn _ _ _ Hn)) as (j & Hj & Hjn & _).
  rewrite (get_farm_exact_first_match w n Hr Hne). unfold first_match. split.
  - intros Hc. rewrite Hc.
    destruct (find (name_is w (String.eqb (normal n))) (farms w)) as [i|] eqn:E.
    + apply find_some in E as [Hi Hm]. eauto.
    + pose proof (find_none _ _ E j Hj) as F. unfold name_is in F.
      rewrite Hjn, String.eqb_refl in F. discriminate.
  - intros Hno.
    rewrite (find_all_false (name_is w (String.eqb (clean n))) (farms w)).
    + now rewrite (find_all_false _ _ Hno).
    + intros x Hx. specialize (Hno x Hx).
      destruct (name_is w (String.eqb (clean n)) x) eqn:Ex; [|reflexivity].
      rewrite (name_is_weaken w _ (contains (clean n)) x
                 (eqb_contains (clean n)) Ex) in Hno. discriminate.
Qed.

(** ** [/addfarm] (lines 563-594) *)

Lemma addfarm_run (w : world) (name coords total_output : string)
    (rm : Z) (rh : Q) (rt rg : Z) :
  names_readable w ->
  find (name_is w (String.eqb (normal name))) (farms w) = None ->
  timedelta_minutes rm = Some rt -> timedelta_hours rh = Some rg ->
  addfarm name coords total_output rm rh w
  = (save ;;; call_embed (FCommandEmbed name) (command_after_embed name))
      (with_farm (new_record name coords total_output rt rg) w).
Proof.
  intros Hr Hfind Hrt Hrg. unfold addfarm.
  rewrite (bind_run _ _ w w (farms w)) by reflexivity.
  rewrite (bind_run _ _ _ _ _ (first_farm_run w _ _ Hr)).
  fold (normal name). rewrite Hfind, Hrt, Hrg. reflexivity.
Qed.

Lemma addfarm_refused_run (w : world) (name coords total_output : string)
    (rm : Z) (rh : Q) (i : nat) :
  names_readable w ->
  find (name_is w (String.eqb (normal name))) (farms w) = Some i ->
  addfarm name coords total_output rm rh w
  = (Some (Suspended [FCommandRespond]),
     set_log (log w ++ [EvRespond false name]) w).
Proof.
  intros Hr Hfind. unfold addfarm.
  rewrite (bind_run _ _ w w (farms w)) by reflexivity.
  rewrite (bind_run _ _ _ _ _ (first_farm_run w _ _ Hr)).
  fold (normal name). rewrite Hfind. reflexivity.
Qed.

Lemma addfarm_raise_run (w : world) (name coords total_output : string)
    (rm : Z) (rh : Q) :
  names_readable w ->
  find (name_is w (String.eqb (normal name))) (farms w) = None ->
  timedelta_minutes rm = None \/ timedelta_hours rh = None ->
  addfarm name coords total_output rm rh w = (None, w).
Proof.
  intros Hr Hfind H. unfold addfarm.
  rewrite (bind_run _ _ w w (farms w)) by reflexivity.
  rewrite (bind_run _ _ _ _ _ (first_farm_run w _ _ Hr)).
  fold (normal name). rewrite Hfind.
  destruct (timedelta_minutes rm) as [rt|]; [|reflexivity].
  destruct H as [H|H]; [discriminate|]. now rewrite H.
Qed.

(** X10: [/addfarm] with a new name and durations a timedelta can hold puts
    one record at the end of the registry - the texts stripped, the
    status unknown, no [next_ready] - leaves the other records as they
    are and farms.json up to date with the longer registry. *)
Theorem addfarm_appends (w : world) (name coords total_output : string)
    (rm : Z) (rh : Q) (rt rg : Z) :
  names_readable w ->
  (forall j, In j (farms w) -> name_is w (String.eqb (normal name)) j = false) ->
  timedelta_minutes rm = Some rt -> timedelta_hours rh = Some rg ->
  let w' := snd (addfarm name coords total_output rm rh w) in
  farms w' = farms w ++ [List.length (objs w)]
  /\ objs w' = objs w ++ [new_record name coords total_output rt rg]
  /\ synced w'
  /\ rt = rm * 60 * US_PER_SECOND.
Proof.
  intros Hr Hno Hrt Hrg w'. subst w'.
  rewrite (addfarm_run w name coords total_output rm rh rt rg Hr
             (find_all_false _ _ Hno) Hrt Hrg).
  destruct (save_then_synced
              (call_embed (FCommandEmbed name) (command_after_embed name))
              (with_farm (new_record name coords total_output rt rg) w)
              (command_tail_settled name)) as (S & So & Sf).
  rewrite So, Sf. repeat split; try assumption.
  unfold timedelta_minutes in Hrt.
  destruct (td_in_range (rm * 60 * US_PER_SECOND)); congruence.
Qed.

(** X11: [/addfarm] with the name of a registered farm - compared stripped
    and lowercased - is refused: the reply apart, nothing changes. *)
Theorem addfarm_duplicate_refused (w : world) (name coords total_output : string)
    (rm : Z) (rh : Q) (j : nat) :
  names_readable w ->
  In j (farms w) -> name_is w (String.eqb (normal name)) j = true ->
  addfarm name coords total_output rm rh w
  = (Some (Suspended [FCommandRespond]),
     set_log (log w ++ [EvRespond false name]) w).
Proof.
  intros Hr Hj Hm.
  destruct (find (name_is w (String.eqb (normal name))) (farms w)) as [i|] eqn:E.
  - now apply addfarm_refused_run with (i := i).
  - pose proof (find_none _ _ E j Hj). congruence.
Qed.

Lemma timedelta_minutes_range (m : Z) :
  timedelta_minutes m = None
  <-> (m < -1439999998560 \/ 1440000000000 <= m).
Proof.
  unfold timedelta_minutes, td_in_range, US_PER_DAY, TD_MAX_DAYS, US_PER_SECOND.
  replace (m * 60 * 1000000) with (m * 60000000) by lia.
  replace (86400 * 1000000) with (1440 * 60000000) by lia.
  rewrite Z.div_mul_cancel_r by lia.
  destruct ((- (999999999) <=? m / 1440) && (m / 1440 <=? 999999999)) eqn:E.
  - split; [discriminate|]. apply andb_prop in E as [E1 E2].
    apply Z.leb_le in E1, E2. intros H. exfalso.
    pose proof (Z.div_mod m 1440). pose proof (Z.mod_pos_bound m 1440). lia.
  - split; [|reflexivity]. intros _. apply andb_false_iff in E as [E|E];
      apply Z.leb_gt in E;
      pose proof (Z.div_mod m 1440); pose proof (Z.mod_pos_bound m 1440); lia.
Qed.

(** X12: [/addfarm] with a new name and a duration outside the range of a
    timedelta - for the minutes, below -1439999998560 or from
    1440000000000 on - raises before anything is changed: no record, no
    save, no reply. *)
Theorem addfarm_out_of_range (w : world) (name coords total_output : string)
    (rm : Z) (rh : Q) :
  names_readable w ->
  (forall j, In j (farms w) -> name_is w (String.eqb (normal name)) j = false) ->
  rm < -1439999998560 \/ 1440000000000 <= rm \/ timedelta_hours rh = None ->
  addfarm name coords total_output rm rh w = (None, w).
Proof.
  intros Hr Hno H. apply addfarm_raise_run; auto using find_all_false.
  destruct H as [H|[H|H]]; auto; left; apply timedelta_minutes_range; auto.
Qed.

(** ** Properties of every run

    A relation between worlds that only looks at the records and at
    the registry, and that every piece of code respects, holds between
    the start and the end of every run. *)

Section RunFrame.

Variable R : world -> world -> Prop.
Hypothesis R_refl : forall w, R w w.
Hypothesis R_trans : forall a b c, R a b -> R b c -> R a c.
Hypothesis R_data :
  forall w w', objs w' = objs w -> farms w' = farms w -> R w w'.
Hypothesis R_after : forall f r, respects R (after f r).
Hypothesis R_message : forall m, respects R (on_message m).
Hypothesis R_add : forall n c t rm rh, respects R (addfarm n c t rm rh).
Hypothesis R_edit : forall n c t rm rh, respects R (editfarm n c t rm rh).
Hypothesis R_remove : forall n, respects R (removefarm n).

Lemma unwind_respects (stack : list frame) (r : response) :
  respects R (unwind stack r).
Proof.
  revert r. induction stack as [|f rest IH]; intros r; cbn [unwind].
  - now apply respects_ret.
  - apply (respects_bind _ R_trans); [apply R_after|].
    intros [|fs]; [apply IH | now apply respects_ret].
Qed.

Lemma run_coro_respects (cid : nat) (body : M (list frame)) (w : world) :
  respects R body -> R w (run_coro cid body w).
Proof.
  intros Hb. unfold run_coro. specialize (Hb (set_current (Some cid) w)).
  destruct (body (set_current (Some cid) w)) as [r w1]. cbn [snd] in Hb.
  eapply R_trans; [apply (R_data w (set_current (Some cid) w)); reflexivity|].
  eapply R_trans; [exact Hb|]. apply R_data; reflexivity.
Qed.

Lemma spawn_respects (handler : M ctl) (w : world) :
  respects R handler -> R w (spawn handler w).
Proof.
  intros H. unfold spawn.
  eapply R_trans; [|apply run_coro_respects].
  - apply R_data; reflexivity.
  - apply (respects_bind _ R_trans); [exact H|].
    intros c. now apply respects_ret.
Qed.

Lemma step_respects (l : label) (w : world) : R w (step l w).
Proof.
  destruct l; cbn [step]; try (apply R_data; reflexivity);
    try (apply spawn_respects; auto).
  - destruct (nth_error (coros w) cid) as [[[|f rest] []]|]; try apply R_refl.
    destruct (accepts (clock w) f r); [|apply R_refl].
    apply run_coro_respects, unwind_respects.
  - destruct (nth_error (coros w) cid) as [[st []]|]; try apply R_refl.
    apply R_data; reflexivity.
Qed.

Lemma run_respects (ls : list label) (w : world) : R w (run ls w).
Proof.
  revert w. induction ls as [|l r IH]; intros w; cbn [run]; [apply R_refl|].
  eapply R_trans; [apply step_respects | apply IH].
Qed.

End RunFrame.

(** *** Code that leaves the registry and the names alone *)

Lemma same_names_refl (w : world) : same_names w w.
Proof. repeat split. Qed.

Lemma same_names_trans (a b c : world) :
  same_names a b -> same_names b c -> same_names a c.
Proof.
  intros (A1 & A2 & A3) (B1 & B2 & B3).
  repeat split; try congruence; intros i; now rewrite B3.
Qed.

Create HintDb names_frame.

Ltac names_frame :=
  frame same_names_refl same_names_trans
        ltac:(first [ apply same_names_refl
                    | solve [repeat split]
                    | solve [auto with names_frame] ]).

Lemma farm_set_same_names (i : nat) (k : string) (v : pyval) :
  k <> "name" -> respects same_names (farm_set i k v).
Proof.
  intros Hk w. unfold farm_set, get_farm, bind, gets, lift_option.
  destruct (nth_error (objs w) i) as [f|] eqn:Hf; [|apply same_names_refl].
  cbn. split; [reflexivity|]. split; [apply length_list_set|].
  intros j. now apply obj_name_set_objs.
Qed.

Lemma farm_set_names_status (i : nat) (v : pyval) :
  respects same_names (farm_set i "status" v).
Proof. apply farm_set_same_names. discriminate. Qed.
Lemma farm_set_names_next_ready (i : nat) (v : pyval) :
  respects same_names (farm_set i "next_ready" v).
Proof. apply farm_set_same_names. discriminate. Qed.
Lemma farm_set_names_runtime (i : nat) (v : pyval) :
  respects same_names (farm_set i "runtime" v).
Proof. apply farm_set_same_names. discriminate. Qed.
Lemma farm_set_names_regrow (i : nat) (v : pyval) :
  respects same_names (farm_set i "regrow_time" v).
Proof. apply farm_set_same_names. discriminate. Qed.
Lemma farm_set_names_coords (i : nat) (v : pyval) :
  respects same_names (farm_set i "coords" v).
Proof. apply farm_set_same_names. discriminate. Qed.
Lemma farm_set_names_output (i : nat) (v : pyval) :
  respects same_names (farm_set i "total_output" v).
Proof. apply farm_set_same_names. discriminate. Qed.
#[local] Hint Resolve farm_set_names_status farm_set_names_next_ready
  farm_set_names_runtime farm_set_names_regrow farm_set_names_coords
  farm_set_names_output : names_frame.

Lemma emit_same_names (e : event) : respects same_names (emit e).
Proof. unfold emit. names_frame. Qed.
#[local] Hint Resolve emit_same_names : names_frame.

Lemma save_same_names : respects same_names save.
Proof.
  unfold save. apply (respects_bind _ same_names_trans);
    [intros w; apply same_names_refl|].
  intros d. names_frame.
Qed.
#[local] Hint Resolve save_same_names : names_frame.

Lemma task_cancel_same_names (t : nat) : respects same_names (task_cancel t).
Proof.
  unfold task_cancel. apply (respects_bind _ same_names_trans).
  - unfold get_coro. names_frame.
  - intros c. names_frame.
Qed.
#[local] Hint Resolve task_cancel_same_names : names_frame.

Lemma create_task_same_names (f : frame) : respects same_names (create_task f).
Proof. unfold create_task. names_frame. Qed.
#[local] Hint Resolve create_task_same_names : names_frame.

Lemma send_notice_same_names (n : notice) : respects same_names (send_notice n).
Proof. unfold send_notice. names_frame. Qed.
#[local] Hint Resolve send_notice_same_names : names_frame.

Lemma schedule_task_same_names (farm : nat) :
  respects same_names (schedule_task_for_farm farm).
Proof. unfold schedule_task_for_farm. names_frame. Qed.
#[local] Hint Resolve schedule_task_same_names : names_frame.

Lemma update_farms_embed_same_names : respects same_names update_farms_embed.
Proof. unfold update_farms_embed. names_frame. Qed.
#[local] Hint Resolve update_farms_embed_same_names : names_frame.

Lemma normalize_duration_same_names (i : nat) (k : string) :
  k <> "name" -> respects same_names (normalize_duration i k).
Proof.
  intros Hk. unfold normalize_duration.
  apply (respects_bind _ same_names_trans);
    [apply (respects_farm_get _ same_names_refl same_names_trans)|].
  intros v.
  assert (F : forall u, respects same_names (farm_set i k (PTimedelta u)))
    by (intros; now apply farm_set_same_names).
  destruct v; cbn [is_number]; names_frame.
Qed.

Lemma process_kira_same_names (m : message) :
  respects same_names (process_kira_message m).
Proof.
  unfold process_kira_message, call_embed, start_after_embed,
    finish_after_embed, start_after_send, checkpoint.
  assert (N1 := normalize_duration_same_names).
  destruct (m_groups m) as [[[t u] msg]|]; [|names_frame].
  destruct (split_bar msg) as [[a b]|]; [|names_frame].
  apply (respects_bind _ same_names_trans); [names_frame|].
  intros [farm|]; [|names_frame].
  apply (respects_bind _ same_names_trans); [names_frame|]. intros bc.
  apply (respects_bind _ same_names_trans); [apply N1; discriminate|].
  intros _. apply (respects_bind _ same_names_trans); [apply N1; discriminate|].
  intros _. names_frame.
Qed.
#[local] Hint Resolve process_kira_same_names : names_frame.

Lemma on_ready_schedule_same_names (now : datetime) (l : list nat) :
  respects same_names (on_ready_schedule now l).
Proof.
  induction l as [|i r IH]; cbn [on_ready_schedule]; unfold on_ready_farm;
    names_frame.
Qed.
#[local] Hint Resolve on_ready_schedule_same_names : names_frame.

Lemma on_ready_catchup_same_names (now : datetime) (msgs : list message) :
  respects same_names (on_ready_catchup now msgs).
Proof.
  induction msgs as [|m r IH]; cbn [on_ready_catchup];
    unfold on_ready_tail, call_embed; names_frame.
Qed.
#[local] Hint Resolve on_ready_catchup_same_names : names_frame.

Lemma after_same_names (f : frame) (r : response) :
  respects same_names (after f r).
Proof.
  destruct f; cbn [after];
    unfold on_ready_after_sync, on_ready_tail, embed_recreate, embed_store_id,
      start_after_embed, start_after_send, finish_after_embed, checkpoint,
      failsafe_start, failsafe_after_sleep, failsafe_after_embed,
      schedule_notification_for_farm, notify_farm_ready_plain,
      notify_after_embed, command_after_embed, call_embed;
    names_frame.
Qed.

Lemma on_message_same_names (m : message) : respects same_names (on_message m).
Proof. unfold on_message. names_frame. Qed.

Lemma editfarm_same_names (arg : string) (coords total_output : option string)
    (rm : option Z) (rh : option Q) :
  respects same_names (editfarm arg coords total_output rm rh).
Proof.
  unfold editfarm, call_embed, command_after_embed, command_refused.
  names_frame.
Qed.

(** *** The registry stays in good order *)

Lemma name_is_same (w w' : world) (p : string -> bool) (i : nat) :
  obj_name w' i = obj_name w i -> name_is w' p i = name_is w p i.
Proof. unfold name_is. now intros ->. Qed.

Lemma registry_wf_same_names (w w' : world) :
  same_names w w' -> registry_wf w -> registry_wf w'.
Proof.
  intros (Hf & Hl & Hn) (Hok & Hr & Hnd & Hd).
  split; [|split; [|split]].
  - unfold registry_ok in *. now rewrite Hf, Hl.
  - intros i Hi. rewrite Hf in Hi. rewrite Hn. auto.
  - now rewrite Hf.
  - intros i j n Hi Hj Hin Hjn. rewrite Hf in Hi, Hj. rewrite Hn in Hin.
    rewrite (name_is_same w w') in Hjn by apply Hn. eauto.
Qed.

Lemma same_names_data (w w' : world) :
  objs w' = objs w -> farms w' = farms w -> same_names w w'.
Proof.
  intros Ho Hf. split; [assumption|]. split; [now rewrite Ho|].
  intros i. unfold obj_name. now rewrite Ho.
Qed.

Lemma keeps_refl (P : world -> Prop) (w : world) : keeps P w w.
Proof. intros H. exact H. Qed.

Lemma keeps_trans (P : world -> Prop) (a b c : world) :
  keeps P a b -> keeps P b c -> keeps P a c.
Proof. unfold keeps. auto. Qed.

Lemma same_names_keeps_wf {A} (m : M A) :
  respects same_names m -> respects (keeps registry_wf) m.
Proof. intros H w Hw. eapply registry_wf_same_names; [apply H | exact Hw]. Qed.

Lemma bind_cases {A B} (m : M A) (k : A -> M B) (w : world) :
  (exists a w1, m w = (Some a, w1) /\ bind m k w = k a w1)
  \/ (exists w1, m w = (None, w1) /\ bind m k w = (None, w1)).
Proof.
  unfold bind. destruct (m w) as [[a|] w1]; [left | right]; eauto.
Qed.

Lemma obj_name_new (w : world) (f : dict) :
  obj_name (with_farm f w) (List.length (objs w))
  = match dict_get "name" f with Some (PStr s) => Some s | _ => None end.
Proof.
  unfold obj_name, with_farm. cbn [objs set_objs set_farms].
  rewrite nth_error_app2 by lia. now rewrite Nat.sub_diag.
Qed.

Lemma obj_name_old (w : world) (f : dict) (i : nat) :
  (i < List.length (objs w))%nat ->
  obj_name (with_farm f w) i = obj_name w i.
Proof.
  intros H. unfold obj_name, with_farm. cbn [objs set_objs set_farms].
  now rewrite nth_error_app1.
Qed.

Lemma normal_strip (s : string) : normal (strip s) = normal s.
Proof. unfold normal. now rewrite strip_idem. Qed.

(** A record with a new name keeps the registry in good order. *)
Lemma registry_wf_with_farm (w : world) (name coords total_output : string)
    (rt rg : Z) :
  registry_wf w ->
  find (name_is w (String.eqb (normal name))) (farms w) = None ->
  registry_wf (with_farm (new_record name coords total_output rt rg) w).
Proof.
  intros (Hok & Hr & Hnd & Hd) Hfind.
  set (f := new_record name coords total_output rt rg).
  assert (Hlt : forall i, In i (farms w) -> (i < List.length (objs w))%nat).
  { intros i Hi. unfold registry_ok in Hok. rewrite Forall_forall in Hok. auto. }
  assert (Hnew : obj_name (with_farm f w) (List.length (objs w))
                 = Some (strip name)) by (rewrite obj_name_new; reflexivity).
  split; [|split; [|split]].
  - unfold registry_ok, with_farm. cbn [objs farms set_objs set_farms].
    rewrite length_app. cbn [List.length]. apply Forall_app. split.
    + apply Forall_forall. intros i Hi. specialize (Hlt i Hi). lia.
    + constructor; [lia | constructor].
  - intros i Hi. unfold with_farm in Hi. cbn [farms set_farms] in Hi.
    apply in_app_or in Hi as [Hi|[<-|[]]].
    + rewrite obj_name_old by auto. auto.
    + eauto.
  - unfold with_farm. cbn [farms set_farms].
    apply NoDup_app; [assumption | repeat constructor; intros [] |].
    intros i Hi [<-|[]]. specialize (Hlt _ Hi). lia.
  - intros i j n Hi Hj Hin Hjn.
    unfold with_farm in Hi, Hj. cbn [farms set_farms] in Hi, Hj.
    apply in_app_or in Hi as [Hi|[<-|[]]];
      apply in_app_or in Hj as [Hj|[<-|[]]].
    + rewrite obj_name_old in Hin by auto.
      rewrite (name_is_same w (with_farm f w)) in Hjn
        by (apply obj_name_old; auto).
      eauto.
    + exfalso. rewrite obj_name_old in Hin by auto.
      unfold name_is in Hjn. rewrite Hnew, normal_strip in Hjn.
      pose proof (find_none _ _ Hfind i Hi) as F. unfold name_is in F.
      rewrite Hin, String.eqb_sym in F. congruence.
    + exfalso. rewrite Hnew in Hin. injection Hin as <-.
      rewrite normal_strip in Hjn.
      rewrite (name_is_same w (with_farm f w)) in Hjn
        by (apply obj_name_old; auto).
      pose proof (find_none _ _ Hfind j Hj). congruence.
    + reflexivity.
Qed.

Lemma addfarm_keeps_wf (name coords total_output : string) (rm : Z) (rh : Q) :
  respects (keeps registry_wf) (addfarm name coords total_output rm rh).
Proof.
  intros w Hw. destruct Hw as (Hok & Hr & Hd).
  assert (Hw : registry_wf w) by (split; [|split]; assumption).
  destruct (find (name_is w (String.eqb (normal name))) (farms w)) as [i|] eqn:E.
  - rewrite (addfarm_refused_run w name coords total_output rm rh i Hr E).
    cbn [snd]. eapply registry_wf_same_names; [|exact Hw].
    apply same_names_data; reflexivity.
  - destruct (timedelta_minutes rm) as [rt|] eqn:Ert.
    2:{ rewrite addfarm_raise_run; auto. }
    destruct (timedelta_hours rh) as [rg|] eqn:Erg.
    2:{ rewrite addfarm_raise_run; auto. }
    rewrite (addfarm_run w name coords total_output rm rh rt rg Hr E Ert Erg).
    destruct (save_then_synced
                (call_embed (FCommandEmbed name) (command_after_embed name))
                (with_farm (new_record name coords total_output rt rg) w)
                (command_tail_settled name)) as (_ & So & Sf).
    eapply registry_wf_same_names; [apply same_names_data; eassumption|].
    now apply registry_wf_with_farm.
Qed.

(** Dropping farms from the registry keeps it in good order. *)
Lemma registry_wf_filter (w w1 : world) (p : nat -> bool) :
  registry_wf w -> same_names w w1 ->
  registry_wf (set_farms (filter p (farms w)) w1).
Proof.
  intros (Hok & Hr & Hnd & Hd) (Hf & Hl & Hn).
  split; [|split; [|split]]; cbn [farms objs set_farms].
  - unfold registry_ok in *. cbn [farms objs set_farms]. rewrite Hl.
    rewrite Forall_forall in *. intros i Hi. apply filter_In in Hi as [Hi _]. auto.
  - intros i Hi. cbn [farms set_farms] in Hi. apply filter_In in Hi as [Hi _].
    change (obj_name (set_farms _ w1) i) with (obj_name w1 i). rewrite Hn. auto.
  - now apply NoDup_filter.
  - intros i j n Hi Hj Hin Hjn.
    apply filter_In in Hi as [Hi _]. apply filter_In in Hj as [Hj _].
    change (obj_name (set_farms (filter p (farms w)) w1) i) with (obj_name w1 i)
      in Hin.
    rewrite Hn in Hin.
    rewrite (name_is_same w (set_farms (filter p (farms w)) w1)) in Hjn
      by (intros; apply Hn).
    eauto.
Qed.

Lemma cancel_block_same_names (name : string) (task : option nat) :
  respects same_names
    (match task with
     | Some t =>
         d <- task_done t ;;
         when (negb d)
           (task_cancel t ;;;
            modify (fun w => set_scheduled (sched_pop name (scheduled w)) w))
     | None => ret tt
     end).
Proof. names_frame. Qed.

Lemma removefarm_keeps_wf (arg : string) :
  respects (keeps registry_wf) (removefarm arg).
Proof.
  intros w Hw. pose proof Hw as (Hok & Hr & Hd).
  unfold removefarm. cbv zeta.
  rewrite (bind_run _ _ w w (farms w)) by reflexivity.
  rewrite (bind_run _ _ _ _ _ (first_farm_run w _ _ Hr)).
  destruct (find (name_is w (String.eqb (lower (strip arg)))) (farms w))
    as [i|] eqn:E.
  2:{ cbn. eapply registry_wf_same_names; [|exact Hw].
      apply same_names_data; reflexivity. }
  destruct (find_some _ _ E) as [Hi _]. destruct (Hr i Hi) as [n Hn].
  rewrite (bind_run _ _ _ _ _ (farm_name_run _ _ _ Hn)).
  rewrite (bind_run _ _ w w (sched_get n (scheduled w))) by reflexivity.
  match goal with
  | |- context [bind ?B ?K w] =>
      destruct (bind_cases B K w) as [(a & w1 & EB & ->)|(w1 & EB & ->)];
        pose proof (cancel_block_same_names n (sched_get n (scheduled w)) w) as S;
        rewrite EB in S; cbn [snd] in S
  end.
  2:{ cbn [snd]. now apply (registry_wf_same_names w). }
  assert (Hr1 : forall j, In j (farms w) -> exists m, obj_name w1 j = Some m).
  { intros j Hj. destruct S as (_ & _ & Sn). rewrite Sn. auto. }
  rewrite (bind_run _ _ _ _ _ (filter_farms_run w1 _ _ Hr1)).
  match goal with
  | |- context [bind (modify (set_farms ?l)) ?K w1] =>
      rewrite (bind_run (modify (set_farms l)) K w1 (set_farms l w1) tt)
        by reflexivity;
      destruct (save_then_synced
                  (call_embed (FCommandEmbed n) (command_after_embed n))
                  (set_farms l w1) (command_tail_settled n)) as (_ & So & Sf);
      assert (W : registry_wf (set_farms l w1))
        by (apply registry_wf_filter; assumption)
  end.
  eapply registry_wf_same_names; [apply same_names_data; eassumption | exact W].
Qed.

(** X13: In every run of the bot a registry in good order stays in good
    order: every registered farm is an object that carries a name, no
    farm is registered twice, and no two registered farms have the same
    name once stripped and lowercased, whatever is added, edited,
    removed or relayed. *)
Theorem registry_stays_in_order (ls : list label) (w : world) :
  registry_wf w -> registry_wf (run ls w).
Proof.
  apply (run_respects (keeps registry_wf)).
  - apply keeps_refl.
  - apply keeps_trans.
  - intros a b Ho Hf Ha. apply (registry_wf_same_names a); [|exact Ha].
    now apply same_names_data.
  - intros f r. apply same_names_keeps_wf, after_same_names.
  - intros m. apply same_names_keeps_wf, on_message_same_names.
  - apply addfarm_keeps_wf.
  - intros. apply same_names_keeps_wf, editfarm_same_names.
  - apply removefarm_keeps_wf.
Qed.

(** *** Names are never reassigned *)

Lemma names_kept_refl (w : world) : names_kept w w.
Proof. intros i n H. exact H. Qed.

Lemma names_kept_trans (a b c : world) :
  names_kept a b -> names_kept b c -> names_kept a c.
Proof. unfold names_kept. auto. Qed.

Lemma same_names_kept {A} (m : M A) :
  respects same_names m -> respects names_kept m.
Proof. intros H w i n Hn. destruct (H w) as (_ & _ & E). now rewrite E. Qed.

Ltac kept_frame :=
  frame names_kept_refl names_kept_trans
        ltac:(first [ apply names_kept_refl
                    | apply same_names_kept; solve [auto with names_frame]
                    | solve [intros ? ? H; exact H] ]).

Lemma addfarm_names_kept (name coords total_output : string) (rm : Z) (rh : Q) :
  respects names_kept (addfarm name coords total_output rm rh).
Proof.
  unfold addfarm, call_embed, command_after_embed, command_refused.
  apply (respects_bind _ names_kept_trans); [kept_frame|]. intros fs.
  apply (respects_bind _ names_kept_trans); [kept_frame|].
  intros [dup|]; [kept_frame|].
  apply (respects_bind _ names_kept_trans); [kept_frame|]. intros runtime.
  apply (respects_bind _ names_kept_trans); [kept_frame|]. intros regrow.
  cbv zeta. intros w.
  rewrite (bind_run _ _ w w (objs w)) by reflexivity.
  match goal with
  | |- context [bind (modify (set_objs ?o)) ?K w] =>
      rewrite (bind_run (modify (set_objs o)) K w (set_objs o w) tt) by reflexivity;
      assert (HK : respects names_kept (K tt)) by kept_frame
  end.
  eapply names_kept_trans; [|apply HK].
  intros i n. apply obj_name_app.
Qed.

Lemma removefarm_names_kept (arg : string) :
  respects names_kept (removefarm arg).
Proof.
  unfold removefarm, call_embed, command_after_embed, command_refused.
  kept_frame.
Qed.

(** X14: In every run of the bot every farm object keeps the name it has:
    no handler, command or task renames or drops a record, so the names
    under which tasks are filed stay the names of their farms. *)
Theorem names_never_change (ls : list label) (w : world) (i : nat) (n : string) :
  obj_name w i = Some n -> obj_name (run ls w) i = Some n.
Proof.
  revert i n. change (names_kept w (run ls w)).
  apply (run_respects names_kept).
  - apply names_kept_refl.
  - apply names_kept_trans.
  - intros a b Ho Hf i n. unfold obj_name. now rewrite Ho.
  - intros f r. apply same_names_kept, after_same_names.
  - intros m. apply same_names_kept, on_message_same_names.
  - apply addfarm_names_kept.
  - intros. apply same_names_kept, editfarm_same_names.
  - apply removefarm_names_kept.
Qed.

(** ** Commands one after the other *)

Lemma command_tail_quiet (n : string) :
  respects quiet (save ;;; call_embed (FCommandEmbed n) (command_after_embed n)).
Proof. unfold call_embed. quiet_frame. Qed.

(** The world [/addfarm] leaves, as far as the commands that follow
    look at it. *)
Lemma addfarm_world (w : world) (name coords total_output : string)
    (rm : Z) (rh : Q) (rt rg : Z) :
  names_readable w ->
  (forall j, In j (farms w) -> name_is w (String.eqb (normal name)) j = false) ->
  timedelta_minutes rm = Some rt -> timedelta_hours rh = Some rg ->
  let f := new_record name coords total_output rt rg in
  let w1 := snd (addfarm name coords total_output rm rh w) in
  farms w1 = farms w ++ [List.length (objs w)]
  /\ objs w1 = objs w ++ [f]
  /\ coros w1 = coros w /\ scheduled w1 = scheduled w
  /\ names_readable w1
  /\ (forall i p, In i (farms w) -> name_is w1 p i = name_is w p i)
  /\ obj_name w1 (List.length (objs w)) = Some (strip name).
Proof.
  intros Hr Hno Hrt Hrg f w1. subst w1.
  rewrite (addfarm_run w name coords total_output rm rh rt rg Hr
             (find_all_false _ _ Hno) Hrt Hrg).
  fold f.
  destruct (save_then_synced
              (call_embed (FCommandEmbed name) (command_after_embed name))
              (with_farm f w) (command_tail_settled name)) as (_ & So & Sf).
  destruct (command_tail_quiet name (with_farm f w)) as (Qc & Qs & _).
  set (w1 := snd ((save ;;; call_embed (FCommandEmbed name)
                              (command_after_embed name)) (with_farm f w))) in *.
  assert (Hname : forall i, obj_name w1 i = obj_name (with_farm f w) i).
  { intros i. unfold obj_name. now rewrite So. }
  assert (Hold : forall i, In i (farms w) -> obj_name w1 i = obj_name w i).
  { intros i Hi. rewrite Hname. apply obj_name_old.
    destruct (Hr i Hi) as [n Hn]. unfold obj_name in Hn.
    destruct (nth_error (objs w) i) eqn:E; [|discriminate].
    apply nth_error_Some. congruence. }
  assert (Hnew : obj_name w1 (List.length (objs w)) = Some (strip name)).
  { rewrite Hname, obj_name_new. reflexivity. }
  split; [exact Sf|]. split; [exact So|]. split; [exact Qc|]. split; [exact Qs|].
  split.
  { intros i Hi. rewrite Sf in Hi. cbn [with_farm farms set_farms] in Hi.
    apply in_app_or in Hi as [Hi|[<-|[]]].
    - rewrite Hold by assumption. auto.
    - eauto. }
  split; [|exact Hnew].
  intros i p Hi. apply name_is_same. auto.
Qed.

Lemma filter_app_last {A} (p : A -> bool) (l : list A) (x : A) :
  (forall y, In y l -> p y = true) -> p x = false -> filter p (l ++ [x]) = l.
Proof.
  intros Hl Hx. rewrite filter_app. cbn [filter]. rewrite Hx, app_nil_r.
  induction l as [|a r IH]; [reflexivity|].
  cbn [filter]. rewrite (Hl a (or_introl eq_refl)). f_equal.
  apply IH. intros y Hy. apply Hl. now right.
Qed.

Lemma find_app_last {A} (p : A -> bool) (l : list A) (x : A) :
  (forall y, In y l -> p y = false) -> p x = true -> find p (l ++ [x]) = Some x.
Proof.
  intros Hl Hx. induction l as [|a r IH]; cbn [app find].
  - now rewrite Hx.
  - rewrite (Hl a (or_introl eq_refl)). apply IH. intros y Hy. apply Hl. now right.
Qed.

(** X15: [/addfarm] followed by [/removefarm] of the same name gives the
    registry back as it was; the record stays in memory, unregistered. *)
Theorem add_then_remove (w : world) (name coords total_output : string)
    (rm : Z) (rh : Q) (rt rg : Z) :
  names_readable w -> sched_valid w ->
  (forall j, In j (farms w) -> name_is w (String.eqb (normal name)) j = false) ->
  timedelta_minutes rm = Some rt -> timedelta_hours rh = Some rg ->
  let w1 := snd (addfarm name coords total_output rm rh w) in
  let w2 := snd (removefarm name w1) in
  farms w2 = farms w
  /\ objs w2 = objs w ++ [new_record name coords total_output rt rg]
  /\ synced w2.
Proof.
  intros Hr Hv Hno Hrt Hrg w1 w2.
  destruct (addfarm_world w name coords total_output rm rh rt rg Hr Hno Hrt Hrg)
    as (Hf & Ho & Hc & Hs & Hr1 & Hold & Hnew).
  fold w1 in Hf, Ho, Hc, Hs, Hr1, Hold, Hnew.
  assert (Hv1 : sched_valid w1).
  { unfold sched_valid in *. now rewrite Hc, Hs. }
  assert (Hnew_is : forall p, name_is w1 p (List.length (objs w))
                              = p (normal name)).
  { intros p. unfold name_is. now rewrite Hnew, normal_strip. }
  assert (Hfind : find (name_is w1 (String.eqb (normal name))) (farms w1)
                  = Some (List.length (objs w))).
  { rewrite Hf. apply find_app_last.
    - intros y Hy. rewrite Hold by assumption. auto.
    - rewrite Hnew_is. apply String.eqb_refl. }
  subst w2.
  rewrite (removefarm_found_run w1 name _ _ Hr1 Hv1 Hfind Hnew).
  destruct (save_then_synced
              (call_embed (FCommandEmbed (strip name))
                 (command_after_embed (strip name)))
              (set_farms (without w1 name) (cancel_and_pop (strip name) w1))
              (command_tail_settled (strip name))) as (S & So & Sf).
  destruct (cancel_and_pop_data (strip name) w1) as (Co & _).
  rewrite Sf, So. cbn [farms objs set_farms]. rewrite Co, Ho.
  split; [|split; [reflexivity | exact S]].
  unfold without. rewrite Hf. apply filter_app_last.
  - intros y Hy. rewrite Hold by assumption.
    specialize (Hno y Hy). destruct (Hr y Hy) as [m Hm].
    unfold name_is in Hno |- *. rewrite Hm in Hno |- *.
    rewrite String.eqb_sym, Hno. reflexivity.
  - rewrite Hnew_is. now rewrite String.eqb_refl.
Qed.

(** ** [/farms] (lines 451-491) *)

Lemma quot_minutes (m : Z) :
  Z.quot (m * 60 * US_PER_SECOND) (60 * US_PER_SECOND) = m.
Proof.
  unfold US_PER_SECOND. replace (m * 60 * 1000000) with (m * (60 * 1000000)) by lia.
  apply Z.quot_mul. lia.
Qed.

(** X16: A farm that [/addfarm] has just created is what [/farms] shows for
    its name: the texts stripped, the whole minutes that were entered,
    and the status "Unknown"; [/farms] changes nothing. *)
Theorem added_farm_shown (w : world) (name coords total_output q : string)
    (rm : Z) (rh : Q) (rt rg : Z) :
  names_readable w ->
  (forall j, In j (farms w) -> name_is w (String.eqb (normal name)) j = false) ->
  timedelta_minutes rm = Some rt -> timedelta_hours rh = Some rg ->
  q <> "" -> clean q = normal name ->
  let w1 := snd (addfarm name coords total_output rm rh w) in
  farms_command q w1
  = (Some (Shown (mk_card (PStr (strip name)) (PStr (strip coords))
                    (PStr (strip total_output)) (Minutes rm) ShownUnknown)),
     w1).
Proof.
  intros Hr Hno Hrt Hrg Hq Hc w1.
  destruct (addfarm_world w name coords total_output rm rh rt rg Hr Hno Hrt Hrg)
    as (Hf & Ho & _ & _ & Hr1 & Hold & Hnew).
  fold w1 in Hf, Ho, Hr1, Hold, Hnew.
  unfold farms_command.
  rewrite (bind_run _ _ _ _ _ (get_farm_exact_first_match w1 q Hr1 Hq)).
  unfold first_match. rewrite Hc, Hf.
  rewrite find_app_last.
  2:{ intros y Hy. rewrite Hold by assumption. auto. }
  2:{ unfold name_is. rewrite Hnew, normal_strip. apply String.eqb_refl. }
  assert (Hget : nth_error (objs w1) (List.length (objs w))
                 = Some (new_record name coords total_output rt rg)).
  { rewrite Ho, nth_error_app2 by lia. now rewrite Nat.sub_diag. }
  rewrite (bind_run _ _ _ _ _ (get_farm_run _ _ _ Hget)).
  assert (Ert : rt = rm * 60 * US_PER_SECOND).
  { unfold timedelta_minutes in Hrt.
    destruct (td_in_range (rm * 60 * US_PER_SECOND)); congruence. }
  subst rt. unfold farm_card, runtime_minutes, new_record. cbn.
  rewrite quot_minutes. reflexivity.
Qed.

Lemma filter_farms_some (w : world) (p : string -> bool) (l r : list nat) :
  fst (filter_farms p l w) = Some r ->
  forall i, In i l -> exists n, obj_name w i = Some n.
Proof.
  revert r. induction l as [|i l IH]; intros r H j Hj; [destruct Hj|].
  cbn [filter_farms] in H. unfold bind at 1 in H.
  destruct (farm_name i w) as [[n|] w1] eqn:En; [|discriminate].
  apply farm_name_some in En as [Hn ->].
  unfold bind at 1 in H.
  destruct (filter_farms p l w) as [[rest|] w2] eqn:Er; [|discriminate].
  destruct Hj as [<-|Hj]; [eauto|].
  apply (IH rest); [reflexivity | assumption].
Qed.

(** A look-up that returns reads the name of every registered farm. *)
Lemma lookup_some_readable (w : world) (q : string) (r : option nat) :
  q <> "" -> fst (get_farm_exact q w) = Some r -> names_readable w.
Proof.
  intros Hq H. unfold get_farm_exact, find_farms_by_name_partial in H.
  destruct (String.eqb_spec q ""); [contradiction|].
  unfold bind at 1 in H. unfold bind at 1, gets at 1 in H.
  unfold bind at 1 in H.
  destruct (filter_farms (String.eqb (collapse_ws (lower (strip q)))) (farms w) w)
    as [[ex|] w1] eqn:E; [|discriminate].
  intros i Hi.
  apply (filter_farms_some w (String.eqb (collapse_ws (lower (strip q))))
           (farms w) ex); [now rewrite E | exact Hi].
Qed.

Lemma board_fields_In (w : world) (l : list nat) (cards : list card)
    (i : nat) (f : dict) (c : card) :
  fst (board_fields l w) = Some cards ->
  In i l -> nth_error (objs w) i = Some f -> embed_field f = Some c ->
  In c cards.
Proof.
  revert cards. induction l as [|j l IH]; intros cards H Hi Hf Hc; [destruct Hi|].
  cbn [board_fields] in H.
  destruct (nth_error (objs w) j) as [g|] eqn:Eg.
  2:{ unfold get_farm, bind, gets, lift_option in H. cbn in H.
      rewrite Eg in H. discriminate. }
  rewrite (bind_run _ _ _ _ _ (get_farm_run _ _ _ Eg)) in H.
  destruct (embed_field g) as [cg|] eqn:Ecg; [|discriminate].
  cbn [lift_option] in H. rewrite (bind_run _ _ w w cg) in H by reflexivity.
  unfold bind at 1 in H.
  destruct (board_fields l w) as [[rest|] w1] eqn:Er; [|discriminate].
  cbn in H. injection H as <-.
  destruct Hi as [->|Hi].
  - left. congruence.
  - right. apply IH; auto.
Qed.

(** X17: The two displays agree: the field [/farms] shows for a farm is the
    field the status board shows for that farm. *)
Theorem farms_card_on_board (w : world) (q : string) (c : card)
    (cards : list card) :
  fst (farms_command q w) = Some (Shown c) ->
  fst (board_fields (farms w) w) = Some cards ->
  In c cards /\ snd (farms_command q w) = w.
Proof.
  intros H Hb. unfold farms_command in *.
  pose proof (find_farms_snd q w) as Hs.
  unfold bind at 1 in H. unfold bind at 1.
  destruct (get_farm_exact q w) as [[found|] w1] eqn:E; [|discriminate].
  pose proof (get_farm_exact_run q w found) as Hrun. rewrite E in Hrun.
  specialize (Hrun eq_refl). injection Hrun as ->.
  destruct found as [i|]; [|discriminate].
  assert (Hq : q <> "").
  { intros ->. cbn in E. discriminate. }
  assert (Hr : names_readable w).
  { apply (lookup_some_readable w q (Some i) Hq). now rewrite E. }
  rewrite (get_farm_exact_first_match w q Hr Hq) in E. injection E as E.
  assert (Hi : In i (farms w)).
  { unfold first_match in E.
    destruct (find (name_is w (String.eqb (clean q))) (farms w)) eqn:F.
    - injection E as ->. now apply find_some in F.
    - now apply find_some in E. }
  destruct (nth_error (objs w) i) as [f|] eqn:Ef.
  2:{ unfold get_farm, bind, gets, lift_option in H. cbn in H.
      rewrite Ef in H. discriminate. }
  rewrite (bind_run _ _ _ _ _ (get_farm_run _ _ _ Ef)) in H.
  rewrite (bind_run _ _ _ _ _ (get_farm_run _ _ _ Ef)).
  destruct (farm_card f) as [cf|] eqn:Ec; [|discriminate].
  cbn in H. injection H as ->. split; [|reflexivity].
  apply (board_fields_In w (farms w) cards i f c Hb Hi Ef).
  unfold farm_card, embed_field in *.
  destruct (dict_get "name" f) as [nm|]; [|discriminate].
  cbn [obind] in *.
  destruct (runtime_minutes f) as [rt|]; [|discriminate].
  exact Ec.
Qed.

(** ** [/editfarm] (lines 608-642) *)

Lemma fields_kept_refl (ks : list string) (w : world) : fields_kept ks w w.
Proof. split; [reflexivity|]. intros i f H. eauto. Qed.

Lemma fields_kept_trans (ks : list string) (a b c : world) :
  fields_kept ks a b -> fields_kept ks b c -> fields_kept ks a c.
Proof.
  intros [A1 A2] [B1 B2]. split; [congruence|].
  intros i f H. destruct (A2 i f H) as (f1 & H1 & K1).
  destruct (B2 i f1 H1) as (f2 & H2 & K2). exists f2. split; [assumption|].
  intros k Hk. now rewrite K2, K1.
Qed.

Lemma fields_kept_same_objs (ks : list string) (w w' : world) :
  objs w' = objs w -> farms w' = farms w -> fields_kept ks w w'.
Proof. intros Ho Hf. split; [assumption|]. intros i f H. rewrite Ho. eauto. Qed.

Lemma farm_set_fields_kept (ks : list string) (i : nat) (k : string) (v : pyval) :
  In k ks -> respects (fields_kept ks) (farm_set i k v).
Proof.
  intros Hk w. unfold farm_set, get_farm, bind, gets, lift_option.
  destruct (nth_error (objs w) i) as [f|] eqn:Hf; [|apply fields_kept_refl].
  unfold ret, modify. cbn [snd]. split; [reflexivity|]. intros j g Hg.
  cbn [objs set_objs].
  destruct (Nat.eq_dec i j) as [<-|Hne].
  - rewrite (nth_error_list_set_same _ _ _ _ Hf). eexists. split; [reflexivity|].
    intros k' Hk'. assert (g = f) by congruence. subst g.
    apply dict_get_set_other. intros ->. contradiction.
  - rewrite nth_error_list_set_other by assumption. eauto.
Qed.

Lemma settled_fields_kept {A} (ks : list string) (m : M A) :
  respects settled m -> respects (fields_kept ks) m.
Proof.
  intros H w. destruct (H w) as (Ho & Hf & _). now apply fields_kept_same_objs.
Qed.

Lemma save_settled_data (w : world) :
  objs (snd (save w)) = objs w /\ farms (snd (save w)) = farms w.
Proof. destruct (save_synced w) as (_ & _ & Ho & Hf & _). auto. Qed.

(** X18: [/editfarm] never touches the registry, the name, the status or
    [next_ready]: whatever its arguments and whether it finds the farm,
    replies or raises, every record keeps every field but the four the
    command can assign. *)
Theorem editfarm_keeps_lifecycle_fields (w : world) (arg : string)
    (coords total_output : option string) (rm : option Z) (rh : option Q) :
  let w' := snd (editfarm arg coords total_output rm rh w) in
  farms w' = farms w
  /\ forall i f, nth_error (objs w) i = Some f ->
       exists f', nth_error (objs w') i = Some f'
                  /\ dict_get "name" f' = dict_get "name" f
                  /\ dict_get "status" f' = dict_get "status" f
                  /\ dict_get "next_ready" f' = dict_get "next_ready" f.
Proof.
  assert (H : respects (fields_kept editable)
                (editfarm arg coords total_output rm rh)).
  { unfold editfarm, call_embed, command_after_embed, command_refused.
    assert (S : respects (fields_kept editable) save).
    { intros x. destruct (save_settled_data x).
      now apply fields_kept_same_objs. }
    assert (F : forall i k v, In k editable ->
                  respects (fields_kept editable) (farm_set i k v))
      by (intros; now apply farm_set_fields_kept).
    frame (fields_kept_refl editable) (fields_kept_trans editable)
      ltac:(first [ apply fields_kept_refl
                  | exact S
                  | apply F; cbn; tauto
                  | apply settled_fields_kept; solve [auto with settled_frame] ]). }
  destruct (H w) as [Hf Ho]. split; [exact Hf|].
  intros i f Hi. destruct (Ho i f Hi) as (f' & Hf' & Hk). exists f'.
  split; [assumption|].
  repeat split; apply Hk; cbn; intros [E|[E|[E|[E|[]]]]]; discriminate.
Qed.

Lemma farm_set_on (w0 : world) (i : nat) (f0 f : dict) (k : string) (v : pyval) :
  nth_error (objs w0) i = Some f0 ->
  farm_set i k v (set_objs (list_set i f (objs w0)) w0)
  = (Some tt, set_objs (list_set i (dict_set k v f) (objs w0)) w0).
Proof.
  intros H0.
  rewrite (farm_set_run _ i f k v)
    by (cbn [objs set_objs]; now apply (nth_error_list_set_same _ _ _ f0)).
  cbn [objs set_objs]. now rewrite list_set_twice.
Qed.

Lemma farm_set_opt_on {A B} (w : world) (farm : nat) (f g : dict)
    (o : option B) (k : string) (val : B -> pyval) (K : M A) :
  nth_error (objs w) farm = Some f ->
  (match o with
   | Some x => farm_set farm k (val x)
   | None => ret tt
   end ;;; K) (set_objs (list_set farm g (objs w)) w)
  = K (set_objs
         (list_set farm
            (match o with Some x => dict_set k (val x) g | None => g end)
            (objs w)) w).
Proof.
  intros Hf. destruct o as [x|]; [|reflexivity].
  now rewrite (bind_run _ _ _ _ _ (farm_set_on w farm f g k (val x) Hf)).
Qed.

(** The assignments of lines 622-633 *)
Lemma editfarm_assign_on {A} (w : world) (farm : nat) (f g : dict)
    (coords total_output : option string) (rm : option Z) (rh : option Q)
    (rt rg : option Z) (K : M A) :
  nth_error (objs w) farm = Some f ->
  minutes_fit rm rt -> hours_fit rh rg ->
  (match coords with
   | Some c => farm_set farm "coords" (PStr (strip c))
   | None => ret tt
   end ;;;
   match total_output with
   | Some t => farm_set farm "total_output" (PStr (strip t))
   | None => ret tt
   end ;;;
   match rm with
   | Some m =>
       us <- lift_option (timedelta_minutes m) ;;
       farm_set farm "runtime" (PTimedelta us)
   | None => ret tt
   end ;;;
   match rh with
   | Some h =>
       us <- lift_option (timedelta_hours h) ;;
       farm_set farm "regrow_time" (PTimedelta us)
   | None => ret tt
   end ;;; K) (set_objs (list_set farm g (objs w)) w)
  = K (set_objs (list_set farm (edited coords total_output rt rg g) (objs w)) w).
Proof.
  intros Hf Hrt Hrg. unfold edited.
  rewrite (farm_set_opt_on w farm f g coords "coords" (fun c => PStr (strip c)))
    by assumption.
  rewrite (farm_set_opt_on w farm f _ total_output "total_output"
             (fun t => PStr (strip t))) by assumption.
  assert (StepD : forall B (o : option B) (conv : B -> option Z) (r : option Z)
                    (k : string) (g : dict) (K' : M A),
            match o with
            | Some x => conv x = r /\ r <> None
            | None => r = None
            end ->
            (match o with
             | Some x => us <- lift_option (conv x) ;;
                         farm_set farm k (PTimedelta us)
             | None => ret tt
             end ;;; K') (set_objs (list_set farm g (objs w)) w)
            = K' (set_objs
                    (list_set farm
                       (match r with
                        | Some us => dict_set k (PTimedelta us) g
                        | None => g
                        end) (objs w)) w)).
  { intros B [x|] conv r k g' K' H.
    - destruct H as [<- Hne]. destruct (conv x) as [us|]; [|congruence].
      cbn [lift_option].
      rewrite (bind_run (us0 <- ret us ;; farm_set farm k (PTimedelta us0)) _ _
                 (set_objs (list_set farm (dict_set k (PTimedelta us) g')
                              (objs w)) w) tt); [reflexivity|].
      unfold bind at 1, ret at 1. apply (farm_set_on w farm f g' k _ Hf).
    - subst r. reflexivity. }
  rewrite (StepD _ rm timedelta_minutes rt "runtime") by exact Hrt.
  rewrite (StepD _ rh timedelta_hours rg "regrow_time") by exact Hrg.
  reflexivity.
Qed.

Lemma editfarm_run (w : world) (q : string) (farm : nat) (f : dict)
    (coords total_output : option string) (rm : option Z) (rh : option Q)
    (rt rg : option Z) :
  names_readable w -> q <> "" -> first_match w q = Some farm ->
  nth_error (objs w) farm = Some f ->
  minutes_fit rm rt -> hours_fit rh rg ->
  editfarm q coords total_output rm rh w
  = (save ;;;
     schedule_task_for_farm farm ;;;
     name <- farm_name farm ;;
     call_embed (FCommandEmbed name) (command_after_embed name))
      (set_objs (list_set farm (edited coords total_output rt rg f) (objs w)) w).
Proof.
  intros Hr Hq Hm Hf Hrt Hrg. unfold editfarm.
  rewrite (bind_run _ _ _ _ _ (get_farm_exact_first_match w q Hr Hq)), Hm.
  pose proof (editfarm_assign_on w farm f f coords total_output rm rh rt rg
                (save ;;;
                 schedule_task_for_farm farm ;;;
                 name <- farm_name farm ;;
                 call_embed (FCommandEmbed name) (command_after_embed name))
                Hf Hrt Hrg) as E.
  rewrite list_set_same in E at 1 by assumption.
  rewrite set_objs_same in E. exact E.
Qed.

Lemma edited_other (coords total_output : option string) (rt rg : option Z)
    (f : dict) (k : string) :
  ~ In k editable ->
  dict_get k (edited coords total_output rt rg f) = dict_get k f.
Proof.
  intros Hk. unfold edited.
  assert (N : forall k', In k' editable -> k <> k') by (intros k' H ->; auto).
  destruct rg; [rewrite dict_get_set_other by (apply N; cbn; tauto)|];
    (destruct rt; [rewrite dict_get_set_other by (apply N; cbn; tauto)|]);
    (destruct total_output;
       [rewrite dict_get_set_other by (apply N; cbn; tauto)|]);
    (destruct coords; [rewrite dict_get_set_other by (apply N; cbn; tauto)|]);
    reflexivity.
Qed.

Lemma edit_tail_settled (farm : nat) :
  respects settled
    (schedule_task_for_farm farm ;;;
     name <- farm_name farm ;;
     call_embed (FCommandEmbed name) (command_after_embed name)).
Proof. unfold call_embed. settled_frame. Qed.

(** X19: [/editfarm] on a farm it finds, with durations a timedelta can
    hold, assigns exactly the fields it was given - the texts stripped,
    the durations as timedeltas - leaves every other record as it is
    and farms.json up to date with the edited record. *)
Theorem editfarm_sets_given_fields (w : world) (q : string) (farm : nat)
    (f : dict) (coords total_output : option string) (rm : option Z)
    (rh : option Q) (rt rg : option Z) :
  names_readable w -> q <> "" -> first_match w q = Some farm ->
  nth_error (objs w) farm = Some f ->
  minutes_fit rm rt -> hours_fit rh rg ->
  let w' := snd (editfarm q coords total_output rm rh w) in
  nth_error (objs w') farm = Some (edited coords total_output rt rg f)
  /\ (forall j, j <> farm -> nth_error (objs w') j = nth_error (objs w) j)
  /\ farms w' = farms w
  /\ synced w'.
Proof.
  intros Hr Hq Hm Hf Hrt Hrg w'. subst w'.
  rewrite (editfarm_run w q farm f coords total_output rm rh rt rg
             Hr Hq Hm Hf Hrt Hrg).
  destruct (save_then_synced _
              (set_objs (list_set farm (edited coords total_output rt rg f)
                           (objs w)) w)
              (edit_tail_settled farm)) as (S & So & Sf).
  rewrite So, Sf. cbn [objs farms set_objs].
  split; [now apply (nth_error_list_set_same _ _ _ f)|].
  split; [intros j Hj; now apply nth_error_list_set_other|].
  split; [reflexivity | exact S].
Qed.

(** X20: [/editfarm] with a runtime no timedelta can hold raises after it
    has assigned the coords and the output it was given: the record is
    changed in memory, and nothing is saved or sent. *)
Theorem editfarm_overflow_half_done (w : world) (q : string) (farm : nat)
    (f : dict) (coords total_output : option string) (m : Z) (rh : option Q) :
  names_readable w -> q <> "" -> first_match w q = Some farm ->
  nth_error (objs w) farm = Some f ->
  timedelta_minutes m = None ->
  editfarm q coords total_output (Some m) rh w
  = (None,
     set_objs (list_set farm (edited coords total_output None None f) (objs w)) w).
Proof.
  intros Hr Hq Hm Hf Hover. unfold editfarm.
  rewrite (bind_run _ _ _ _ _ (get_farm_exact_first_match w q Hr Hq)), Hm.
  assert (E0 : w = set_objs (list_set farm f (objs w)) w).
  { rewrite list_set_same by assumption. symmetry. apply set_objs_same. }
  rewrite E0 at 1.
  rewrite (farm_set_opt_on w farm f f coords "coords" (fun c => PStr (strip c)))
    by assumption.
  rewrite (farm_set_opt_on w farm f _ total_output "total_output"
             (fun t => PStr (strip t))) by assumption.
  rewrite Hover. reflexivity.
Qed.

Lemma command_embed_quiet (n : string) :
  respects quiet (call_embed (FCommandEmbed n) (command_after_embed n)).
Proof. unfold call_embed. quiet_frame. Qed.

(** X21: [/editfarm] on a farm that has no [next_ready] and a task still
    pending under its name - the failsafe of a cycle in progress -
    cancels that task and puts nothing in its place, whatever is
    edited: the farm is left without a timer. *)
Theorem editfarm_drops_pending_task (w : world) (q name : string)
    (farm t : nat) (f : dict) (c : coro) (coords total_output : option string)
    (rm : option Z) (rh : option Q) (rt rg : option Z) :
  names_readable w -> sched_valid w ->
  q <> "" -> first_match w q = Some farm ->
  nth_error (objs w) farm = Some f ->
  dict_get "name" f = Some (PStr name) ->
  dict_get_none "next_ready" f = PNone ->
  sched_get name (scheduled w) = Some t ->
  nth_error (coros w) t = Some c -> co_state c = Live ->
  minutes_fit rm rt -> hours_fit rh rg ->
  fst (save (set_objs (list_set farm (edited coords total_output rt rg f)
                         (objs w)) w)) = Some tt ->
  let w' := snd (editfarm q coords total_output rm rh w) in
  nth_error (coros w') t = Some (mk_coro (co_stack c) Cancelling)
  /\ List.length (coros w') = List.length (coros w)
  /\ scheduled w' = scheduled w.
Proof.
  intros Hr Hv Hq Hm Hf Hname Hnr Hs Hc Hlive Hrt Hrg Hsave w'. subst w'.
  rewrite (editfarm_run w q farm f coords total_output rm rh rt rg
             Hr Hq Hm Hf Hrt Hrg).
  set (we := set_objs (list_set farm (edited coords total_output rt rg f)
                         (objs w)) w) in *.
  destruct (save_coros we) as [Sc Ss].
  destruct (save_settled_data we) as [So _].
  destruct (save we) as [[[]|] ws] eqn:Es; [|discriminate].
  cbn [snd] in Sc, Ss, So.
  change (coros ws = coros w) in Sc. change (scheduled ws = scheduled w) in Ss.
  rewrite (bind_run _ _ _ _ _ Es).
  assert (Hfe : nth_error (objs ws) farm
                = Some (edited coords total_output rt rg f)).
  { rewrite So. cbn [objs set_objs we]. now apply (nth_error_list_set_same _ _ _ f). }
  assert (Hn : obj_name ws farm = Some name).
  { unfold obj_name. rewrite Hfe, edited_other, Hname; [reflexivity|].
    cbn. intros [E|[E|[E|[E|[]]]]]; discriminate. }
  assert (Hvs : sched_valid ws).
  { unfold sched_valid in *. now rewrite Sc, Ss. }
  rewrite (bind_run _ _ _ _ _ (schedule_task_run ws farm name Hn Hvs)).
  assert (R : rearmed farm name ws
              = set_coros (list_set t (mk_coro (co_stack c) Cancelling) (coros ws))
                  ws).
  { unfold rearmed, cancel_old. rewrite Hfe, Ss, Hs, Sc, Hc, Hlive.
    unfold dict_get_none. rewrite edited_other
      by (cbn; intros [E|[E|[E|[E|[]]]]]; discriminate).
    unfold dict_get_none in Hnr. rewrite Hnr. reflexivity. }
  rewrite R.
  set (w3 := set_coros (list_set t (mk_coro (co_stack c) Cancelling) (coros ws)) ws).
  assert (Hn3 : obj_name w3 farm = Some name) by exact Hn.
  rewrite (bind_run _ _ _ _ _ (farm_name_run _ _ _ Hn3)).
  destruct (command_embed_quiet name w3) as (Qc & Qs & _).
  rewrite Qc, Qs. cbn [coros scheduled set_coros w3]. rewrite Sc, Ss.
  split; [now apply (nth_error_list_set_same _ _ _ c)|].
  split; [apply length_list_set | reflexivity].
Qed.

(** ** Relayed lines that are neither a start nor a finish
       (lines 326-442) *)

Lemma normalize_duration_fields (ks : list string) (i : nat) (k : string) :
  In k ks -> respects (fields_kept ks) (normalize_duration i k).
Proof.
  intros Hk. unfold normalize_duration.
  assert (F : forall u, respects (fields_kept ks) (farm_set i k (PTimedelta u)))
    by (intros; now apply farm_set_fields_kept).
  apply (respects_bind _ (fields_kept_trans ks));
    [apply (respects_farm_get _ (fields_kept_refl ks) (fields_kept_trans ks))|].
  intros v.
  destruct v; cbn [is_number];
    frame (fields_kept_refl ks) (fields_kept_trans ks) ltac:(apply F).
Qed.

(** X22: A relayed line that names a registered farm but announces neither
    a start nor a finish moves the checkpoint and, the two durations of
    that farm apart (they are brought to timedeltas), nothing else:
    [last_message_id] becomes the id of the message and is saved; no
    name, status or [next_ready] changes, no task is created or
    cancelled, and nothing is sent. *)
Theorem neutral_line_only_checkpoints (w : world) (m : message)
    (time_str user msg a b : string) (i : nat) (f : dict) (regrow runtime : Z) :
  m_groups m = Some (time_str, user, msg) ->
  split_bar msg = Some (a, b) ->
  fst (get_farm_exact (strip a) w) = Some (Some i) ->
  nth_error (objs w) i = Some f ->
  duration_of "regrow_time" f = Some regrow ->
  duration_of "runtime" f = Some runtime ->
  contains "being started" (lower (strip b)) = false ->
  contains "has finished" (lower (strip b)) = false ->
  let w' := snd (process_kira_message m w) in
  last_message_id w' = PInt (m_id m)
  /\ synced w'
  /\ coros w' = coros w /\ scheduled w' = scheduled w
  /\ (exists evs, log w' = log w ++ evs
                  /\ forall e, In e evs -> exists x, e = EvSave x)
  /\ forall j g, nth_error (objs w) j = Some g ->
       exists g', nth_error (objs w') j = Some g'
                  /\ dict_get "name" g' = dict_get "name" g
                  /\ dict_get "status" g' = dict_get "status" g
                  /\ dict_get "next_ready" g' = dict_get "next_ready" g.
Proof.
  intros Hg Hs Hx Hf Hre Hru Hst Hfi w'.
  destruct (normalize_both_run w i f regrow runtime Hf Hre Hru)
    as (w2 & f2 & E & _).
  set (ks := ["regrow_time"; "runtime"]).
  assert (N : respects (fields_kept ks)
                (normalize_duration i "regrow_time" ;;;
                 normalize_duration i "runtime")).
  { apply (respects_bind _ (fields_kept_trans ks)); [|intros _];
      apply normalize_duration_fields; cbn; tauto. }
  assert (Q : respects quiet
                (normalize_duration i "regrow_time" ;;;
                 normalize_duration i "runtime")).
  { apply (respects_bind _ quiet_trans); [|intros _];
      apply normalize_duration_quiet; discriminate. }
  assert (S : respects shape
                (normalize_duration i "regrow_time" ;;;
                 normalize_duration i "runtime")).
  { apply (respects_bind _ shape_trans); [|intros _];
      apply normalize_duration_shape. }
  specialize (N w). specialize (Q w). specialize (S w).
  rewrite E in N, Q, S. cbn [snd] in N, Q, S.
  destruct N as [_ N]. destruct Q as (Qc & Qs & _). destruct S as (Sl & _).
  assert (Run : process_kira_message m w
                = start_after_send
                    (mk_locals i user time_str (created_at_utc m)
                       (bot_channel_up w) (m_id m)) w2).
  { unfold process_kira_message. rewrite Hg, Hs.
    rewrite (bind_run _ _ _ _ _ (get_farm_exact_run _ _ _ Hx)).
    rewrite (bind_run _ _ _ _ (bot_channel_up w)) by reflexivity.
    unfold bind at 1 in E. unfold bind at 1.
    destruct (normalize_duration i "regrow_time" w) as [[[]|] w1]; [|discriminate].
    unfold bind at 1. rewrite E. now rewrite Hst, Hfi. }
  subst w'. rewrite Run. unfold start_after_send, checkpoint. cbn [kl_message_id].
  set (w3 := set_last_message_id (PInt (m_id m)) w2).
  assert (E3 : snd ((((modify (set_last_message_id (PInt (m_id m))) ;;; save)
                      ;;; ret Returned)) w2) = snd (save w3)).
  { unfold bind, modify. fold w3. destruct (save w3) as [[[]|] x]; reflexivity. }
  rewrite E3.
  destruct (save_synced w3) as (D1 & D2 & So & _ & Sl3 & _).
  destruct (save_coros w3) as [Sc Ss]. destruct (save_log w3) as (evs & Le & Hev).
  split; [exact Sl3|]. split; [unfold synced; congruence|].
  split; [rewrite Sc; exact Qc|]. split; [rewrite Ss; exact Qs|].
  split.
  { exists evs. split; [|exact Hev]. rewrite Le. cbn [log w3 set_last_message_id].
    now rewrite Sl. }
  intros j g Hj. destruct (N j g Hj) as (g' & Hg' & Hk). exists g'.
  rewrite So. split; [exact Hg'|].
  repeat split; apply Hk; cbn; intros [E'|[E'|[]]]; discriminate.
Qed.

(** ** The status board message (lines 306-320) *)

Lemma embed_store_id_run (id : Z) (w : world) :
  let w' := snd (embed_store_id id w) in
  status_message_id w' = PInt id /\ synced w'
  /\ objs w' = objs w /\ farms w' = farms w
  /\ last_message_id w' = last_message_id w
  /\ (fst (embed_store_id id w) = Some tt ->
      exists doc, log w' = log w ++ [EvSave (Content doc)]
                  /\ disk w' = Content doc).
Proof.
  unfold embed_store_id. set (w1 := set_status_message_id (PInt id) w).
  assert (E : (modify (set_status_message_id (PInt id)) ;;; save) w = save w1)
    by reflexivity.
  rewrite E. destruct (save_synced w1) as (D1 & D2 & So & Sf & Sl & Ss).
  cbn zeta. split; [exact Ss|]. split; [unfold synced; congruence|].
  split; [exact So|]. split; [exact Sf|]. split; [exact Sl|].
  unfold save, bind, modify, emit, raise, ret.
  destruct (in_memory_data w1) as [d|]; [|discriminate].
  destruct (save_farms isoformat d) as [doc|]; [|discriminate].
  cbn. intros _. exists doc. auto.
Qed.

(** X23: When the stored status board message is gone - the fetch or the
    edit answers "not found" - a new board is sent, and once the
    platform has returned its id the id is stored, farms.json is
    rewritten with it, and a warning is posted; the same storing and
    saving follows the very first board, without the warning.  No record
    and no registry entry changes. *)
Theorem deleted_board_is_recreated (w : world) (id : Z) :
  after FEmbedFetch RespNotFound w
  = (Some (Suspended [FEmbedSendRecreate]), set_log (log w ++ [EvBoardNew]) w)
  /\ after FEmbedEdit RespNotFound w
     = (Some (Suspended [FEmbedSendRecreate]), set_log (log w ++ [EvBoardNew]) w)
  /\ (let r := after FEmbedSendRecreate (RespMessage id) w in
      status_message_id (snd r) = PInt id /\ synced (snd r)
      /\ objs (snd r) = objs w /\ farms (snd r) = farms w
      /\ (fst r = None
          \/ fst r = Some (Suspended [FEmbedWarn])
             /\ exists doc,
                  log (snd r)
                  = log w ++ [EvSave (Content doc); EvBoardWarning]))
  /\ (let r := after FEmbedSendNew (RespMessage id) w in
      status_message_id (snd r) = PInt id /\ synced (snd r)
      /\ objs (snd r) = objs w /\ farms (snd r) = farms w
      /\ (fst r = None
          \/ fst r = Some Returned
             /\ exists doc, log (snd r) = log w ++ [EvSave (Content doc)])).
Proof.
  split; [reflexivity|]. split; [reflexivity|].
  destruct (embed_store_id_run id w) as (Hid & Hsy & Ho & Hf & _ & Hok).
  assert (R1 : after FEmbedSendRecreate (RespMessage id) w
               = match embed_store_id id w with
                 | (Some _, w1) =>
                     (Some (Suspended [FEmbedWarn]),
                      set_log (log w1 ++ [EvBoardWarning]) w1)
                 | (None, w1) => (None, w1)
                 end).
  { cbn [after]. unfold bind at 1.
    destruct (embed_store_id id w) as [[[]|] w1]; reflexivity. }
  assert (R2 : after FEmbedSendNew (RespMessage id) w
               = match embed_store_id id w with
                 | (Some _, w1) => (Some Returned, w1)
                 | (None, w1) => (None, w1)
                 end).
  { cbn [after]. unfold bind at 1.
    destruct (embed_store_id id w) as [[[]|] w1]; reflexivity. }
  cbv zeta. rewrite R1, R2. clear R1 R2.
  destruct (embed_store_id id w) as [[[]|] w1] eqn:E; cbn [snd fst] in *.
  - destruct (Hok eq_refl) as (doc & Hl & Hd).
    split; (split; [exact Hid|]; split; [exact Hsy|]; split; [exact Ho|];
            split; [exact Hf|]; right; split; [reflexivity|]; exists doc).
    + cbn [log set_log]. rewrite Hl. now rewrite <- app_assoc.
    + exact Hl.
  - split; (split; [exact Hid|]; split; [exact Hsy|]; split; [exact Ho|];
            split; [exact Hf|]; now left).
Qed.

(** ** What is saved comes back ([save_farms] then [load_farms],
       lines 66-125) *)

Lemma load_save_farm (v : pyval) :
  memory_farm v ->
  obind (save_farm isoformat v) (load_farm fromisoformat) = Some v.
Proof.
  intros (f & -> & (n1 & Hr & Hr') & (n2 & Hg & Hg') & Hn & Hs).
  assert (Hmr : dict_mem "runtime" f = true) by (unfold dict_mem; now rewrite Hr).
  assert (Hmg : dict_mem "regrow_time" f = true) by (unfold dict_mem; now rewrite Hg).
  assert (Hmn : dict_mem "next_ready" f = true).
  { unfold dict_mem. destruct Hn as [-> | (d & -> & _)]; reflexivity. }
  (* the two durations, out and back *)
  assert (D : forall g,
    dict_get "runtime" g = Some (PTimedelta (n1 * US_PER_SECOND)) ->
    dict_get "regrow_time" g = Some (PTimedelta (n2 * US_PER_SECOND)) ->
    save_duration "regrow_time" (save_duration "runtime" g)
    = dict_set "regrow_time" (PInt n2) (dict_set "runtime" (PInt n1) g)).
  { intros g G1 G2. unfold save_duration. rewrite G1.
    rewrite dict_get_set_other by discriminate. rewrite G2.
    now rewrite !td_int_seconds_of_seconds. }
  assert (L : forall g, dict_mem "runtime" g = true ->
    dict_mem "regrow_time" g = true -> dict_mem "status" g = true ->
    obind (load_duration "runtime"
             (dict_set "regrow_time" (PInt n2) (dict_set "runtime" (PInt n1) g)))
      (fun f1 => obind (load_duration "regrow_time" f1)
                   (fun f2 => Some (PDict (load_status f2))))
    = Some (PDict (dict_set "regrow_time" (PTimedelta (n2 * US_PER_SECOND))
                     (dict_set "runtime" (PTimedelta (n1 * US_PER_SECOND)) g)))).
  { intros g G1 G2 G3. unfold load_duration.
    rewrite dict_get_set_other by discriminate. rewrite dict_get_set_same.
    cbn [is_number]. rewrite (timedelta_seconds_int _ Hr'). cbn [obind].
    rewrite dict_get_set_other by discriminate. rewrite dict_get_set_same.
    cbn [is_number]. rewrite (timedelta_seconds_int _ Hg'). cbn [obind].
    unfold load_status.
    rewrite (dict_mem_set "status") by (repeat apply dict_mem_set; assumption).
    f_equal. f_equal.
    rewrite (dict_set_comm "runtime" "regrow_time") by dict_side.
    now rewrite !dict_set_twice. }
  cbn [save_farm obind load_farm]. unfold save_next_ready, load_next_ready.
  destruct Hn as [Hn | (d & Hn & Hne & Hp)]; rewrite Hn.
  - rewrite (D f Hr Hg).
    rewrite !dict_get_set_other by discriminate. rewrite Hn. cbn [truthy].
    rewrite (L f Hmr Hmg Hs). f_equal. f_equal.
    now rewrite !dict_set_same_value
      by (rewrite ?dict_get_set_other by discriminate; assumption).
  - rewrite D by (rewrite dict_get_set_other by discriminate; assumption).
    rewrite !dict_get_set_other by discriminate. rewrite dict_get_set_same.
    cbn [truthy]. destruct (String.eqb_spec (isoformat d) ""); [contradiction|].
    cbn [negb]. rewrite Hp.
    rewrite (dict_set_comm "next_ready" "regrow_time") by dict_side.
    rewrite (dict_set_comm "next_ready" "runtime") by dict_side.
    rewrite dict_set_twice.
    rewrite L by (repeat apply dict_mem_set; assumption).
    f_equal. f_equal.
    rewrite (dict_set_same_value "next_ready") by assumption.
    now rewrite !dict_set_same_value
      by (rewrite ?dict_get_set_other by discriminate; assumption).
Qed.

(** X24: What the bot holds in memory survives a save and a restart: when
    every record has its durations as timedeltas of whole seconds, a
    status, and a [next_ready] that is [None] or a datetime that
    [isoformat] and [fromisoformat] take out and back, loading the file
    that [save_farms] wrote returns the data that was saved. *)
Theorem load_save_round_trip (a b : pyval) (fs : list pyval) (doc : pyval) :
  Forall memory_farm fs ->
  save_farms isoformat (envelope a b fs) = Some doc ->
  load_farms fromisoformat (Content doc) = Some (envelope a b fs).
Proof.
  intros Hfs. unfold envelope, save_farms.
  cbn [dict_get dict_get_none String.eqb Ascii.eqb Bool.eqb obind].
  assert (R : obind (omap (save_farm isoformat) fs)
                (omap (load_farm fromisoformat)) = Some fs).
  { apply omap_round_trip. eapply Forall_impl; [|exact Hfs].
    intros v Hv. now apply load_save_farm. }
  destruct (omap (save_farm isoformat) fs) as [fs'|]; [|discriminate].
  cbn [obind] in R |- *.
  destruct (json_serializable _); [|discriminate].
  intros [= <-]. unfold load_farms.
  cbn [dict_get String.eqb Ascii.eqb Bool.eqb obind]. rewrite R.
  reflexivity.
Qed.

(** ** What [load_farms] hands to the bot (lines 85-100) *)

Lemma omap_Forall {A B} (f : A -> option B) (P : B -> Prop) (l : list A)
    (l' : list B) :
  (forall a b, f a = Some b -> P b) -> omap f l = Some l' -> Forall P l'.
Proof.
  intros H. revert l'. induction l as [|a r IH]; intros l'; cbn [omap].
  - intros [= <-]. constructor.
  - destruct (f a) as [b|] eqn:E; [|discriminate]. cbn [obind].
    destruct (omap f r) as [r'|]; [|discriminate]. cbn [obind].
    intros [= <-]. constructor; eauto.
Qed.

Lemma load_duration_some (k : string) (f f' : dict) :
  load_duration k f = Some f' ->
  (forall x, dict_get k f' = Some x -> is_number x = false)
  /\ (forall k', k' <> k -> dict_get k' f' = dict_get k' f).
Proof.
  unfold load_duration. destruct (dict_get k f) as [v|] eqn:E.
  - destruct (is_number v) eqn:N.
    + destruct (timedelta_seconds v) as [us|]; [|discriminate]. cbn [obind].
      intros [= <-]. split.
      * intros x. rewrite dict_get_set_same. now intros [= <-].
      * intros k' Hk. now apply dict_get_set_other.
    + intros [= <-]. split; [|auto]. intros x Hx. congruence.
  - intros [= <-]. split; [|auto]. intros x Hx. congruence.
Qed.

Lemma load_next_ready_ok (f : dict) (x : pyval) :
  dict_get "next_ready" (load_next_ready fromisoformat f) = Some x ->
  truthy x = false \/ exists d, x = PDatetime d.
Proof.
  unfold load_next_ready. destruct (dict_get "next_ready" f) as [v|] eqn:E.
  - destruct (truthy v) eqn:T.
    + destruct v; try (rewrite dict_get_set_same; intros [= <-]; now left).
      destruct (fromisoformat s) as [d|];
        rewrite dict_get_set_same; intros [= <-]; [right; eauto | now left].
    + rewrite E. intros [= <-]. now left.
  - rewrite E. discriminate.
Qed.

Lemma load_farm_loaded (v v' : pyval) :
  load_farm fromisoformat v = Some v' -> loaded_farm v'.
Proof.
  destruct v; try discriminate. cbn [load_farm]. intros H.
  apply obind_some in H as (f1 & H1 & H).
  apply obind_some in H as (f2 & H2 & H). injection H as <-.
  apply load_duration_some in H1 as [N1 O1].
  apply load_duration_some in H2 as [N2 O2].
  exists (load_status f2). split; [reflexivity|].
  assert (S : forall k, k <> "status" ->
                dict_get k (load_status f2) = dict_get k f2).
  { intros k Hk. unfold load_status. destruct (dict_mem "status" f2); [reflexivity|].
    now apply dict_get_set_other. }
  split.
  { unfold load_status. destruct (dict_mem "status" f2) eqn:M; [exact M|].
    unfold dict_mem. now rewrite dict_get_set_same. }
  split.
  { intros x. rewrite S, O2 by discriminate. apply N1. }
  split.
  { intros x. rewrite S by discriminate. apply N2. }
  intros x. rewrite S, O2, O1 by discriminate. apply load_next_ready_ok.
Qed.

Lemma load_farms_loaded (fl : file) (d : dict) (l : list pyval) :
  load_farms fromisoformat fl = Some (PDict d) ->
  dict_get "farms" d = Some (PList l) ->
  Forall loaded_farm l.
Proof.
  destruct fl as [| |doc]; cbn [load_farms].
  - intros [= <-]. cbn. intros [= <-]. constructor.
  - intros [= <-]. cbn. intros [= <-]. constructor.
  - intros H. apply obind_some in H as (d0 & Hd0 & H).
    destruct (dict_get "farms" d0) as [[]|] eqn:E; try discriminate.
    + apply obind_some in H as (l' & Hl & H). injection H as <-.
      rewrite dict_get_set_same. intros [= <-].
      eapply omap_Forall; [|exact Hl]. apply load_farm_loaded.
    + injection H as <-. rewrite E. discriminate.
Qed.


(** ** Start-up (lines 131-158) *)

Lemma omap_length {A B} (f : A -> option B) (l : list A) (l' : list B) :
  omap f l = Some l' -> List.length l' = List.length l.
Proof.
  revert l'. induction l as [|a r IH]; intros l'; cbn [omap].
  - now intros [= <-].
  - destruct (f a); [|discriminate]. cbn [obind].
    destruct (omap f r) as [r'|]; [|discriminate]. cbn [obind].
    intros [= <-]. cbn. now rewrite (IH r').
Qed.

Lemma omap_nth {A B} (f : A -> option B) (l : list A) (l' : list B) (i : nat)
    (b : B) :
  omap f l = Some l' -> nth_error l' i = Some b ->
  exists a, nth_error l i = Some a /\ f a = Some b.
Proof.
  revert l' i. induction l as [|a r IH]; intros l' i; cbn [omap].
  - intros [= <-]. destruct i; discriminate.
  - destruct (f a) as [b0|] eqn:E; [|discriminate]. cbn [obind].
    destruct (omap f r) as [r'|] eqn:Er; [|discriminate]. cbn [obind].
    intros [= <-]. destruct i as [|i]; cbn.
    + intros [= <-]. eauto.
    + intros H. apply (IH r' i); auto.
Qed.

Lemma registry_ok_seq (n : nat) (os : list dict) :
  List.length os = n -> Forall (fun i => (i < List.length os)%nat) (seq 0 n).
Proof.
  intros <-. apply Forall_forall. intros i Hi. apply in_seq in Hi. lia.
Qed.

Lemma save_quiet_inv (w : world) : Inv w -> Inv (snd (save w)).
Proof. intros I. eapply Inv_quiet; [exact I | apply save_quiet]. Qed.

Lemma save_returns (w w1 : world) :
  save w = (Some tt, w1) ->
  exists doc, w1 = set_log (log w ++ [EvSave (Content doc)])
                     (set_disk (Content doc) w)
              /\ dump w = Content doc.
Proof.
  unfold save, dump, bind, modify, emit, raise, ret.
  destruct (in_memory_data w) as [d|]; [|discriminate].
  destruct (save_farms isoformat d) as [doc|]; cbn; [|discriminate].
  intros [= <-]. eauto.
Qed.

(** The start-up on an empty registry *)
Lemma startup_defaults_run (c : Z) (lm sm : pyval) (fl : file) (b s k : bool)
    (w : world) :
  match save (boot c default_farms [0%nat; 1%nat] lm sm fl b s k) with
  | (Some _, w1) => Some w1
  | (None, _) => None
  end = Some w ->
  exists doc,
    w = mk_world c default_farms [0%nat; 1%nat] lm sm (Content doc) [] []
          b s k None [EvSave (Content doc)]
    /\ dump (boot c default_farms [0%nat; 1%nat] lm sm fl b s k) = Content doc.
Proof.
  destruct (save _) as [[[]|] w1] eqn:Es; [|discriminate].
  intros [= <-]. apply save_returns in Es as (doc & -> & Hd).
  exists doc. split; [reflexivity | exact Hd].
Qed.

Lemma defaults_inv (c : Z) (lm sm : pyval) (d : file) (b s k : bool)
    (l : list event) :
  Inv (mk_world c default_farms [0%nat; 1%nat] lm sm d [] [] b s k None l).
Proof.
  split; cbn.
  - intros cid. destruct cid; discriminate.
  - intros cid. destruct cid; discriminate.
  - constructor.
Qed.


Lemma defaults_wf (c : Z) (lm sm : pyval) (d : file) (b s k : bool)
    (l : list event) :
  registry_wf (mk_world c default_farms [0%nat; 1%nat] lm sm d [] [] b s k None l).
Proof.
  split; [|split; [|split]].
  - unfold registry_ok. cbn. repeat constructor.
  - intros i [<-|[<-|[]]]; cbn; eauto.
  - cbn. repeat constructor; cbn; intuition discriminate.
  - intros i j n [<-|[<-|[]]] [<-|[<-|[]]]; cbn; intros [= <-];
      try reflexivity; vm_compute; discriminate.
Qed.

(** X27: When farms.json is missing, cannot be parsed, or holds no farm,
    the start-up installs the two default farms and saves them at once,
    keeping the ids the file had; a file that cannot be parsed is thereby
    overwritten.  The file it writes loads back as the data in memory,
    and the registry is in good order. *)
Theorem empty_registry_gets_defaults (c : Z) (fl : file) (b s k : bool)
    (d : dict) :
  load_farms fromisoformat fl = Some (PDict d) ->
  truthy (dict_get_default "farms" (PList []) d) = false ->
  json_serializable (dict_get_none "last_message_id" d) = true ->
  json_serializable (dict_get_none "status_message_id" d) = true ->
  exists w doc,
    startup c fl b s k = Some w
    /\ objs w = default_farms /\ farms w = [0%nat; 1%nat]
    /\ last_message_id w = dict_get_none "last_message_id" d
    /\ status_message_id w = dict_get_none "status_message_id" d
    /\ disk w = Content doc /\ log w = [EvSave (Content doc)]
    /\ load_farms fromisoformat (Content doc) = in_memory_data w
    /\ registry_wf w.
Proof.
  intros Hload Hempty Hlm Hsm. unfold startup. rewrite Hload.
  cbn [obind as_dict]. rewrite Hempty.
  set (lm := dict_get_none "last_message_id" d) in *.
  set (sm := dict_get_none "status_message_id" d) in *.
  assert (Es : exists doc,
             save (boot c default_farms [0%nat; 1%nat] lm sm fl b s k)
             = (Some tt,
                mk_world c default_farms [0%nat; 1%nat] lm sm (Content doc) [] []
                  b s k None [EvSave (Content doc)])
             /\ load_farms fromisoformat (Content doc)
                = Some (envelope lm sm (map PDict default_farms))).
  { unfold save, bind. cbn [in_memory_data boot objs farms omap obind nth_error
      default_farms option_map last_message_id status_message_id].
    unfold save_farms.
    cbn [dict_get dict_get_none String.eqb Ascii.eqb Bool.eqb obind omap save_farm
         save_next_ready save_duration dict_set].
    cbn [json_serializable forallb andb]. rewrite Hlm, Hsm. cbn [andb].
    eexists. split; [reflexivity|]. reflexivity. }
  destruct Es as (doc & Es & Hback). rewrite Es.
  eexists. exists doc. split; [reflexivity|].
  cbn [objs farms last_message_id status_message_id disk log].
  repeat (split; [reflexivity|]).
  split; [exact Hback | apply defaults_wf].
Qed.

(** ** The lifecycle of a record through every run *)

Lemma Forall_list_set {A} (P : A -> Prop) (l : list A) (i : nat) (a : A) :
  Forall P l -> P a -> Forall P (list_set i a l).
Proof.
  intros H Ha. revert i. induction H as [|x r Hx Hr IH]; intros [|i]; cbn;
    constructor; auto.
Qed.

Lemma Forall_nth {A} (P : A -> Prop) (l : list A) (i : nat) (a : A) :
  Forall P l -> nth_error l i = Some a -> P a.
Proof.
  intros H Hi. rewrite Forall_forall in H. eauto using nth_error_In.
Qed.

Lemma ok_other (k : string) (v : pyval) (f : dict) :
  k <> "status" -> k <> "next_ready" ->
  lifecycle_ok f -> lifecycle_ok (dict_set k v f).
Proof.
  intros H1 H2. unfold lifecycle_ok, dict_get_none.
  now rewrite !dict_get_set_other by congruence.
Qed.

Lemma ok_status_farming (f : dict) :
  lifecycle_ok f -> lifecycle_ok (dict_set "status" (PStr STATUS_FARMING) f).
Proof.
  unfold lifecycle_ok, dict_get_none.
  rewrite dict_get_set_other by discriminate. rewrite dict_get_set_same.
  destruct (dict_get "next_ready" f) as [[]|]; auto.
Qed.

Lemma ok_clear (f : dict) : lifecycle_ok (dict_set "next_ready" PNone f).
Proof. unfold lifecycle_ok, dict_get_none. now rewrite dict_get_set_same. Qed.

Lemma ok_finish (d : datetime) (f : dict) :
  lifecycle_ok (dict_set "status" (PStr STATUS_FARMING)
                  (dict_set "next_ready" (PDatetime d) f)).
Proof.
  unfold lifecycle_ok, dict_get_none.
  rewrite dict_get_set_other by discriminate.
  now rewrite !dict_get_set_same.
Qed.

Lemma ok_ready (v : pyval) (f : dict) :
  lifecycle_ok (dict_set "next_ready" PNone (dict_set "status" v f)).
Proof. apply ok_clear. Qed.

Lemma farm_set_keeps_life (i : nat) (k : string) (v : pyval) :
  (forall f, lifecycle_ok f -> lifecycle_ok (dict_set k v f)) ->
  respects (keeps lifecycle_inv) (farm_set i k v).
Proof.
  intros H w Hw. unfold farm_set, get_farm, bind, gets, lift_option.
  destruct (nth_error (objs w) i) as [f|] eqn:Hf; [|exact Hw].
  unfold ret, modify. cbn [snd]. unfold lifecycle_inv. cbn [objs set_objs].
  apply Forall_list_set; [exact Hw|]. apply H. eapply Forall_nth; eauto.
Qed.

Lemma farm_set_raise (w : world) (i : nat) (k : string) (v : pyval) :
  nth_error (objs w) i = None -> farm_set i k v w = (None, w).
Proof.
  intros H. unfold farm_set, get_farm, bind, gets, lift_option. now rewrite H.
Qed.

(** Two assignments in a row that together leave a record in order. *)
Lemma pair_keeps_life {A} (i : nat) (k1 k2 : string) (v1 v2 : pyval) (K : M A) :
  (forall f, lifecycle_ok (dict_set k2 v2 (dict_set k1 v1 f))) ->
  respects (keeps lifecycle_inv) K ->
  respects (keeps lifecycle_inv)
    (farm_set i k1 v1 ;;; farm_set i k2 v2 ;;; K).
Proof.
  intros H HK w Hw. destruct (nth_error (objs w) i) as [f|] eqn:Hf.
  - rewrite (farm_set2_run w i f k1 k2 v1 v2 K Hf). apply HK.
    unfold lifecycle_inv. cbn [objs set_objs]. now apply Forall_list_set.
  - rewrite (bind_raise _ _ _ _ (farm_set_raise w i k1 v1 Hf)). exact Hw.
Qed.

Lemma same_objs_keeps_life {A} (m : M A) :
  respects same_objs m -> respects (keeps lifecycle_inv) m.
Proof. intros H w Hw. unfold lifecycle_inv. now rewrite (H w). Qed.

Create HintDb life_frame.

Lemma farm_set_life_status (i : nat) :
  respects (keeps lifecycle_inv) (farm_set i "status" (PStr STATUS_FARMING)).
Proof. apply farm_set_keeps_life, ok_status_farming. Qed.
Lemma farm_set_life_clear (i : nat) :
  respects (keeps lifecycle_inv) (farm_set i "next_ready" PNone).
Proof. apply farm_set_keeps_life. intros f _. apply ok_clear. Qed.
Lemma farm_set_life_runtime (i : nat) (v : pyval) :
  respects (keeps lifecycle_inv) (farm_set i "runtime" v).
Proof. apply farm_set_keeps_life. intros f. apply ok_other; discriminate. Qed.
Lemma farm_set_life_regrow (i : nat) (v : pyval) :
  respects (keeps lifecycle_inv) (farm_set i "regrow_time" v).
Proof. apply farm_set_keeps_life. intros f. apply ok_other; discriminate. Qed.
Lemma farm_set_life_coords (i : nat) (v : pyval) :
  respects (keeps lifecycle_inv) (farm_set i "coords" v).
Proof. apply farm_set_keeps_life. intros f. apply ok_other; discriminate. Qed.
Lemma farm_set_life_output (i : nat) (v : pyval) :
  respects (keeps lifecycle_inv) (farm_set i "total_output" v).
Proof. apply farm_set_keeps_life. intros f. apply ok_other; discriminate. Qed.
#[local] Hint Resolve farm_set_life_status farm_set_life_clear
  farm_set_life_runtime farm_set_life_regrow farm_set_life_coords
  farm_set_life_output : life_frame.

Ltac life_frame :=
  frame (keeps_refl lifecycle_inv) (keeps_trans lifecycle_inv)
        ltac:(first [ apply same_objs_keeps_life; solve [auto with objs_frame]
                    | solve [intros ? H; exact H]
                    | solve [auto with life_frame] ]).

Lemma normalize_duration_life (i : nat) (k : string) :
  k = "runtime" \/ k = "regrow_time" ->
  respects (keeps lifecycle_inv) (normalize_duration i k).
Proof.
  intros Hk. unfold normalize_duration.
  assert (F : forall u, respects (keeps lifecycle_inv)
                          (farm_set i k (PTimedelta u))).
  { intros u. destruct Hk as [-> | ->]; auto with life_frame. }
  apply (respects_bind _ (keeps_trans lifecycle_inv));
    [apply (respects_farm_get _ (keeps_refl lifecycle_inv)
              (keeps_trans lifecycle_inv))|].
  intros v.
  destruct v; cbn [is_number];
    frame (keeps_refl lifecycle_inv) (keeps_trans lifecycle_inv) ltac:(apply F).
Qed.

Lemma finish_tail_life (l : kira_locals) (nr : datetime) :
  respects (keeps lifecycle_inv)
    (save ;;; call_embed (FFinishEmbed l nr) (finish_after_embed l nr)).
Proof.
  unfold call_embed, finish_after_embed, start_after_send, checkpoint. life_frame.
Qed.

Lemma process_kira_life (m : message) :
  respects (keeps lifecycle_inv) (process_kira_message m).
Proof.
  unfold process_kira_message.
  destruct (m_groups m) as [[[t u] msg]|]; [|life_frame].
  destruct (split_bar msg) as [[a b]|]; [|life_frame].
  apply (respects_bind _ (keeps_trans lifecycle_inv)); [life_frame|].
  intros [farm|]; [|life_frame].
  apply (respects_bind _ (keeps_trans lifecycle_inv)); [life_frame|]. intros bc.
  apply (respects_bind _ (keeps_trans lifecycle_inv));
    [apply normalize_duration_life; auto|].
  intros _. apply (respects_bind _ (keeps_trans lifecycle_inv));
    [apply normalize_duration_life; auto|].
  intros _. cbv zeta.
  destruct (contains "being started" _).
  { unfold call_embed, start_after_embed, start_after_send, checkpoint.
    life_frame. }
  destruct (contains "has finished" _).
  { apply (respects_bind _ (keeps_trans lifecycle_inv)); [life_frame|].
    intros regrow. apply pair_keeps_life; [apply ok_finish|].
    apply finish_tail_life. }
  unfold start_after_send, checkpoint. life_frame.
Qed.
#[local] Hint Resolve process_kira_life : life_frame.

Lemma failsafe_after_sleep_life (farm : nat) (bc : bool) :
  respects (keeps lifecycle_inv) (failsafe_after_sleep farm bc).
Proof.
  unfold failsafe_after_sleep.
  apply (respects_bind _ (keeps_trans lifecycle_inv)); [life_frame|].
  intros nr. destruct nr; try solve [life_frame].
  apply (respects_bind _ (keeps_trans lifecycle_inv)); [life_frame|]. intros now.
  apply (respects_bind _ (keeps_trans lifecycle_inv)); [life_frame|].
  intros regrow. cbv zeta. apply pair_keeps_life; [apply ok_finish|].
  unfold call_embed, failsafe_after_embed. life_frame.
Qed.
#[local] Hint Resolve failsafe_after_sleep_life : life_frame.

Lemma notify_farm_ready_plain_life (farm : nat) :
  respects (keeps lifecycle_inv) (notify_farm_ready_plain farm).
Proof.
  unfold notify_farm_ready_plain.
  apply (respects_bind _ (keeps_trans lifecycle_inv)); [life_frame|].
  intros up. destruct (negb up); [life_frame|].
  apply pair_keeps_life; [intros f; apply ok_ready|].
  unfold call_embed, notify_after_embed. life_frame.
Qed.
#[local] Hint Resolve notify_farm_ready_plain_life : life_frame.

Lemma schedule_notification_life (farm : nat) :
  respects (keeps lifecycle_inv) (schedule_notification_for_farm farm).
Proof. unfold schedule_notification_for_farm. life_frame. Qed.
#[local] Hint Resolve schedule_notification_life : life_frame.

Lemma on_ready_farm_idle (w : world) (now : datetime) (i : nat) (f : dict) :
  nth_error (objs w) i = Some f -> dict_get_none "next_ready" f = PNone ->
  on_ready_farm now i w = (Some tt, w).
Proof.
  intros Hf Hn. unfold on_ready_farm.
  rewrite (bind_run _ _ _ _ _ (farm_get_run _ _ _ "next_ready" Hf)), Hn.
  unfold bind at 1. cbn [ret].
  now rewrite (bind_run _ _ _ _ _ (farm_get_run _ _ _ "next_ready" Hf)), Hn.
Qed.

Lemma on_ready_farm_life (now : datetime) (farm : nat) :
  respects (keeps lifecycle_inv) (on_ready_farm now farm).
Proof.
  intros w Hw. destruct (nth_error (objs w) farm) as [f|] eqn:Hf.
  2:{ unfold on_ready_farm, farm_get, get_farm, bind, gets, lift_option.
      now rewrite Hf. }
  pose proof (Forall_nth _ _ _ _ Hw Hf) as Hok. unfold lifecycle_ok in Hok.
  destruct (dict_get_none "next_ready" f) as [| | | | |d| | |] eqn:En;
    try contradiction.
  - now rewrite (on_ready_farm_idle w now farm f Hf En).
  - assert (Hn : dict_get "next_ready" f = Some (PDatetime d)).
    { unfold dict_get_none in En. destruct (dict_get "next_ready" f); congruence. }
    rewrite (on_ready_farm_run w now d farm f Hf Hn).
    assert (Hw1 : lifecycle_inv
                    (set_objs (list_set farm (with_utc d f) (objs w)) w)).
    { unfold lifecycle_inv. cbn [objs set_objs].
      apply Forall_list_set; [exact Hw|].
      unfold with_utc. destruct (dt_tz d).
      - unfold lifecycle_ok. now rewrite En.
      - unfold lifecycle_ok, dict_get_none. rewrite dict_get_set_same.
        now rewrite dict_get_set_other by discriminate. }
    destruct (dt_instant (as_utc d) <=? dt_instant now).
    + apply (pair_keeps_life farm "status" "next_ready" (PStr STATUS_READY)
               PNone save); [intros g; apply ok_ready | life_frame | exact Hw1].
    + revert Hw1. apply same_objs_keeps_life. auto with objs_frame.
Qed.
#[local] Hint Resolve on_ready_farm_life : life_frame.

Lemma on_ready_schedule_life (now : datetime) (l : list nat) :
  respects (keeps lifecycle_inv) (on_ready_schedule now l).
Proof. induction l as [|i r IH]; cbn [on_ready_schedule]; life_frame. Qed.
#[local] Hint Resolve on_ready_schedule_life : life_frame.

Lemma on_ready_catchup_life (now : datetime) (msgs : list message) :
  respects (keeps lifecycle_inv) (on_ready_catchup now msgs).
Proof.
  induction msgs as [|m r IH]; cbn [on_ready_catchup];
    unfold on_ready_tail, call_embed; life_frame.
Qed.
#[local] Hint Resolve on_ready_catchup_life : life_frame.

Lemma after_life (f : frame) (r : response) :
  respects (keeps lifecycle_inv) (after f r).
Proof.
  destruct f; cbn [after];
    unfold on_ready_after_sync, on_ready_tail, embed_recreate, embed_store_id,
      start_after_embed, start_after_send, finish_after_embed, checkpoint,
      failsafe_start, failsafe_after_embed, notify_after_embed,
      command_after_embed, call_embed;
    life_frame.
Qed.

Lemma editfarm_life (arg : string) (coords total_output : option string)
    (rm : option Z) (rh : option Q) :
  respects (keeps lifecycle_inv) (editfarm arg coords total_output rm rh).
Proof.
  unfold editfarm, call_embed, command_after_embed, command_refused. life_frame.
Qed.

Lemma removefarm_life (arg : string) :
  respects (keeps lifecycle_inv) (removefarm arg).
Proof.
  unfold removefarm, call_embed, command_after_embed, command_refused.
  life_frame.
Qed.

Lemma addfarm_life (name coords total_output : string) (rm : Z) (rh : Q) :
  respects (keeps lifecycle_inv) (addfarm name coords total_output rm rh).
Proof.
  unfold addfarm, call_embed, command_after_embed, command_refused.
  apply (respects_bind _ (keeps_trans lifecycle_inv)); [life_frame|]. intros fs.
  apply (respects_bind _ (keeps_trans lifecycle_inv)); [life_frame|].
  intros [dup|]; [life_frame|].
  apply (respects_bind _ (keeps_trans lifecycle_inv)); [life_frame|].
  intros runtime.
  apply (respects_bind _ (keeps_trans lifecycle_inv)); [life_frame|].
  intros regrow. cbv zeta. intros w.
  rewrite (bind_run _ _ w w (objs w)) by reflexivity.
  match goal with
  | |- context [bind (modify (set_objs ?o)) ?K w] =>
      rewrite (bind_run (modify (set_objs o)) K w (set_objs o w) tt) by reflexivity;
      assert (HK : respects (keeps lifecycle_inv) (K tt)) by life_frame
  end.
  eapply (keeps_trans lifecycle_inv); [|apply HK].
  intros Hw. unfold lifecycle_inv. cbn [objs set_objs].
  apply Forall_app. split; [exact Hw|]. constructor; [exact I | constructor].
Qed.

(** X28: In every run of the bot a record whose [next_ready] is set is
    marked "Currently being farmed": if this holds of every record at
    the start, it holds after every message, command, expiry and
    restart reconciliation - a record that is "Ready to be farmed" or
    "Unknown" never carries a [next_ready]. *)
Theorem next_ready_only_while_farming (ls : list label) (w : world) :
  lifecycle_inv w -> lifecycle_inv (run ls w).
Proof.
  apply (run_respects (keeps lifecycle_inv)).
  - apply keeps_refl.
  - apply keeps_trans.
  - intros a b Ho _ Ha. unfold lifecycle_inv. now rewrite Ho.
  - apply after_life.
  - intros m. unfold on_message. life_frame.
  - apply addfarm_life.
  - apply editfarm_life.
  - apply removefarm_life.
Qed.

End Bot.

(** * The properties on the sample inputs *)

(** The sample runs under the sample reading of the conversions. *)
Abbreviation sample_step := (step sample_fromisoformat sample_isoformat).
Abbreviation started_world := (after_started sample_fromisoformat sample_isoformat).
Abbreviation fired_world updates :=
  (failsafe_fired sample_fromisoformat sample_isoformat updates).
Abbreviation recovered_world :=
  (failsafe_then_ready sample_fromisoformat sample_isoformat).
Abbreviation stuck_world :=
  (ready_without_channel sample_fromisoformat sample_isoformat).
Abbreviation superseded_world :=
  (failsafe_superseded sample_fromisoformat sample_isoformat).

(** C9 (as stated) fails: [snapshot_without_status] has the envelope, whole
    second durations and an explicit null [next_ready], yet saving what
    was loaded writes a different document, because [load_farms] fills in
    the missing [status]. *)
Lemma save_load_adds_status :
  legacy_free sample_fromisoformat sample_isoformat snapshot_without_status /\
  save_load sample_fromisoformat sample_isoformat snapshot_without_status
    <> Some snapshot_without_status.
Proof.
  split.
  - exists PNone, PNone. eexists. split; [reflexivity|]. split; [reflexivity|].
    constructor; [|constructor].
    eexists. split; [reflexivity|].
    split; [exists 1800; split; reflexivity|].
    split; [exists 7200; split; reflexivity|].
    left. reflexivity.
  - vm_compute. discriminate.
Qed.

(** The round trip on a snapshot in the written layout. *)
Lemma save_load_fixed_point_witness :
  save_load sample_fromisoformat sample_isoformat
    (envelope (PInt 41) PNone snapshot_two_farms)
  = Some (envelope (PInt 41) PNone snapshot_two_farms).
Proof.
  apply (save_load_fixed_point sample_fromisoformat sample_isoformat).
  - reflexivity.
  - repeat constructor.
    + eexists. split; [reflexivity|].
      split; [exists 1800; split; reflexivity|].
      split; [exists 7200; split; reflexivity|].
      right. eexists. split; [reflexivity|]. split; [discriminate|].
      eexists. split; reflexivity.
    + eexists. split; reflexivity.
    + eexists. split; [reflexivity|].
      split; [exists 900; split; reflexivity|].
      split; [exists 36; split; reflexivity|].
      left. reflexivity.
    + eexists. split; reflexivity.
Defined.

(** With the failsafe pending: a Finished line replaces it by the
    readiness task, [/removefarm] leaves none. *)
Lemma one_armed_timer_per_name_witness :
  (List.length (armed_for started_world "Wheat") <= 1)%nat
  /\ (armed_for (sample_step (LMessage finished_line) started_world) "Wheat"
      = [3%nat]
      /\ sched_get "Wheat"
           (scheduled (sample_step (LMessage finished_line) started_world))
         = Some 3%nat)
  /\ armed_for (sample_step (LRemove " wheat ") started_world) "Wheat" = [].
Proof.
  destruct (one_armed_timer_per_name sample_fromisoformat sample_isoformat
              T0 [wheat] [0%nat] PNone (PInt 5) NoFile true false true
              [LMessage started_line] "Wheat") as (H1 & H2 & H3).
  split; [exact H1|]. split.
  - apply (H2 (LMessage finished_line) 3%nat); vm_compute; [lia | auto].
  - apply (H3 " wheat " 0%nat); reflexivity.
Defined.






(** C5 fails on the code: when the updates channel does not resolve at
    readiness expiry, [notify_farm_ready_plain] returns before it touches
    the record.  The status stays "Currently being farmed", [next_ready]
    stays set although it has passed, nothing is saved, and no timer is
    left to try again. *)
Lemma ready_transition_lost_without_channel :
  option_map (dict_get "status") (nth_error (objs stuck_world) 0)
    = Some (Some (PStr STATUS_FARMING))
  /\ option_map (dict_get "next_ready") (nth_error (objs stuck_world) 0)
     = Some (Some (PDatetime (mk_datetime (T0 + 8700 * US_PER_SECOND) (Some 0))))
  /\ T0 + 8700 * US_PER_SECOND <= clock stuck_world
  /\ disk stuck_world
     = disk (sample_step (LMessage finished_line) (sample_boot true false))
  /\ armed_for stuck_world "Wheat" = []
  /\ last (log stuck_world) (EvPrint "")
     = EvPrint "Bot updates channel not found".
Proof. repeat split; vm_compute; solve [reflexivity | discriminate]. Qed.




(** "whe" is no farm's name, though it is part of one. *)
Lemma removefarm_exact_only_witness :
  get_farm_exact "whe" (sample_boot true false)
    = (Some (Some 0%nat), sample_boot true false)
  /\ removefarm sample_isoformat "whe" (sample_boot true false)
     = (Some (Suspended [FCommandRespond]),
        set_log (log (sample_boot true false) ++ [EvRespond false "whe"])
          (sample_boot true false))
  /\ farms (sample_step (LRemove "whe") (sample_boot true false)) = [0%nat].
Proof.
  split; [reflexivity|].
  assert (N : no_exact_match (sample_boot true false) "whe").
  { intros i [<-|[]]. exists "Wheat". split; [reflexivity | discriminate]. }
  destruct (removefarm_exact_only sample_fromisoformat sample_isoformat
              (sample_boot true false) "whe" N) as (E & F & _).
  split; [exact E | exact F].
Defined.


(** * The further properties on sample inputs *)

(** The names of a sample registry can all be read. *)
Ltac readable :=
  let i := fresh "i" in
  let H := fresh "H" in
  intros i H; cbn in H;
  repeat (destruct H as [<-|H]; [eexists; reflexivity|]);
  destruct H.

(** No farm of a sample registry satisfies the test. *)
Ltac none_of :=
  let j := fresh "j" in
  let H := fresh "H" in
  intros j H; cbn in H;
  repeat (destruct H as [<-|H]; [reflexivity|]);
  destruct H.

(** A line as Kira sends it. *)
Lemma kira_line_parsed_witness :
  kira_match
    (kira_line "12:34:56" "Info" "bob" "Wheat | is being started" " " " " " ")
  = Some ("12:34:56", "bob", "Wheat | is being started").
Proof. apply kira_line_parsed; reflexivity. Defined.

Lemma kira_match_shape_witness :
  exists tag ws1 ws2 ws3,
    "`[12:34:56]``[a]`b]`**[x]** y]**   z "
    = kira_line "12:34:56" tag "x" "y]**   z " ws1 ws2 ws3
    /\ time_shape "12:34:56" = true
    /\ all_chars is_space ws1 = true /\ all_chars is_space ws2 = true
    /\ all_chars is_space ws3 = true
    /\ all_chars not_newline tag = true /\ all_chars not_newline "x" = true
    /\ all_chars not_newline "y]**   z " = true
    /\ trimmed_left "y]**   z " = true.
Proof.
  apply (kira_match_shape "`[12:34:56]``[a]`b]`**[x]** y]**   z ").
  reflexivity.
Defined.

(** "wheat" is the name of the second farm and part of the name of the
    first: the second is returned. *)
Lemma lookup_prefers_exact_witness :
  exists i l1 l2,
    get_farm_exact "wheat" wheat_pair = (Some (Some i), wheat_pair)
    /\ name_is wheat_pair (String.eqb (clean "wheat")) i = true
    /\ farms wheat_pair = l1 ++ i :: l2
    /\ forall x, In x l1 ->
         name_is wheat_pair (String.eqb (clean "wheat")) x = false.
Proof.
  apply (proj1 (lookup_prefers_exact wheat_pair "wheat"
                  ltac:(readable) ltac:(discriminate)) 1%nat).
  - right. left. reflexivity.
  - reflexivity.
Defined.

(** "farm" is part of both names. *)
Lemma lookup_finds_iff_witness :
  exists i, fst (get_farm_exact "farm" two_farms) = Some (Some i).
Proof.
  apply (proj2 (proj1 (lookup_finds_iff two_farms "farm" ltac:(readable)))).
  split; [discriminate|]. exists 0%nat. split; [left; reflexivity | reflexivity].
Defined.

(** Two spaces as a query. *)
Lemma blank_query_takes_first_farm_witness :
  get_farm_exact "  " two_farms = (Some (Some 0%nat), two_farms).
Proof.
  apply (blank_query_takes_first_farm two_farms "  " 0%nat [1%nat]).
  - readable.
  - discriminate.
  - reflexivity.
  - reflexivity.
  - none_of.
Defined.

(** "wheat" takes "Wheat" and " WHEAT " out and leaves "Corn". *)
Lemma removefarm_removes_namesakes_witness :
  farms (snd (removefarm sample_isoformat "wheat" namesakes)) = [2%nat]
  /\ ~ In 0%nat (farms (snd (removefarm sample_isoformat "wheat" namesakes)))
  /\ objs (snd (removefarm sample_isoformat "wheat" namesakes)) = objs namesakes
  /\ synced sample_isoformat (snd (removefarm sample_isoformat "wheat" namesakes)).
Proof.
  destruct (removefarm_removes_namesakes sample_isoformat namesakes "wheat" 0%nat)
    as (H1 & _ & H3 & H4 & H5).
  - readable.
  - constructor.
  - left. reflexivity.
  - reflexivity.
  - split; [rewrite H1; reflexivity|]. auto.
Defined.

(** "FARM" typed into the autocomplete of the two-farm registry. *)
Lemma autocomplete_choices_witness :
  (List.length ["Wheat Farm"; "Corn Farm"] <= 25)%nat
  /\ (forall n, In n ["Wheat Farm"; "Corn Farm"] ->
        exists i, In i (farms two_farms) /\ obj_name two_farms i = Some n
                  /\ contains (lower "FARM") (lower n) = true)
  /\ ((List.length (farms two_farms) <= 25)%nat ->
      forall i n, In i (farms two_farms) -> obj_name two_farms i = Some n ->
                  contains (lower "FARM") (lower n) = true ->
                  In n ["Wheat Farm"; "Corn Farm"])
  /\ snd (farms_autocomplete "FARM" two_farms) = two_farms.
Proof.
  apply (autocomplete_choices two_farms "FARM" ["Wheat Farm"; "Corn Farm"]).
  reflexivity.
Defined.

Lemma offered_name_removable_witness :
  farms (snd (removefarm sample_isoformat "Corn Farm" two_farms)) = [0%nat]
  /\ (List.length (farms (snd (removefarm sample_isoformat "Corn Farm" two_farms)))
      < List.length (farms two_farms))%nat.
Proof.
  destruct (offered_name_removable sample_isoformat two_farms "corn" "Corn Farm"
              ["Corn Farm"]) as (H1 & H2 & _).
  - constructor.
  - reflexivity.
  - left. reflexivity.
  - split; [rewrite H1; reflexivity | exact H2].
Defined.

(** "Wheat  Farm" is offered, and [/editfarm] does not find it. *)
Lemma offered_name_resolves_witness :
  fst (editfarm_autocomplete "wheat" spaced) = Some ["Wheat  Farm"]
  /\ get_farm_exact "Wheat  Farm" spaced = (Some None, spaced).
Proof.
  split; [reflexivity|].
  apply (proj2 (offered_name_resolves spaced "wheat" "Wheat  Farm"
                  ["Wheat  Farm"] eq_refl (or_introl eq_refl)
                  ltac:(discriminate))).
  none_of.
Defined.

(** [/addfarm Barley] on the two-farm registry: 20 minutes, 1.5 hours. *)
Lemma addfarm_appends_witness :
  farms (snd (addfarm sample_isoformat " Barley " "(7, 8, 9) " "2 cs barley"
                20 (3 # 2) two_farms)) = [0%nat; 1%nat; 2%nat]
  /\ nth_error
       (objs (snd (addfarm sample_isoformat " Barley " "(7, 8, 9) "
                     "2 cs barley" 20 (3 # 2) two_farms))) 2
     = Some [("name", PStr "Barley"); ("coords", PStr "(7, 8, 9)");
             ("total_output", PStr "2 cs barley");
             ("runtime", PTimedelta 1200000000);
             ("regrow_time", PTimedelta 5400000000);
             ("next_ready", PNone); ("status", PStr "Unknown")]
  /\ synced sample_isoformat
       (snd (addfarm sample_isoformat " Barley " "(7, 8, 9) " "2 cs barley"
               20 (3 # 2) two_farms)).
Proof.
  destruct (addfarm_appends sample_isoformat two_farms " Barley " "(7, 8, 9) "
              "2 cs barley" 20 (3 # 2) 1200000000 5400000000)
    as (H1 & H2 & H3 & _).
  - readable.
  - none_of.
  - reflexivity.
  - reflexivity.
  - split; [rewrite H1; reflexivity|]. split; [rewrite H2; reflexivity | exact H3].
Defined.

Lemma addfarm_duplicate_refused_witness :
  addfarm sample_isoformat " wheat FARM " "(0, 0, 0)" "none" 5 1 two_farms
  = (Some (Suspended [FCommandRespond]),
     set_log (log two_farms ++ [EvRespond false " wheat FARM "]) two_farms).
Proof.
  apply (addfarm_duplicate_refused sample_isoformat two_farms " wheat FARM "
           "(0, 0, 0)" "none" 5 1 0%nat).
  - readable.
  - left. reflexivity.
  - reflexivity.
Defined.

Lemma addfarm_out_of_range_witness :
  addfarm sample_isoformat "Barley" "(7, 8, 9)" "2 cs barley" 1440000000000 1
    two_farms
  = (None, two_farms).
Proof.
  apply addfarm_out_of_range.
  - readable.
  - none_of.
  - right. left. lia.
Defined.

Lemma two_farms_wf : registry_wf two_farms.
Proof.
  split; [|split; [|split]].
  - unfold registry_ok. cbn. repeat constructor.
  - readable.
  - cbn. repeat constructor; cbn; intuition discriminate.
  - intros i j n [<-|[<-|[]]] [<-|[<-|[]]]; cbn; intros [= <-];
      try reflexivity; vm_compute; discriminate.
Qed.

(** A run with a command of each kind. *)
Lemma registry_stays_in_order_witness :
  registry_wf (run sample_fromisoformat sample_isoformat busy_run two_farms).
Proof. apply registry_stays_in_order. exact two_farms_wf. Defined.

Lemma names_never_change_witness :
  obj_name (run sample_fromisoformat sample_isoformat busy_run two_farms) 1
  = Some "Corn Farm".
Proof. apply names_never_change. reflexivity. Defined.

Lemma add_then_remove_witness :
  farms (snd (removefarm sample_isoformat "Barley"
                (snd (addfarm sample_isoformat "Barley" "(7, 8, 9)" "2 cs barley"
                        20 (3 # 2) two_farms))))
  = farms two_farms.
Proof.
  destruct (add_then_remove sample_isoformat two_farms "Barley" "(7, 8, 9)"
              "2 cs barley" 20 (3 # 2) 1200000000 5400000000) as (H & _).
  - readable.
  - constructor.
  - none_of.
  - reflexivity.
  - reflexivity.
  - exact H.
Defined.

Lemma added_farm_shown_witness :
  fst (farms_command "barley"
         (snd (addfarm sample_isoformat " Barley " "(7, 8, 9) " "2 cs barley"
                 20 (3 # 2) two_farms)))
  = Some (Shown (mk_card (PStr "Barley") (PStr "(7, 8, 9)") (PStr "2 cs barley")
                   (Minutes 20) ShownUnknown)).
Proof.
  rewrite (added_farm_shown sample_isoformat two_farms " Barley " "(7, 8, 9) "
             "2 cs barley" "barley" 20 (3 # 2) 1200000000 5400000000).
  - reflexivity.
  - readable.
  - none_of.
  - reflexivity.
  - reflexivity.
  - discriminate.
  - reflexivity.
Defined.

Lemma farms_card_on_board_witness :
  In (mk_card (PStr "Corn Farm") (PStr "(4, 5, 6)") (PStr "1 cs corn")
        (Minutes 15) ShownUnknown)
     [mk_card (PStr "Wheat Farm") (PStr "(1, 2, 3)") (PStr "5 cs wheat")
        (Minutes 30) ShownUnknown;
      mk_card (PStr "Corn Farm") (PStr "(4, 5, 6)") (PStr "1 cs corn")
        (Minutes 15) ShownUnknown]
  /\ snd (farms_command "corn" two_farms) = two_farms.
Proof.
  apply (farms_card_on_board two_farms "corn"); reflexivity.
Defined.

(** [/editfarm corn]: new coords and a runtime of 10 minutes. *)
Lemma editfarm_sets_given_fields_witness :
  nth_error
    (objs (snd (editfarm sample_isoformat "corn" (Some " (0, 0, 0) ") None
                  (Some 10) None two_farms))) 1
  = Some [("name", PStr "Corn Farm"); ("coords", PStr "(0, 0, 0)");
          ("total_output", PStr "1 cs corn");
          ("runtime", PTimedelta 600000000);
          ("regrow_time", PTimedelta 3600000000);
          ("next_ready", PNone); ("status", PStr "Unknown")]
  /\ synced sample_isoformat
       (snd (editfarm sample_isoformat "corn" (Some " (0, 0, 0) ") None
               (Some 10) None two_farms)).
Proof.
  destruct (editfarm_sets_given_fields sample_isoformat two_farms "corn" 1%nat
              corn_farm (Some " (0, 0, 0) ") None (Some 10) None
              (Some 600000000) None) as (H1 & _ & _ & H4).
  - readable.
  - discriminate.
  - reflexivity.
  - reflexivity.
  - split; [reflexivity | discriminate].
  - reflexivity.
  - split; [rewrite H1; reflexivity | exact H4].
Defined.

Lemma editfarm_overflow_half_done_witness :
  editfarm sample_isoformat "corn" (Some "(0, 0, 0)") None
    (Some 1440000000000) None two_farms
  = (None,
     set_objs [wheat_farm; dict_set "coords" (PStr "(0, 0, 0)") corn_farm]
       two_farms).
Proof.
  apply (editfarm_overflow_half_done sample_isoformat two_farms "corn" 1%nat
           corn_farm).
  - readable.
  - discriminate.
  - reflexivity.
  - reflexivity.
  - reflexivity.
Defined.

(** The failsafe of the cycle in progress is task 1; [/editfarm wheat]
    with nothing to change cancels it. *)
Lemma editfarm_drops_pending_task_witness :
  nth_error
    (coros (snd (editfarm sample_isoformat "wheat" None None None None
                   started_world))) 1
  = Some (mk_coro [FFailsafeNew 0 true] Cancelling)
  /\ List.length
       (coros (snd (editfarm sample_isoformat "wheat" None None None None
                      started_world)))
     = 2%nat.
Proof.
  destruct (editfarm_drops_pending_task sample_fromisoformat sample_isoformat
              started_world "wheat"
              "Wheat" 0%nat 1%nat
              [("name", PStr "Wheat"); ("coords", PStr "(1, 2, 3)");
               ("total_output", PStr "5 cs wheat");
               ("runtime", PTimedelta 1800000000);
               ("regrow_time", PTimedelta 7200000000);
               ("next_ready", PNone); ("status", PStr "Currently being farmed")]
              (mk_coro [FFailsafeNew 0 true] Live) None None None None None None)
    as (H1 & H2 & _).
  - intros i H. vm_compute in H. destruct H as [<-|[]]. eexists. reflexivity.
  - vm_compute. repeat constructor.
  - discriminate.
  - reflexivity.
  - reflexivity.
  - reflexivity.
  - reflexivity.
  - reflexivity.
  - reflexivity.
  - reflexivity.
  - reflexivity.
  - reflexivity.
  - vm_compute. reflexivity.
  - split; [exact H1 | rewrite H2; reflexivity].
Defined.

(** "wheat | needs water" *)
Lemma neutral_line_only_checkpoints_witness :
  last_message_id
    (snd (process_kira_message sample_isoformat neutral_line
            (sample_boot true false)))
  = PInt 14
  /\ synced sample_isoformat
       (snd (process_kira_message sample_isoformat neutral_line
               (sample_boot true false)))
  /\ coros (snd (process_kira_message sample_isoformat neutral_line
                   (sample_boot true false))) = []
  /\ scheduled (snd (process_kira_message sample_isoformat neutral_line
                       (sample_boot true false))) = [].
Proof.
  destruct (neutral_line_only_checkpoints sample_fromisoformat sample_isoformat
              (sample_boot true false) neutral_line "00:00:00" "bob"
              "wheat | needs water" "wheat " " needs water" 0%nat wheat
              (7200 * US_PER_SECOND) (1800 * US_PER_SECOND))
    as (H1 & H2 & H3 & H4 & _); try reflexivity.
  auto.
Defined.

(** A registry in the middle of a cycle, saved and loaded. *)
Lemma load_save_round_trip_witness :
  exists doc,
    save_farms sample_isoformat data_counting_down = Some doc
    /\ load_farms sample_fromisoformat (Content doc) = Some data_counting_down.
Proof.
  eexists. split; [reflexivity|].
  apply (load_save_round_trip sample_fromisoformat sample_isoformat).
  - repeat constructor. eexists. split; [reflexivity|].
    split; [exists 1800; split; reflexivity|].
    split; [exists 7200; split; reflexivity|].
    split; [|reflexivity].
    right. eexists. split; [reflexivity|]. split; [discriminate | reflexivity].
  - reflexivity.
Defined.



(** A file that cannot be parsed is replaced by the defaults. *)
Lemma empty_registry_gets_defaults_witness :
  exists w doc,
    startup sample_fromisoformat sample_isoformat T0 Unreadable true true true
    = Some w
    /\ objs w = default_farms /\ farms w = [0%nat; 1%nat]
    /\ last_message_id w = PNone /\ status_message_id w = PNone
    /\ disk w = Content doc /\ log w = [EvSave (Content doc)]
    /\ load_farms sample_fromisoformat (Content doc)
       = in_memory_data w
    /\ registry_wf w.
Proof.
  exact (empty_registry_gets_defaults sample_fromisoformat sample_isoformat
           T0 Unreadable true true true
           [("last_message_id", PNone); ("status_message_id", PNone);
            ("farms", PList [])]
           eq_refl eq_refl eq_refl eq_refl).
Defined.

(** A start, a finish and the commands in between. *)
Lemma next_ready_only_while_farming_witness :
  lifecycle_inv (run sample_fromisoformat sample_isoformat busy_run two_farms).
Proof.
  apply next_ready_only_while_farming.
  repeat constructor.
Defined.
